(** * tickets_service: event and ticket lifecycle

    A shallow embedding of the request handlers of [app.py] over the two
    tables declared in [models.py], and the properties of the ticket
    inventory that the service documentation states about them.

    Layout: the calendar, the tables, the unit of work of the ORM session,
    the five mutating handlers, then the theorems. *)

From Stdlib Require Import Ascii QArith Lqa.
From stdpp Require Import gmap strings list fin_maps.

Open Scope Z_scope.

(** ** Naive date-times

    [app.py] only compares naive [datetime] values, either whole
    ([event.end_date > current_time]) or through [.date()].  A naive
    date-time is a day (the proleptic Gregorian ordinal of [date.toordinal])
    and the time elapsed since midnight in microseconds; the order on
    date-times is the lexicographic one, the order on dates is the order on
    ordinals. *)

Module Clock.

Record datetime := DateTime { ordinal : Z; micros : Z }.

(** [dt.date()] *)
Definition date (dt : datetime) : Z := ordinal dt.

(** [a < b] on two date-times *)
Definition dt_ltb (a b : datetime) : bool :=
  (ordinal a <? ordinal b) || ((ordinal a =? ordinal b) && (micros a <? micros b)).

(** [a > b] on two date-times *)
Definition dt_gtb (a b : datetime) : bool := dt_ltb b a.

Definition midnight (day : Z) : datetime := DateTime day 0.

(** *** The calendar arithmetic of [datetime] *)

Definition is_leap (y : Z) : bool :=
  (y mod 4 =? 0) && (negb (y mod 100 =? 0) || (y mod 400 =? 0)).

Definition days_in_month (y m : Z) : Z :=
  if m =? 2 then (if is_leap y then 29 else 28)
  else if (m =? 4) || (m =? 6) || (m =? 9) || (m =? 11) then 30
  else 31.

Definition days_before_year (y : Z) : Z :=
  let p := y - 1 in p * 365 + p / 4 - p / 100 + p / 400.

Fixpoint days_before_month_aux (y : Z) (n : nat) : Z :=
  match n with
  | O => 0
  | S k => days_before_month_aux y k + days_in_month y (Z.of_nat (S k))
  end.

Definition days_before_month (y m : Z) : Z :=
  days_before_month_aux y (Z.to_nat (m - 1)).

Definition ymd2ord (y m d : Z) : Z :=
  days_before_year y + days_before_month y m + d.

(** *** [datetime.strptime(s, "%d/%m/%Y")] on ASCII input

    The directive [%d] accepts [3[0-1]|[1-2]\d|0[1-9]|[1-9]| [1-9]], [%m]
    accepts [1[0-2]|0[1-9]|[1-9]] and [%Y] four digits; nothing may follow
    the year, the year is at least 1 and the day exists in the month.  The
    result is the date at midnight; [None] stands for the [ValueError]. *)

Definition digit (a : Ascii.ascii) : option Z :=
  let n := Z.of_N (Ascii.N_of_ascii a) - 48 in
  if (0 <=? n) && (n <=? 9) then Some n else None.

Fixpoint split_slash (s : string) : list string :=
  match s with
  | EmptyString => [EmptyString]
  | String c rest =>
      if Ascii.eqb c "/"%char then EmptyString :: split_slash rest
      else match split_slash rest with
           | [] => [String c EmptyString]
           | w :: ws => String c w :: ws
           end
  end.

Definition parse_day (s : string) : option Z :=
  match s with
  | String a EmptyString =>
      d ← digit a; if 1 <=? d then Some d else None
  | String a (String b EmptyString) =>
      if Ascii.eqb a " "%char
      then d ← digit b; if 1 <=? d then Some d else None
      else
        x ← digit a; y ← digit b;
        if ((x =? 0) && (1 <=? y)) || (1 <=? x) && (x <=? 2) || ((x =? 3) && (y <=? 1))
        then Some (10 * x + y) else None
  | _ => None
  end.

Definition parse_month (s : string) : option Z :=
  match s with
  | String a EmptyString =>
      d ← digit a; if 1 <=? d then Some d else None
  | String a (String b EmptyString) =>
      x ← digit a; y ← digit b;
      if ((x =? 0) && (1 <=? y)) || ((x =? 1) && (y <=? 2))
      then Some (10 * x + y) else None
  | _ => None
  end.

Definition parse_year (s : string) : option Z :=
  match s with
  | String a (String b (String c (String d EmptyString))) =>
      w ← digit a; x ← digit b; y ← digit c; z ← digit d;
      Some (1000 * w + 100 * x + 10 * y + z)
  | _ => None
  end.

Definition strptime_dmy (s : string) : option datetime :=
  match split_slash s with
  | [ds; ms; ys] =>
      d ← parse_day ds; m ← parse_month ms; y ← parse_year ys;
      if (1 <=? y) && (d <=? days_in_month y m)
      then Some (midnight (ymd2ord y m d)) else None
  | _ => None
  end.

End Clock.

Export Clock.

(** ** The tables of [models.py] *)

Module Models.

Record Event := mkEvent {
  name : string;
  start_date : datetime;
  end_date : datetime;
  total_tickets : Z;
  tickets_sold : Z
}.

Record Ticket := mkTicket {
  event_id : Z;
  redeemed : bool;
  sold_at : datetime
}.

(** The committed content of the database: one row per primary key. *)
Record database := mkDb {
  events : gmap Z Event;
  tickets : gmap Z Ticket
}.

End Models.

Export Models.

Definition empty_db : database := mkDb ∅ ∅.

(** The key SQLite gives to a new row of an [Integer] primary key: one
    more than the largest key in the table, 1 in an empty table. *)
Definition next_id {V} (m : gmap Z V) : Z :=
  1 + foldr Z.max 0 (map_to_list m).*1.

(** The rows that [cascade="all, delete-orphan"] leaves when the event
    [eid] goes: every ticket of another event. *)
Definition tickets_without (eid : Z) (ts : gmap Z Ticket) : gmap Z Ticket :=
  filter (λ kt, event_id kt.2 ≠ eid) ts.

(** ** Requests and responses *)

(** A key of the JSON body: absent, [null], or a value of the annotated
    type ([name:str], [start_date_str:str], [end_date_str:str],
    [total_tickets:int]). *)
Inductive field (A : Type) := Missing | Null | Val (a : A).
Arguments Missing {A}.
Arguments Null {A}.
Arguments Val {A} a.

Record body := mkBody {
  b_name : field string;
  b_start_date : field string;
  b_end_date : field string;
  b_total_tickets : field Z
}.

Inductive exception :=
| KeyError (key : string)
| TypeError (what : string)
| AttributeError (what : string)
| OverflowError (what : string).

(** What the client receives.  [Message] is [jsonify({"message": m})],
    [MessageId] carries one more integer entry, [Error] is
    [jsonify({"error": e})]; [Abort404] is the abort of [get_or_404];
    [Unhandled] is an exception that leaves the view (status 500). *)
Inductive response :=
| Message (status : Z) (message : string)
| MessageId (status : Z) (message : string) (key : string) (id : Z)
| Error (status : Z) (error : string)
| Abort404
| Unhandled (exc : exception).

(** ** The session

    [db.session] holds the objects the view has loaded or added, with the
    attribute assignments made so far ([pending]); [db.session.commit()]
    writes them to the database ([committed]).  The session of
    Flask-SQLAlchemy lives for one request and is removed when the request
    ends: what was not committed when the view returns is dropped with
    it. *)

Record session := mkSession {
  committed : database;
  pending : database
}.

Inductive outcome (A : Type) :=
| Next (a : A) (s : session)
| Respond (r : response) (s : session).
Arguments Next {A} a s.
Arguments Respond {A} r s.

(** A piece of a view function: it either goes on with a value or leaves
    the view with a response ([return ..., 400], an abort, an exception). *)
Definition view (A : Type) : Type := session → outcome A.

#[global] Instance view_ret : MRet view := λ A a s, Next a s.

#[global] Instance view_bind : MBind view := λ A B f m s,
  match m s with
  | Next a s' => f a s'
  | Respond r s' => Respond r s'
  end.

Definition respond {A} (r : response) : view A := λ s, Respond r s.

Definition raise {A} (e : exception) : view A := respond (Unhandled e).

(** [data.get(key)] *)
Definition dict_get {A} (f : field A) : option A :=
  match f with Val a => Some a | _ => None end.

(** [data[key]] *)
Definition dict_item {A} (key : string) (f : field A) : view (option A) :=
  match f with
  | Missing => raise (KeyError key)
  | Null => mret None
  | Val a => mret (Some a)
  end.

(** Truth value of a string or [None], of an integer or [None]. *)
Definition truthy_str (o : option string) : bool :=
  match o with Some s => negb (String.eqb s "") | None => false end.

Definition truthy_int (o : option Z) : bool :=
  match o with Some z => negb (z =? 0) | None => false end.

(** [Event.query.get_or_404(id)] *)
Definition Event_get_or_404 (id : Z) : view Event := λ s,
  match events (pending s) !! id with
  | Some ev => Next ev s
  | None => Respond Abort404 s
  end.

(** [Ticket.query.get_or_404(id)] *)
Definition Ticket_get_or_404 (id : Z) : view Ticket := λ s,
  match tickets (pending s) !! id with
  | Some t => Next t s
  | None => Respond Abort404 s
  end.

(** [ticket.event], the lazy load through the foreign key *)
Definition Ticket_event (t : Ticket) : view (option Event) := λ s,
  Next (events (pending s) !! event_id t) s.

(** An attribute assignment on the loaded event [id]: the object in the
    session now reads [ev]. *)
Definition Event_assign (id : Z) (ev : Event) : view Event := λ s,
  Next ev (mkSession (committed s)
             (mkDb (<[id := ev]> (events (pending s))) (tickets (pending s)))).

(** An attribute assignment on the loaded ticket [id]. *)
Definition Ticket_assign (id : Z) (t : Ticket) : view Ticket := λ s,
  Next t (mkSession (committed s)
            (mkDb (events (pending s)) (<[id := t]> (tickets (pending s))))).

(** [db.session.add(event)]; the result is the key the row receives. *)
Definition session_add_event (ev : Event) : view Z := λ s,
  let id := next_id (events (pending s)) in
  Next id (mkSession (committed s)
             (mkDb (<[id := ev]> (events (pending s))) (tickets (pending s)))).

(** [db.session.add(ticket)] *)
Definition session_add_ticket (t : Ticket) : view Z := λ s,
  let id := next_id (tickets (pending s)) in
  Next id (mkSession (committed s)
             (mkDb (events (pending s)) (<[id := t]> (tickets (pending s))))).

(** [db.session.delete(event)], with the cascade of [Event.tickets] *)
Definition session_delete_event (id : Z) : view unit := λ s,
  Next tt (mkSession (committed s)
             (mkDb (delete id (events (pending s)))
                   (tickets_without id (tickets (pending s))))).

(** [db.session.commit()] *)
Definition commit : view unit := λ s,
  Next tt (mkSession (pending s) (pending s)).

(** One request: a fresh session on the database, the view, and the
    database as the request leaves it. *)
Definition open_session (d : database) : session := mkSession d d.

Definition outcome_response (o : outcome response) : response :=
  match o with Next r _ => r | Respond r _ => r end.

Definition outcome_session {A} (o : outcome A) : session :=
  match o with Next _ s => s | Respond _ s => s end.

Definition serve (v : view response) (d : database) : response * database :=
  let o := v (open_session d) in
  (outcome_response o, committed (outcome_session o)).

(** ** The views of [app.py] *)

(** Attribute assignments on a loaded row. *)
Definition set_name (v : string) (ev : Event) : Event :=
  mkEvent v (start_date ev) (end_date ev) (total_tickets ev) (tickets_sold ev).

Definition set_start_date (v : datetime) (ev : Event) : Event :=
  mkEvent (name ev) v (end_date ev) (total_tickets ev) (tickets_sold ev).

Definition set_end_date (v : datetime) (ev : Event) : Event :=
  mkEvent (name ev) (start_date ev) v (total_tickets ev) (tickets_sold ev).

Definition set_total_tickets (v : Z) (ev : Event) : Event :=
  mkEvent (name ev) (start_date ev) (end_date ev) v (tickets_sold ev).

Definition set_tickets_sold (v : Z) (ev : Event) : Event :=
  mkEvent (name ev) (start_date ev) (end_date ev) (total_tickets ev) v.

Definition set_redeemed (v : bool) (t : Ticket) : Ticket :=
  mkTicket (event_id t) v (sold_at t).

(** [all([...])] *)
Definition all (l : list bool) : bool := forallb id l.

(** [jsonify] on the argument of the two [except] branches, a set in
    [create_event] and a dictionary holding a set in [update_event]: the
    JSON provider has no rendering for a set and raises. *)
Definition jsonify_set {A} : view A :=
  raise (TypeError "Object of type set is not JSON serializable").

Section Views.

(** [datetime.strptime(s, "%d/%m/%Y")]: the date-time read from [s], or
    [None] when it raises. *)
Variable strptime : string → option datetime.

(** [POST /events]; the column [tickets_sold] of the new event takes its
    default, 0. *)
Definition create_event (now : datetime) (data : body) : view response :=
  let name := dict_get (b_name data) in
  start_date_str ← dict_item "start_date" (b_start_date data);
  end_date_str ← dict_item "end_date" (b_end_date data);
  total_tickets ← dict_item "total_tickets" (b_total_tickets data);
  if negb (all [truthy_str name; truthy_str start_date_str;
                truthy_str end_date_str; truthy_int total_tickets])
  then respond (Error 400 "Missing requeired fieds.")
  else
    match name, start_date_str, end_date_str, total_tickets with
    | Some name, Some start_date_str, Some end_date_str, Some total_tickets =>
        match strptime start_date_str, strptime end_date_str with
        | Some start_date, Some end_date =>
            if date start_date <? date now
            then respond (Error 400 "Start date must not be in the past.")
            else if date end_date <? date start_date
            then respond (Error 400 "End date must not be before start date.")
            else if negb ((1 <=? total_tickets) && (total_tickets <=? 300))
            then respond (Error 400 "The number of total tickets must be between 1 and 300.")
            else
              id ← session_add_event
                     (mkEvent name start_date end_date total_tickets 0);
              commit;;
              respond (MessageId 200 "Event created successfully." "event_id" id)
        | _, _ => jsonify_set
        end
    | _, _, _, _ =>
        (* not reached: a [None] does not pass the gate above *)
        raise (TypeError "NoneType")
    end.

(** [PUT /events/<int:event_id>] *)
Definition update_event (event_id : Z) (now : datetime) (data : body)
  : view response :=
  event ← Event_get_or_404 event_id;
  name ← dict_item "name" (b_name data);
  start_date_str ← dict_item "start_date" (b_start_date data);
  end_date_str ← dict_item "end_date" (b_end_date data);
  total_tickets ← dict_item "total_tickets" (b_total_tickets data);
  if negb (all [truthy_str name; truthy_str start_date_str;
                truthy_str end_date_str; truthy_int total_tickets])
  then respond (Error 400 "Missing required fields.")
  else
    event ← (match name with
             | Some v =>
                 if truthy_str name then Event_assign event_id (set_name v event)
                 else mret event
             | None => mret event
             end);
    event ← (match start_date_str with
             | Some v =>
                 if truthy_str start_date_str then
                   match strptime v with
                   | None => jsonify_set
                   | Some start_date =>
                       if date start_date <? date now
                       then respond (Error 400 "The start date must not be in the past.")
                       else Event_assign event_id (set_start_date start_date event)
                   end
                 else mret event
             | None => mret event
             end);
    event ← (match end_date_str with
             | Some v =>
                 if truthy_str end_date_str then
                   match strptime v with
                   | None => jsonify_set
                   | Some end_date =>
                       if date end_date <? date (start_date event)
                       then respond (Error 400 "End date must not be before start date.")
                       else Event_assign event_id (set_end_date end_date event)
                   end
                 else mret event
             | None => mret event
             end);
    event ← (match total_tickets with
             | Some v =>
                 if v <? tickets_sold event
                 then respond (Error 400 "You cannot reduce total tickets below tickets sold.")
                 else if negb ((1 <=? v) && (v <=? 300))
                 then respond (Error 400 "The total of tickets must be between 1 and 300.")
                 else Event_assign event_id (set_total_tickets v event)
             | None => mret event
             end);
    commit;;
    respond (Message 200 "Event updated successfully.").

(** [DELETE /events/<int:event_id>] *)
Definition delete_event (event_id : Z) (now : datetime) : view response :=
  event ← Event_get_or_404 event_id;
  let current_time := now in
  if (0 <? tickets_sold event) && dt_gtb (end_date event) current_time
  then respond (Error 400 "You can't delete an event with sold tickets or before it ends.")
  else
    session_delete_event event_id;;
    commit;;
    respond (Message 200 "The event was deleted successfully.").

(** [POST /events/<int:event_id>/sell]; the columns [redeemed] and
    [sold_at] of the new ticket take their defaults, [False] and
    [datetime.now()]. *)
Definition sell_ticket (event_id : Z) (now : datetime) : view response :=
  event ← Event_get_or_404 event_id;
  if total_tickets event <=? tickets_sold event
  then respond (Error 400 "No more tickets available for this event.")
  else
    let ticket := mkTicket event_id false now in
    Event_assign event_id (set_tickets_sold (tickets_sold event + 1) event);;
    session_add_ticket ticket;;
    commit;;
    respond (MessageId 201 "Ticket sold in a successfully way." "ticket_id"
               (Models.event_id ticket)).

(** [POST /tickets/<int:ticket_id>/redeem] *)
Definition redeem_ticket (ticket_id : Z) (now : datetime) : view response :=
  ticket ← Ticket_get_or_404 ticket_id;
  event ← Ticket_event ticket;
  let current_time := now in
  if redeemed ticket
  then respond (Error 400 "Ticket has already been redeemed.")
  else
    match event with
    | None => raise (AttributeError "'NoneType' object has no attribute 'start_date'")
    | Some event =>
        if negb ((date (start_date event) <=? date current_time)
                 && (date current_time <=? date (end_date event)))
        then respond (Error 400 "Ticket can only be redeemed during the event's duration.")
        else
          Ticket_assign ticket_id (set_redeemed true ticket);;
          commit;;
          respond (Message 200 "Ticket redeemed successfully.")
    end.

(** ** The service as a transition system *)

Inductive request :=
| CreateEvent (data : body)
| UpdateEvent (event_id : Z) (data : body)
| DeleteEvent (event_id : Z)
| SellTicket (event_id : Z)
| RedeemTicket (ticket_id : Z).

Definition route (now : datetime) (r : request) : view response :=
  match r with
  | CreateEvent data => create_event now data
  | UpdateEvent id data => update_event id now data
  | DeleteEvent id => delete_event id now
  | SellTicket id => sell_ticket id now
  | RedeemTicket id => redeem_ticket id now
  end.

(** One request served at time [now]. *)
Definition handle (now : datetime) (r : request) (d : database)
  : response * database :=
  serve (route now r) d.

(** A sequence of requests, each with the time it is served at. *)
Fixpoint run (trace : list (datetime * request)) (d : database) : database :=
  match trace with
  | [] => d
  | (now, r) :: rest => run rest (handle now r d).2
  end.

(** The databases the service can be in, starting from the empty one. *)
Inductive reachable : database → Prop :=
| reachable_empty : reachable empty_db
| reachable_step d now r : reachable d → reachable (handle now r d).2.

End Views.

(** The kinds of failure the documentation names, as the handlers answer
    them. *)
Definition ValidationError (r : response) : Prop := ∃ msg, r = Error 400 msg.

Definition CapacityExceededError : response :=
  Error 400 "No more tickets available for this event.".

Definition AlreadyRedeemedError : response :=
  Error 400 "Ticket has already been redeemed.".

Definition OutOfWindowError : response :=
  Error 400 "Ticket can only be redeemed during the event's duration.".

Definition CannotDeleteError : response :=
  Error 400 "You can't delete an event with sold tickets or before it ends.".

(** A response that reports success: every [jsonify({"message": ...})]. *)
Definition succeeded (r : response) : bool :=
  match r with
  | Message _ _ | MessageId _ _ _ _ => true
  | _ => false
  end.

(** The bounds every stored event keeps, and the foreign key of every
    stored ticket. *)
Definition event_ok (ev : Event) : Prop :=
  0 ≤ tickets_sold ev ≤ total_tickets ev
  ∧ 1 ≤ total_tickets ev ≤ 300
  ∧ date (start_date ev) ≤ date (end_date ev).

Definition consistent (d : database) : Prop :=
  (∀ id ev, events d !! id = Some ev → event_ok ev)
  ∧ (∀ tid t, tickets d !! tid = Some t → is_Some (events d !! event_id t)).

(** [date now] lies in the window of the event, bounds included. *)
Definition in_window (now : datetime) (ev : Event) : Prop :=
  date (start_date ev) ≤ date now ≤ date (end_date ev).

(** A body that passes the required-field gate of both views. *)
Definition complete (n s e : string) (t : Z) : Prop :=
  n ≠ "" ∧ s ≠ "" ∧ e ≠ "" ∧ t ≠ 0.

(** The table [ts'] is [ts] with [n] more tickets, each of them an
    unredeemed ticket of the event [eid]. *)
Definition grown_by (eid : Z) (n : nat) (ts ts' : gmap Z Ticket) : Prop :=
  ts ⊆ ts'
  ∧ size ts' = (size ts + n)%nat
  ∧ ∀ k t, ts' !! k = Some t → ts !! k = None →
           event_id t = eid ∧ redeemed t = false.

(** The answer of a successful sale for the event [eid]. *)
Definition sold_response (eid : Z) : response :=
  MessageId 201 "Ticket sold in a successfully way." "ticket_id" eid.

(** One of the field checks of [update_event] fails on the dates [s], [e]
    and the capacity [t]: a date that cannot be read, a start date in the
    past, an end date before the start date, a capacity below the tickets
    sold or outside 1..300. *)
Definition update_check_fails (strptime : string → option datetime)
    (now : datetime) (ev : Event) (s e : string) (t : Z) : Prop :=
  strptime s = None
  ∨ strptime e = None
  ∨ (∃ sd, strptime s = Some sd ∧ date sd < date now)
  ∨ (∃ sd ed, strptime s = Some sd ∧ strptime e = Some ed ∧ date ed < date sd)
  ∨ t < tickets_sold ev
  ∨ t < 1
  ∨ 300 < t.

(** [SellTicket] called once for each time of [times], in order: the
    responses and the database after the last call. *)
Fixpoint sell_many (event_id : Z) (times : list datetime) (d : database)
  : list response * database :=
  match times with
  | [] => ([], d)
  | now :: rest =>
      let (r, d') := serve (sell_ticket event_id now) d in
      let (rs, d'') := sell_many event_id rest d' in
      (r :: rs, d'')
  end.

(** No sequence of requests leads to a database in which the ticket [tid]
    is redeemed successfully. *)
Definition never_redeemable (strptime : string → option datetime)
    (d : database) (tid : Z) : Prop :=
  ∀ trace later,
    (handle strptime later (RedeemTicket tid) (run strptime trace d)).1
    ≠ Message 200 "Ticket redeemed successfully.".

(** ** Sample requests

    The body of the documentation's example, a few clock readings, and the
    databases that the sample requests lead to. *)

(** 3 November 2026, 10:00. *)
Definition now_2026 : datetime := DateTime 739923 36000000000.

(** 19 October 2030, 12:00, the first day of the concert. *)
Definition concert_day : datetime := DateTime 741369 43200000000.

(** 20 October 2030, 12:00, the last day of the concert. *)
Definition last_day : datetime := DateTime 741370 43200000000.

(** 30 October 2030, 00:00, ten days after the end of the concert. *)
Definition after_concert : datetime := DateTime 741380 0.

Definition concert : body :=
  mkBody (Val "Concert") (Val "19/10/2030") (Val "20/10/2030") (Val 2).

(** The row of the concert with [sold] tickets sold. *)
Definition concert_event (sold : Z) : Event :=
  mkEvent "Concert" (midnight 741369) (midnight 741370) 2 sold.

Definition db_concert : database :=
  (handle strptime_dmy now_2026 (CreateEvent concert) empty_db).2.

Definition db_one_sold : database :=
  (handle strptime_dmy now_2026 (SellTicket 1) db_concert).2.

Definition db_sold_out : database :=
  (handle strptime_dmy now_2026 (SellTicket 1) db_one_sold).2.

Definition db_redeemed : database :=
  (handle strptime_dmy concert_day (RedeemTicket 1) db_sold_out).2.

(** The concert with a capacity of 1, below the two tickets sold. *)
Definition concert_shrunk : body :=
  mkBody (Val "Concert") (Val "19/10/2030") (Val "20/10/2030") (Val 1).

(** The concert renamed and moved to 2020. *)
Definition concert_in_2020 : body :=
  mkBody (Val "Recital") (Val "19/10/2020") (Val "20/10/2030") (Val 2).

(** The concert starting on the day after its end date. *)
Definition concert_starting_late : body :=
  mkBody (Val "Concert") (Val "21/10/2030") (Val "20/10/2030") (Val 2).

(** The concert moved one week earlier, ending before its old start. *)
Definition concert_one_week_earlier : body :=
  mkBody (Val "Concert") (Val "12/10/2030") (Val "13/10/2030") (Val 2).

(** A body whose start date cannot be read and whose capacity is above the
    limit. *)
Definition unreadable_oversized : body :=
  mkBody (Val "Concert") (Val "19-10-2030") (Val "20/10/2030") (Val 500).

(** The concert moved to 30 and 31 October 2030. *)
Definition concert_postponed : body :=
  mkBody (Val "Concert") (Val "30/10/2030") (Val "31/10/2030") (Val 2).

(** The last ticket of the concert sold ten days after its end. *)
Definition db_sold_late : database :=
  (handle strptime_dmy after_concert (SellTicket 1) db_one_sold).2.

(** A second event, created once the concert is over and deleted. *)
Definition festival : body :=
  mkBody (Val "Festival") (Val "01/11/2030") (Val "02/11/2030") (Val 10).

Definition reuse_trace : list (datetime * request) :=
  [(after_concert, DeleteEvent 1);
   (after_concert, CreateEvent festival);
   (after_concert, SellTicket 1)].

(** ** The reading views of [app.py] *)

(** [Event.tickets], the relationship of [models.py]: the tickets whose
    foreign key is [eid]. *)
Definition tickets_of (eid : Z) (ts : gmap Z Ticket) : gmap Z Ticket :=
  filter (λ kt, event_id kt.2 = eid) ts.

(** [Ticket.query.filter_by(event_id=eid, redeemed=True).count()] *)
Definition count_redeemed (eid : Z) (d : database) : Z :=
  Z.of_nat (size (filter (λ kt, event_id kt.2 = eid ∧ redeemed kt.2 = true)
                         (tickets d))).

(** The dictionary both reading views build for an event; [get_all_events]
    adds the entry ["id"], kept here beside the record. *)
Module View.

Record event_details := mkDetails {
  name : string;
  start_date : datetime;
  end_date : datetime;
  total_tickets : Z;
  tickets_sold : Z;
  tickets_redeemed : Z
}.

End View.

(** What a reading view returns: a text with its status, the details of
    one event, or [{"events": [...]}]. *)
Inductive page :=
| Plain (status : Z) (text : string)
| DetailsPage (status : Z) (details : View.event_details)
| EventsPage (status : Z) (all_events : list (Z * View.event_details)).

(** [GET /] *)
Definition index : page :=
  Plain 200 "Welcome to the management tickets service".

Definition event_view (eid : Z) (event : Event) (d : database)
  : View.event_details :=
  View.mkDetails (name event) (start_date event) (end_date event)
    (total_tickets event) (tickets_sold event) (count_redeemed eid d).

(** [GET /events/<int:event_id>] *)
Definition get_event_details (event_id : Z) (d : database) : page :=
  match events d !! event_id with
  | None => Plain 404 "Event not found"
  | Some event => DetailsPage 200 (event_view event_id event d)
  end.

(** [GET /events]; the rows come in the order of the table, here the order
    of [map_to_list]. *)
Definition get_all_events (d : database) : page :=
  match map_to_list (events d) with
  | [] => Plain 404 "No events found"
  | rows => EventsPage 200 (map (λ row, (row.1, event_view row.1 row.2 d)) rows)
  end.

(** ** Further invariants *)

(** [tickets_sold] counts the tickets of the event. *)
Definition counted (d : database) : Prop :=
  ∀ id ev, events d !! id = Some ev →
           tickets_sold ev = Z.of_nat (size (tickets_of id (tickets d))).

(** A parser that yields the date at midnight, as [strptime] does for a
    format without time directives. *)
Definition reads_midnight (strptime : string → option datetime) : Prop :=
  ∀ s dt, strptime s = Some dt → micros dt = 0.

(** Both dates of every stored event are at midnight. *)
Definition dates_at_midnight (d : database) : Prop :=
  ∀ id ev, events d !! id = Some ev →
           micros (start_date ev) = 0 ∧ micros (end_date ev) = 0.

(** ** Requests on missing rows and with missing fields *)

(** A key that is present but holds nothing the gate accepts: [null], the
    empty string, the integer 0. *)
Definition blank_str (f : field string) : Prop := f = Null ∨ f = Val "".

Definition blank_int (f : field Z) : Prop := f = Null ∨ f = Val 0.

(** ** What one request does to the tables *)

(** The shapes the database can take after one request served at [now]:
    unchanged, or one of the five writes. *)
Inductive effect (now : datetime) (d : database) : request → database → Prop :=
| effect_none r :
    effect now d r d
| effect_create data ev :
    tickets_sold ev = 0 →
    effect now d (CreateEvent data)
      (mkDb (<[next_id (events d) := ev]> (events d)) (tickets d))
| effect_update id data ev ev' :
    events d !! id = Some ev → tickets_sold ev' = tickets_sold ev →
    effect now d (UpdateEvent id data)
      (mkDb (<[id := ev']> (events d)) (tickets d))
| effect_delete id ev :
    events d !! id = Some ev →
    effect now d (DeleteEvent id)
      (mkDb (delete id (events d)) (tickets_without id (tickets d)))
| effect_sell id ev :
    events d !! id = Some ev →
    effect now d (SellTicket id)
      (mkDb (<[id := set_tickets_sold (tickets_sold ev + 1) ev]> (events d))
            (<[next_id (tickets d) := mkTicket id false now]> (tickets d)))
| effect_redeem tid t :
    tickets d !! tid = Some t → redeemed t = false →
    effect now d (RedeemTicket tid)
      (mkDb (events d) (<[tid := set_redeemed true t]> (tickets d))).

(** ** More sample requests *)

(** The concert without the key ["name"]. *)
Definition concert_nameless : body :=
  mkBody Missing (Val "19/10/2030") (Val "20/10/2030") (Val 2).

(** The concert without the key ["total_tickets"]. *)
Definition concert_without_total : body :=
  mkBody (Val "Concert") (Val "19/10/2030") (Val "20/10/2030") Missing.

(** The concert with an end date written with dots. *)
Definition concert_dotted_end : body :=
  mkBody (Val "Concert") (Val "19/10/2030") (Val "20.10.2030") (Val 2).

(** The database once the sold-out concert is deleted, ten days after its
    end. *)
Definition db_deleted : database :=
  (serve (delete_event 1 after_concert) db_sold_out).2.

(** ** The views on any JSON number and any key

    The definitions above take the body at its annotated types and every
    key within the range of an SQLite integer.  [app.py] checks neither:
    [total_tickets] is compared and stored whatever number the body holds
    (the Boolean [true] counts as 1), and a key of 2^63 or more makes the
    driver raise [OverflowError] when the lookup binds it.  The module
    [Wide] has the same views without the two restrictions.  Its views are
    functions of the committed database: a step that leaves the view
    returns the response with the database it was entered with, and only a
    view that reaches [db.session.commit()] returns another one.

    A name that is a number is stored as its text and one that is a list or
    a dictionary cannot be bound, a date that is not a string is refused by
    [strptime], and a capacity that is not a number cannot be compared: none
    of them leads to a database that a body of strings and a number does not
    lead to. *)

Module Wide.

(** A JSON number as Python holds it: an integer or a float, and among the
    floats the three that are not finite.  The views only compare it with
    integers, which Python does exactly, so a finite number is its value. *)
Inductive number := Finite (q : Q) | NaN | PosInf | NegInf.

(** Truth value of a number or [None]: zero is false. *)
Definition truthy_number (o : option number) : bool :=
  match o with
  | Some (Finite q) => negb (Qeq_bool q 0)
  | Some _ => true
  | None => false
  end.

(** [n <= x], [x <= n] and [x < n] for an integer [n]. *)
Definition int_le (n : Z) (x : number) : bool :=
  match x with
  | Finite q => Qle_bool (inject_Z n) q
  | PosInf => true
  | NaN | NegInf => false
  end.

Definition le_int (x : number) (n : Z) : bool :=
  match x with
  | Finite q => Qle_bool q (inject_Z n)
  | NegInf => true
  | NaN | PosInf => false
  end.

Definition lt_int (x : number) (n : Z) : bool :=
  match x with
  | Finite q => negb (Qle_bool (inject_Z n) q)
  | NegInf => true
  | NaN | PosInf => false
  end.

Record Event := mkEvent {
  name : string;
  start_date : datetime;
  end_date : datetime;
  total_tickets : number;
  tickets_sold : Z
}.

Record database := mkDb {
  events : gmap Z Event;
  tickets : gmap Z Ticket
}.

Definition empty_db : database := mkDb ∅ ∅.

Record body := mkBody {
  b_name : field string;
  b_start_date : field string;
  b_end_date : field string;
  b_total_tickets : field number
}.

(** A step of a view: the response it leaves the view with, or a value. *)
Definition step (A : Type) : Type := response + A.

#[global] Instance step_ret : MRet step := λ A a, inr a.

#[global] Instance step_bind : MBind step := λ A B f m,
  match m with
  | inl r => inl r
  | inr a => f a
  end.

Definition stop {A} (r : response) : step A := inl r.

Definition raise {A} (e : exception) : step A := inl (Unhandled e).

(** The view entered on [d]: what it returns and the database it leaves. *)
Definition finish (d : database) (m : step (response * database))
  : response * database :=
  match m with
  | inl r => (r, d)
  | inr out => out
  end.

(** A key SQLite can hold, a signed integer of 64 bits. *)
Definition sqlite_int (id : Z) : bool :=
  (- 2 ^ 63 <=? id) && (id <? 2 ^ 63).

(** The request whose key the driver cannot bind. *)
Definition overflow : response :=
  Unhandled (OverflowError "Python int too large to convert to SQLite INTEGER").

(** [Model.query.get(id)]: the driver refuses a key it cannot bind. *)
Definition query_get {V} (table : gmap Z V) (id : Z) : step (option V) :=
  if sqlite_int id then mret (table !! id) else stop overflow.

(** [Model.query.get_or_404(id)] *)
Definition get_or_404 {V} (table : gmap Z V) (id : Z) : step V :=
  row ← query_get table id;
  match row with
  | Some v => mret v
  | None => stop Abort404
  end.

(** [data[key]] *)
Definition item {A} (key : string) (f : field A) : step (option A) :=
  match f with
  | Missing => raise (KeyError key)
  | Null => mret None
  | Val a => mret (Some a)
  end.

Definition jsonify_set {A} : step A :=
  raise (TypeError "Object of type set is not JSON serializable").

Definition set_name (v : string) (ev : Event) : Event :=
  mkEvent v (start_date ev) (end_date ev) (total_tickets ev) (tickets_sold ev).

Definition set_start_date (v : datetime) (ev : Event) : Event :=
  mkEvent (name ev) v (end_date ev) (total_tickets ev) (tickets_sold ev).

Definition set_end_date (v : datetime) (ev : Event) : Event :=
  mkEvent (name ev) (start_date ev) v (total_tickets ev) (tickets_sold ev).

Definition set_total_tickets (v : number) (ev : Event) : Event :=
  mkEvent (name ev) (start_date ev) (end_date ev) v (tickets_sold ev).

Definition set_tickets_sold (v : Z) (ev : Event) : Event :=
  mkEvent (name ev) (start_date ev) (end_date ev) (total_tickets ev) v.

Section Views.

Variable strptime : string → option datetime.

(** [POST /events] *)
Definition create_event (now : datetime) (data : body) (d : database)
  : response * database :=
  finish d (
    let name := dict_get (b_name data) in
    start_date_str ← item "start_date" (b_start_date data);
    end_date_str ← item "end_date" (b_end_date data);
    total_tickets ← item "total_tickets" (b_total_tickets data);
    if negb (all [truthy_str name; truthy_str start_date_str;
                  truthy_str end_date_str; truthy_number total_tickets])
    then stop (Error 400 "Missing requeired fieds.")
    else
      match name, start_date_str, end_date_str, total_tickets with
      | Some name, Some start_date_str, Some end_date_str, Some total_tickets =>
          match strptime start_date_str, strptime end_date_str with
          | Some start_date, Some end_date =>
              if date start_date <? date now
              then stop (Error 400 "Start date must not be in the past.")
              else if date end_date <? date start_date
              then stop (Error 400 "End date must not be before start date.")
              else if negb (int_le 1 total_tickets && le_int total_tickets 300)
              then stop (Error 400 "The number of total tickets must be between 1 and 300.")
              else
                let id := next_id (events d) in
                mret (MessageId 200 "Event created successfully." "event_id" id,
                      mkDb (<[id := mkEvent name start_date end_date total_tickets 0]>
                              (events d))
                           (tickets d))
          | _, _ => jsonify_set
          end
      | _, _, _, _ =>
          (* not reached: a [None] does not pass the gate above *)
          raise (TypeError "NoneType")
      end).

(** [PUT /events/<int:event_id>] *)
Definition update_event (event_id : Z) (now : datetime) (data : body)
    (d : database) : response * database :=
  finish d (
    event ← get_or_404 (events d) event_id;
    name ← item "name" (b_name data);
    start_date_str ← item "start_date" (b_start_date data);
    end_date_str ← item "end_date" (b_end_date data);
    total_tickets ← item "total_tickets" (b_total_tickets data);
    if negb (all [truthy_str name; truthy_str start_date_str;
                  truthy_str end_date_str; truthy_number total_tickets])
    then stop (Error 400 "Missing required fields.")
    else
      event ← (match name with
               | Some v =>
                   if truthy_str name then mret (set_name v event)
                   else mret event
               | None => mret event
               end);
      event ← (match start_date_str with
               | Some v =>
                   if truthy_str start_date_str then
                     match strptime v with
                     | None => jsonify_set
                     | Some start_date =>
                         if date start_date <? date now
                         then stop (Error 400 "The start date must not be in the past.")
                         else mret (set_start_date start_date event)
                     end
                   else mret event
               | None => mret event
               end);
      event ← (match end_date_str with
               | Some v =>
                   if truthy_str end_date_str then
                     match strptime v with
                     | None => jsonify_set
                     | Some end_date =>
                         if date end_date <? date (start_date event)
                         then stop (Error 400 "End date must not be before start date.")
                         else mret (set_end_date end_date event)
                     end
                   else mret event
               | None => mret event
               end);
      event ← (match total_tickets with
               | Some v =>
                   if lt_int v (tickets_sold event)
                   then stop (Error 400 "You cannot reduce total tickets below tickets sold.")
                   else if negb (int_le 1 v && le_int v 300)
                   then stop (Error 400 "The total of tickets must be between 1 and 300.")
                   else mret (set_total_tickets v event)
               | None => mret event
               end);
      mret (Message 200 "Event updated successfully.",
            mkDb (<[event_id := event]> (events d)) (tickets d))).

(** [DELETE /events/<int:event_id>] *)
Definition delete_event (event_id : Z) (now : datetime) (d : database)
  : response * database :=
  finish d (
    event ← get_or_404 (events d) event_id;
    let current_time := now in
    if (0 <? tickets_sold event) && dt_gtb (end_date event) current_time
    then stop (Error 400 "You can't delete an event with sold tickets or before it ends.")
    else
      mret (Message 200 "The event was deleted successfully.",
            mkDb (delete event_id (events d))
                 (tickets_without event_id (tickets d)))).

(** [POST /events/<int:event_id>/sell] *)
Definition sell_ticket (event_id : Z) (now : datetime) (d : database)
  : response * database :=
  finish d (
    event ← get_or_404 (events d) event_id;
    if le_int (total_tickets event) (tickets_sold event)
    then stop (Error 400 "No more tickets available for this event.")
    else
      let ticket := mkTicket event_id false now in
      mret (MessageId 201 "Ticket sold in a successfully way." "ticket_id"
              (Models.event_id ticket),
            mkDb (<[event_id := set_tickets_sold (tickets_sold event + 1) event]>
                    (events d))
                 (<[next_id (tickets d) := ticket]> (tickets d)))).

(** [POST /tickets/<int:ticket_id>/redeem] *)
Definition redeem_ticket (ticket_id : Z) (now : datetime) (d : database)
  : response * database :=
  finish d (
    ticket ← get_or_404 (tickets d) ticket_id;
    let event := events d !! Models.event_id ticket in
    let current_time := now in
    if redeemed ticket
    then stop (Error 400 "Ticket has already been redeemed.")
    else
      match event with
      | None => raise (AttributeError "'NoneType' object has no attribute 'start_date'")
      | Some event =>
          if negb ((date (start_date event) <=? date current_time)
                   && (date current_time <=? date (end_date event)))
          then stop (Error 400 "Ticket can only be redeemed during the event's duration.")
          else
            mret (Message 200 "Ticket redeemed successfully.",
                  mkDb (events d)
                       (<[ticket_id := set_redeemed true ticket]> (tickets d)))
      end).

Inductive request :=
| CreateEvent (data : body)
| UpdateEvent (event_id : Z) (data : body)
| DeleteEvent (event_id : Z)
| SellTicket (event_id : Z)
| RedeemTicket (ticket_id : Z).

(** One request served at time [now]. *)
Definition handle (now : datetime) (r : request) (d : database)
  : response * database :=
  match r with
  | CreateEvent data => create_event now data d
  | UpdateEvent id data => update_event id now data d
  | DeleteEvent id => delete_event id now d
  | SellTicket id => sell_ticket id now d
  | RedeemTicket id => redeem_ticket id now d
  end.

Fixpoint run (trace : list (datetime * request)) (d : database) : database :=
  match trace with
  | [] => d
  | (now, r) :: rest => run rest (handle now r d).2
  end.

(** The databases the service can be in, starting from the empty one. *)
Inductive reachable : database → Prop :=
| reachable_empty : reachable empty_db
| reachable_step d now r : reachable d → reachable (handle now r d).2.

End Views.

(** *** The reading views *)

Record event_details := mkDetails {
  v_name : string;
  v_start_date : datetime;
  v_end_date : datetime;
  v_total_tickets : number;
  v_tickets_sold : Z;
  v_tickets_redeemed : Z
}.

(** What [get_event_details] returns: a text with its status, the details
    of the event, or the response of the step that left the view. *)
Inductive page :=
| Plain (status : Z) (text : string)
| DetailsPage (status : Z) (details : event_details)
| Left (r : response).

(** [Ticket.query.filter_by(event_id=eid, redeemed=True).count()] *)
Definition count_redeemed (eid : Z) (d : database) : Z :=
  Z.of_nat (size (filter (λ kt, event_id kt.2 = eid ∧ redeemed kt.2 = true)
                         (tickets d))).

(** [GET /events/<int:event_id>] *)
Definition get_event_details (event_id : Z) (d : database) : page :=
  match query_get (events d) event_id with
  | inl r => Left r
  | inr None => Plain 404 "Event not found"
  | inr (Some event) =>
      DetailsPage 200
        (mkDetails (name event) (start_date event) (end_date event)
           (total_tickets event) (tickets_sold event) (count_redeemed event_id d))
  end.

(** *** Invariants *)

(** The capacity is a finite number within 1..300, and the tickets sold
    are less than one above it. *)
Definition event_ok (ev : Event) : Prop :=
  0 ≤ tickets_sold ev
  ∧ (∃ q, total_tickets ev = Finite q
          ∧ (1 <= q)%Q ∧ (q <= 300)%Q
          ∧ (inject_Z (tickets_sold ev) < q + 1)%Q)
  ∧ date (start_date ev) ≤ date (end_date ev).

Definition consistent (d : database) : Prop :=
  (∀ id ev, events d !! id = Some ev → 1 ≤ id ∧ event_ok ev)
  ∧ (∀ tid t, tickets d !! tid = Some t →
              1 ≤ tid ∧ is_Some (events d !! event_id t)).

(** [tickets_sold] counts the tickets of the event. *)
Definition counted (d : database) : Prop :=
  ∀ id ev, events d !! id = Some ev →
           tickets_sold ev = Z.of_nat (size (tickets_of id (tickets d))).

(** The row a request looks up first is not in its table. *)
Definition row_missing (r : request) (d : database) : Prop :=
  match r with
  | CreateEvent _ => False
  | UpdateEvent id _ | DeleteEvent id | SellTicket id => events d !! id = None
  | RedeemTicket tid => tickets d !! tid = None
  end.

(** The key a request looks up can be bound. *)
Definition key_bound (r : request) : Prop :=
  match r with
  | CreateEvent _ => True
  | UpdateEvent id _ | DeleteEvent id | SellTicket id | RedeemTicket id =>
      sqlite_int id = true
  end.

(** The shapes the database can take after one request served at [now]:
    unchanged, or one of the five writes. *)
Inductive effect (now : datetime) (d : database) : request → database → Prop :=
| effect_none r :
    effect now d r d
| effect_create data ev :
    tickets_sold ev = 0 →
    (∃ q, total_tickets ev = Finite q ∧ (1 <= q)%Q ∧ (q <= 300)%Q) →
    date (start_date ev) ≤ date (end_date ev) →
    effect now d (CreateEvent data)
      (mkDb (<[next_id (events d) := ev]> (events d)) (tickets d))
| effect_update id data ev ev' :
    sqlite_int id = true → events d !! id = Some ev →
    tickets_sold ev' = tickets_sold ev →
    (∃ q, total_tickets ev' = Finite q ∧ (1 <= q)%Q ∧ (q <= 300)%Q
          ∧ (inject_Z (tickets_sold ev) <= q)%Q) →
    date (start_date ev') ≤ date (end_date ev') →
    effect now d (UpdateEvent id data)
      (mkDb (<[id := ev']> (events d)) (tickets d))
| effect_delete id ev :
    events d !! id = Some ev →
    effect now d (DeleteEvent id)
      (mkDb (delete id (events d)) (tickets_without id (tickets d)))
| effect_sell id ev :
    events d !! id = Some ev →
    le_int (total_tickets ev) (tickets_sold ev) = false →
    effect now d (SellTicket id)
      (mkDb (<[id := set_tickets_sold (tickets_sold ev + 1) ev]> (events d))
            (<[next_id (tickets d) := mkTicket id false now]> (tickets d)))
| effect_redeem tid t :
    tickets d !! tid = Some t → redeemed t = false →
    effect now d (RedeemTicket tid)
      (mkDb (events d) (<[tid := set_redeemed true t]> (tickets d))).


(** A request without a body. *)
Definition bodiless (r : request) : Prop :=
  match r with
  | CreateEvent _ | UpdateEvent _ _ => False
  | DeleteEvent _ | SellTicket _ | RedeemTicket _ => True
  end.

(** *** Sample requests: a capacity of two and a half *)

Definition concert_and_a_half : body :=
  mkBody (Val "Concert") (Val "19/10/2030") (Val "20/10/2030")
    (Val (Finite (5 # 2))).

Definition oversold_trace : list (datetime * request) :=
  [(now_2026, CreateEvent concert_and_a_half);
   (now_2026, SellTicket 1);
   (now_2026, SellTicket 1);
   (now_2026, SellTicket 1)].

Definition db_oversold : database := run strptime_dmy oversold_trace empty_db.

(** The row of the concert once three tickets are sold. *)
Definition oversold_event : Event :=
  mkEvent "Concert" (midnight 741369) (midnight 741370) (Finite (5 # 2)) 3.


End Wide.

(** ** From the integer views to the views on a number

    An event, a database, a body and a request of the integer views, read
    as those of [Wide]: the capacity becomes the number of the same
    value. *)

Definition widen_event (ev : Event) : Wide.Event :=
  Wide.mkEvent (name ev) (start_date ev) (end_date ev)
    (Wide.Finite (inject_Z (total_tickets ev))) (tickets_sold ev).

Definition widen_database (d : database) : Wide.database :=
  Wide.mkDb (widen_event <$> events d) (tickets d).

Definition widen_field (f : field Z) : field Wide.number :=
  match f with
  | Missing => Missing
  | Null => Null
  | Val z => Val (Wide.Finite (inject_Z z))
  end.

Definition widen_body (data : body) : Wide.body :=
  Wide.mkBody (b_name data) (b_start_date data) (b_end_date data)
    (widen_field (b_total_tickets data)).

Definition widen_request (r : request) : Wide.request :=
  match r with
  | CreateEvent data => Wide.CreateEvent (widen_body data)
  | UpdateEvent id data => Wide.UpdateEvent id (widen_body data)
  | DeleteEvent id => Wide.DeleteEvent id
  | SellTicket id => Wide.SellTicket id
  | RedeemTicket id => Wide.RedeemTicket id
  end.

(** ** Keys *)

Lemma foldr_max_bound (l : list Z) (k : Z) :
  k ∈ l → k ≤ foldr Z.max 0 l.
Proof.
  induction l as [|x l IH]; intros Hin.
  - by apply elem_of_nil in Hin.
  - apply elem_of_cons in Hin as [->|Hin]; simpl; [lia|].
    specialize (IH Hin). lia.
Qed.

Lemma next_id_above {V} (m : gmap Z V) (k : Z) (v : V) :
  m !! k = Some v → k < next_id m.
Proof.
  intros Hk. unfold next_id.
  assert (k ∈ (map_to_list m).*1) as Hin.
  { apply list_elem_of_fmap. exists (k, v). split; [done|].
    by apply elem_of_map_to_list. }
  apply foldr_max_bound in Hin. lia.
Qed.

Lemma next_id_fresh {V} (m : gmap Z V) : m !! next_id m = None.
Proof.
  destruct (m !! next_id m) as [v|] eqn:E; [|done].
  apply next_id_above in E. lia.
Qed.

Lemma next_id_positive {V} (m : gmap Z V) : 1 ≤ next_id m.
Proof.
  unfold next_id. generalize ((map_to_list m).*1). intros l.
  induction l; simpl; lia.
Qed.

Lemma tickets_without_lookup (eid k : Z) (ts : gmap Z Ticket) (t : Ticket) :
  tickets_without eid ts !! k = Some t ↔ ts !! k = Some t ∧ event_id t ≠ eid.
Proof. unfold tickets_without. by rewrite map_lookup_filter_Some. Qed.

(** ** The handlers as equations on the database *)

(** Comparisons computed by the views, read back as facts on integers. *)
Ltac reflect_Z :=
  repeat match goal with
         | H : (_ && _) = true |- _ => apply andb_prop in H as [? ?]
         | H : negb _ = false |- _ => apply negb_false_iff in H
         | H : negb _ = true |- _ => apply negb_true_iff in H
         | H : (_ <? _) = true |- _ => apply Z.ltb_lt in H
         | H : (_ <? _) = false |- _ => apply Z.ltb_ge in H
         | H : (_ <=? _) = true |- _ => apply Z.leb_le in H
         | H : (_ <=? _) = false |- _ => apply Z.leb_gt in H
         | H : (_ =? _) = true |- _ => apply Z.eqb_eq in H
         | H : (_ =? _) = false |- _ => apply Z.eqb_neq in H
         end.

Ltac unfold_view :=
  unfold handle, serve, route, create_event, update_event, delete_event,
    sell_ticket, redeem_ticket, Event_get_or_404, Ticket_get_or_404,
    Ticket_event, Event_assign, Ticket_assign, session_add_event,
    session_add_ticket, session_delete_event, commit, dict_item, jsonify_set,
    raise, respond, open_session, outcome_response, outcome_session,
    mbind, view_bind, mret, view_ret; simpl.

Lemma sell_ticket_eq (now : datetime) (id : Z) (d : database) :
  serve (sell_ticket id now) d =
  match events d !! id with
  | None => (Abort404, d)
  | Some ev =>
      if total_tickets ev <=? tickets_sold ev then (CapacityExceededError, d)
      else (sold_response id,
            mkDb (<[id := set_tickets_sold (tickets_sold ev + 1) ev]> (events d))
                 (<[next_id (tickets d) := mkTicket id false now]> (tickets d)))
  end.
Proof.
  unfold_view. destruct (events d !! id) as [ev|]; simpl; [|done].
  by destruct (total_tickets ev <=? tickets_sold ev).
Qed.

Lemma delete_event_eq (now : datetime) (id : Z) (d : database) :
  serve (delete_event id now) d =
  match events d !! id with
  | None => (Abort404, d)
  | Some ev =>
      if (0 <? tickets_sold ev) && dt_ltb now (end_date ev)
      then (CannotDeleteError, d)
      else (Message 200 "The event was deleted successfully.",
            mkDb (delete id (events d)) (tickets_without id (tickets d)))
  end.
Proof.
  unfold_view. destruct (events d !! id) as [ev|]; simpl; [|done].
  unfold dt_gtb. by destruct ((0 <? tickets_sold ev) && dt_ltb now (end_date ev)).
Qed.

Lemma redeem_ticket_eq (now : datetime) (id : Z) (d : database) :
  serve (redeem_ticket id now) d =
  match tickets d !! id with
  | None => (Abort404, d)
  | Some t =>
      if redeemed t then (AlreadyRedeemedError, d)
      else match events d !! event_id t with
           | None =>
               (Unhandled (AttributeError "'NoneType' object has no attribute 'start_date'"), d)
           | Some ev =>
               if (date (start_date ev) <=? date now) && (date now <=? date (end_date ev))
               then (Message 200 "Ticket redeemed successfully.",
                     mkDb (events d) (<[id := set_redeemed true t]> (tickets d)))
               else (OutOfWindowError, d)
           end
  end.
Proof.
  unfold_view. destruct (tickets d !! id) as [t|]; simpl; [|done].
  destruct (redeemed t); simpl; [done|].
  destruct (events d !! event_id t) as [ev|]; simpl; [|done].
  by destruct ((date (start_date ev) <=? date now) && (date now <=? date (end_date ev))).
Qed.

Section Equations.

Variable strptime : string → option datetime.

Ltac split_view :=
  repeat (simpl;
    match goal with
    | |- context [strptime ?s] => destruct (strptime s) eqn:?
    | |- context [if ?b then _ else _] => destruct b eqn:?
    end); simpl.

Lemma complete_gate (n s e : string) (t : Z) :
  complete n s e t →
  all [truthy_str (Some n); truthy_str (Some s); truthy_str (Some e);
       truthy_int (Some t)] = true.
Proof.
  intros (Hn & Hs & He & Ht).
  apply String.eqb_neq in Hn, Hs, He. apply Z.eqb_neq in Ht.
  unfold all; simpl. by rewrite Hn, Hs, He, Ht.
Qed.

Lemma gate_complete (n s e : string) (t : Z) :
  all [truthy_str (Some n); truthy_str (Some s); truthy_str (Some e);
       truthy_int (Some t)] = true →
  complete n s e t.
Proof.
  unfold all; simpl. intros H.
  repeat (apply andb_prop in H as [? H]).
  repeat match goal with
         | H : negb _ = true |- _ => apply negb_true_iff in H
         end.
  repeat split; first [by apply String.eqb_neq | by apply Z.eqb_neq].
Qed.

Lemma create_event_eq (now : datetime) (n s e : string) (t : Z)
    (sd ed : datetime) (d : database) :
  complete n s e t → strptime s = Some sd → strptime e = Some ed →
  serve (create_event strptime now (mkBody (Val n) (Val s) (Val e) (Val t))) d =
  if date sd <? date now
  then (Error 400 "Start date must not be in the past.", d)
  else if date ed <? date sd
  then (Error 400 "End date must not be before start date.", d)
  else if negb ((1 <=? t) && (t <=? 300))
  then (Error 400 "The number of total tickets must be between 1 and 300.", d)
  else (MessageId 200 "Event created successfully." "event_id" (next_id (events d)),
        mkDb (<[next_id (events d) := mkEvent n sd ed t 0]> (events d)) (tickets d)).
Proof.
  intros Hc Hs He. apply complete_gate in Hc.
  unfold serve, create_event, dict_item, dict_get. simpl b_name.
  unfold mbind, view_bind, mret, view_ret. cbn [b_start_date b_end_date b_total_tickets].
  rewrite Hc, Hs, He. cbn [negb].
  unfold_view. by split_view.
Qed.

(** Every path of [create_event] that does not report success answers
    before [db.session.add]; the path that does has read both dates and
    checked the three bounds. *)
Lemma create_event_inv (now : datetime) (data : body) (d : database) :
  (succeeded (serve (create_event strptime now data) d).1 = false
   ∧ (serve (create_event strptime now data) d).2 = d)
  ∨ (∃ n s e t sd ed,
       data = mkBody (Val n) (Val s) (Val e) (Val t)
       ∧ complete n s e t
       ∧ strptime s = Some sd ∧ strptime e = Some ed
       ∧ date now ≤ date sd ∧ date sd ≤ date ed ∧ 1 ≤ t ≤ 300
       ∧ serve (create_event strptime now data) d =
         (MessageId 200 "Event created successfully." "event_id" (next_id (events d)),
          mkDb (<[next_id (events d) := mkEvent n sd ed t 0]> (events d)) (tickets d))).
Proof.
  destruct data as [[| |n] [| |s] [| |e] [| |t]];
    try (left; unfold_view; split_view; done).
  destruct (all [truthy_str (Some n); truthy_str (Some s); truthy_str (Some e);
                 truthy_int (Some t)]) eqn:Hgate.
  2:{ left. unfold serve, create_event, dict_item, dict_get.
      unfold mbind, view_bind, mret, view_ret.
      cbn [b_name b_start_date b_end_date b_total_tickets].
      rewrite Hgate. done. }
  apply gate_complete in Hgate.
  destruct (strptime s) as [sd|] eqn:Hs.
  2:{ left. unfold_view. rewrite Hs. split_view; done. }
  destruct (strptime e) as [ed|] eqn:He.
  2:{ left. unfold_view. rewrite Hs, He. split_view; done. }
  rewrite (create_event_eq now n s e t sd ed d Hgate Hs He).
  destruct (date sd <? date now) eqn:H1; [by left|].
  destruct (date ed <? date sd) eqn:H2; [by left|].
  destruct (negb ((1 <=? t) && (t <=? 300))) eqn:H3; [by left|].
  right. exists n, s, e, t, sd, ed. reflect_Z.
  repeat split; try apply Hgate; try done; lia.
Qed.

Lemma update_event_eq (now : datetime) (id : Z) (ev : Event) (n s e : string)
    (t : Z) (sd ed : datetime) (d : database) :
  events d !! id = Some ev →
  complete n s e t → strptime s = Some sd → strptime e = Some ed →
  serve (update_event strptime id now (mkBody (Val n) (Val s) (Val e) (Val t))) d =
  if date sd <? date now
  then (Error 400 "The start date must not be in the past.", d)
  else if date ed <? date sd
  then (Error 400 "End date must not be before start date.", d)
  else if t <? tickets_sold ev
  then (Error 400 "You cannot reduce total tickets below tickets sold.", d)
  else if negb ((1 <=? t) && (t <=? 300))
  then (Error 400 "The total of tickets must be between 1 and 300.", d)
  else (Message 200 "Event updated successfully.",
        mkDb (<[id := mkEvent n sd ed t (tickets_sold ev)]> (events d)) (tickets d)).
Proof.
  intros Hev Hc Hs He. pose proof (complete_gate _ _ _ _ Hc) as Hgate.
  destruct Hc as (Hn & Hs' & He' & Ht).
  apply String.eqb_neq in Hn, Hs', He'.
  unfold serve, update_event, Event_get_or_404, dict_item, open_session.
  unfold mbind, view_bind, mret, view_ret.
  cbn [b_name b_start_date b_end_date b_total_tickets pending events].
  rewrite Hev, Hgate. cbn [negb]. unfold truthy_str.
  rewrite Hn, Hs', He', Hs, He. cbn [negb].
  unfold_view. split_view; try done.
  by rewrite !insert_insert_eq.
Qed.

Lemma update_event_inv (now : datetime) (id : Z) (data : body) (d : database) :
  (succeeded (serve (update_event strptime id now data) d).1 = false
   ∧ (serve (update_event strptime id now data) d).2 = d)
  ∨ (∃ ev n s e t sd ed,
       events d !! id = Some ev
       ∧ data = mkBody (Val n) (Val s) (Val e) (Val t)
       ∧ complete n s e t
       ∧ strptime s = Some sd ∧ strptime e = Some ed
       ∧ date now ≤ date sd ∧ date sd ≤ date ed
       ∧ tickets_sold ev ≤ t ∧ 1 ≤ t ≤ 300
       ∧ serve (update_event strptime id now data) d =
         (Message 200 "Event updated successfully.",
          mkDb (<[id := mkEvent n sd ed t (tickets_sold ev)]> (events d)) (tickets d))).
Proof.
  destruct (events d !! id) as [ev|] eqn:Hev.
  2:{ left. unfold_view. by rewrite Hev. }
  destruct data as [[| |n] [| |s] [| |e] [| |t]];
    try (left; unfold_view; rewrite Hev; split_view; done).
  destruct (all [truthy_str (Some n); truthy_str (Some s); truthy_str (Some e);
                 truthy_int (Some t)]) eqn:Hgate.
  2:{ left. unfold serve, update_event, Event_get_or_404, dict_item, open_session.
      unfold mbind, view_bind, mret, view_ret.
      cbn [b_name b_start_date b_end_date b_total_tickets pending events].
      rewrite Hev, Hgate. done. }
  apply gate_complete in Hgate.
  destruct (strptime s) as [sd|] eqn:Hs.
  2:{ left. unfold_view. rewrite Hev, Hs. split_view; done. }
  destruct (strptime e) as [ed|] eqn:He.
  2:{ left. unfold_view. rewrite Hev, Hs, He. split_view; done. }
  rewrite (update_event_eq now id ev n s e t sd ed d Hev Hgate Hs He).
  destruct (date sd <? date now) eqn:H1; [by left|].
  destruct (date ed <? date sd) eqn:H2; [by left|].
  destruct (t <? tickets_sold ev) eqn:H3; [by left|].
  destruct (negb ((1 <=? t) && (t <=? 300))) eqn:H4; [by left|].
  right. exists ev, n, s, e, t, sd, ed. reflect_Z.
  repeat split; try apply Hgate; try done; lia.
Qed.

End Equations.

(** ** The inventory invariant *)

Section Inventory.

Variable strptime : string → option datetime.

Lemma ValidationError_failed (r : response) :
  ValidationError r → succeeded r = false.
Proof. by intros [msg ->]. Qed.

(** A request that does not report success has not committed anything. *)
Lemma handle_failed_unchanged (now : datetime) (r : request) (d : database) :
  succeeded (handle strptime now r d).1 = false →
  (handle strptime now r d).2 = d.
Proof.
  destruct r as [data|id data|id|id|id]; unfold handle, route.
  - destruct (create_event_inv strptime now data d)
      as [[_ H]|(n & s & e & t & sd & ed & _ & _ & _ & _ & _ & _ & _ & H)];
      [done | by rewrite H].
  - destruct (update_event_inv strptime now id data d)
      as [[_ H]|(ev & n & s & e & t & sd & ed & _ & _ & _ & _ & _ & _ & _ & _ & _ & H)];
      [done | by rewrite H].
  - rewrite delete_event_eq. by repeat case_match.
  - rewrite sell_ticket_eq. by repeat case_match.
  - rewrite redeem_ticket_eq. by repeat case_match.
Qed.

Lemma reachable_run (trace : list (datetime * request)) (d : database) :
  reachable strptime d → reachable strptime (run strptime trace d).
Proof.
  revert d. induction trace as [|[now r] rest IH]; intros d Hd; simpl; [done|].
  apply IH. by constructor.
Qed.

Lemma handle_preserves_consistent (now : datetime) (r : request) (d : database) :
  consistent d → consistent (handle strptime now r d).2.
Proof.
  intros [Hev Hfk]. destruct r as [data|id data|id|id|id]; unfold handle, route.
  - destruct (create_event_inv strptime now data d)
      as [[_ ->]|(n & s & e & t & sd & ed & _ & _ & _ & _ & _ & Hle & Ht & ->)];
      [done|].
    split; simpl.
    + intros k ev. rewrite lookup_insert. case_decide; [|apply Hev].
      intros [= <-]. unfold event_ok; simpl. lia.
    + intros tid t' Ht'. rewrite lookup_insert. case_decide; [by eexists|].
      by eapply Hfk.
  - destruct (update_event_inv strptime now id data d)
      as [[_ ->]|(ev0 & n & s & e & t & sd & ed & Hev0 & _ & _ & _ & _ & _ & Hle
                  & Hs & Ht & ->)];
      [done|].
    split; simpl.
    + intros k ev. rewrite lookup_insert. case_decide; [|apply Hev].
      intros [= <-]. destruct (Hev _ _ Hev0) as ((H0 & _) & _ & _).
      unfold event_ok; simpl. lia.
    + intros tid t' Ht'. rewrite lookup_insert. case_decide; [by eexists|].
      by eapply Hfk.
  - rewrite delete_event_eq. repeat case_match; try done.
    split; simpl.
    + intros k ev. rewrite lookup_delete. case_decide; [done|]. apply Hev.
    + intros tid t. rewrite tickets_without_lookup. intros [Ht Hne].
      rewrite lookup_delete_ne by done. by eapply Hfk.
  - rewrite sell_ticket_eq.
    destruct (events d !! id) as [ev0|] eqn:Hev0; [|done].
    destruct (total_tickets ev0 <=? tickets_sold ev0) eqn:E; [done|].
    reflect_Z. split; simpl.
    + intros k ev. rewrite lookup_insert. case_decide; [|apply Hev].
      intros [= <-]. destruct (Hev _ _ Hev0) as ((H0 & _) & H1 & H2).
      unfold event_ok; simpl. lia.
    + intros tid t. rewrite lookup_insert. case_decide.
      * intros [= <-]. simpl. rewrite lookup_insert_eq. by eexists.
      * intros Ht. rewrite lookup_insert. case_decide; [by eexists|].
        by eapply Hfk.
  - rewrite redeem_ticket_eq.
    destruct (tickets d !! id) as [t0|] eqn:Ht0; [|done].
    repeat case_match; try done.
    split; simpl; [done|].
    intros tid t. rewrite lookup_insert. case_decide; [|by apply Hfk].
    intros [= <-]. simpl. by eapply Hfk.
Qed.

(** Every database the service can reach keeps the bounds of its events,
    and every ticket in it belongs to an event of the table. *)
Lemma reachable_consistent (d : database) :
  reachable strptime d → consistent d.
Proof.
  induction 1 as [|d now r _ IH].
  - split; intros k x; simpl; by rewrite lookup_empty.
  - by apply handle_preserves_consistent.
Qed.

Lemma update_check_fails_failed (now : datetime) (id : Z) (d : database)
    (ev : Event) (n s e : string) (t : Z) :
  events d !! id = Some ev →
  update_check_fails strptime now ev s e t →
  succeeded (serve (update_event strptime id now
                      (mkBody (Val n) (Val s) (Val e) (Val t))) d).1 = false.
Proof.
  intros Hev Hcheck.
  destruct (update_event_inv strptime now id
              (mkBody (Val n) (Val s) (Val e) (Val t)) d)
    as [[Hf _]|(ev0 & n0 & s0 & e0 & t0 & sd & ed & Hev0 & Hdata & _ & Hs & He
                & Hnow & Hle & Hsold & Hrange & _)];
    [done|].
  injection Hdata as <- <- <- <-.
  assert (ev0 = ev) as -> by congruence.
  destruct Hcheck as [H|[H|[(sd' & H & Hlt)|[(sd' & ed' & H1 & H2 & Hlt)|H]]]].
  - congruence.
  - congruence.
  - assert (sd' = sd) as -> by congruence. lia.
  - assert (sd' = sd) as -> by congruence.
    assert (ed' = ed) as -> by congruence. lia.
  - lia.
Qed.

(** C2. A request that fails, with a validation error or in any other
    way, leaves the database as it was.  So an [UpdateEvent] on an existing
    event that fails one of its field checks (a date that cannot be read, a
    start date in the past, an end date before the start date, a capacity
    below the tickets sold or outside 1..300) changes no field of the
    event. *)
Theorem failed_request_changes_nothing (now : datetime) (r : request)
    (d : database) :
  (ValidationError (handle strptime now r d).1
   ∨ succeeded (handle strptime now r d).1 = false →
   (handle strptime now r d).2 = d)
  ∧ (∀ id ev n s e t,
       r = UpdateEvent id (mkBody (Val n) (Val s) (Val e) (Val t)) →
       events d !! id = Some ev →
       update_check_fails strptime now ev s e t →
       succeeded (handle strptime now r d).1 = false
       ∧ (handle strptime now r d).2 = d
       ∧ events (handle strptime now r d).2 !! id = Some ev).
Proof.
  assert (succeeded (handle strptime now r d).1 = false →
          (handle strptime now r d).2 = d) as Hatomic
    by apply handle_failed_unchanged.
  split.
  - intros [Hv|Hf]; [|by apply Hatomic].
    by apply Hatomic, ValidationError_failed.
  - intros id ev n s e t -> Hev Hcheck.
    assert (succeeded (handle strptime now
              (UpdateEvent id (mkBody (Val n) (Val s) (Val e) (Val t))) d).1
            = false) as Hf
      by (by eapply update_check_fails_failed).
    split; [done|]. rewrite (Hatomic Hf). done.
Qed.

End Inventory.

(** ** Selling *)

Lemma grown_by_refl (eid : Z) (ts : gmap Z Ticket) : grown_by eid 0 ts ts.
Proof.
  split; [done|]. split; [lia|]. intros k t H1 H2. congruence.
Qed.

Lemma grown_by_insert (eid k : Z) (t : Ticket) (ts : gmap Z Ticket) :
  ts !! k = None → event_id t = eid → redeemed t = false →
  grown_by eid 1 ts (<[k := t]> ts).
Proof.
  intros Hk He Hr. split; [by apply insert_subseteq|]. split.
  - rewrite map_size_insert_None by done. lia.
  - intros j u. rewrite lookup_insert. case_decide; [|congruence].
    by intros [= <-].
Qed.

Lemma grown_by_trans (eid : Z) (n m : nat) (a b c : gmap Z Ticket) :
  grown_by eid n a b → grown_by eid m b c → grown_by eid (n + m) a c.
Proof.
  intros (Hab & Hsab & Hnab) (Hbc & Hsbc & Hnbc). split; [by etrans|].
  split; [lia|]. intros k t Hc Ha.
  destruct (b !! k) as [u|] eqn:Hb.
  - assert (c !! k = Some u) as Hcu by (by eapply lookup_weaken).
    assert (u = t) as -> by congruence. by apply (Hnab k).
  - by apply (Hnbc k).
Qed.

Lemma set_tickets_sold_twice (x y : Z) (ev : Event) :
  set_tickets_sold x (set_tickets_sold y ev) = set_tickets_sold x ev.
Proof. done. Qed.

Lemma set_tickets_sold_same (ev : Event) :
  set_tickets_sold (tickets_sold ev) ev = ev.
Proof. by destruct ev. Qed.

Lemma sell_many_cons (id : Z) (now : datetime) (rest : list datetime)
    (d : database) :
  sell_many id (now :: rest) d =
  (let (r, d') := serve (sell_ticket id now) d in
   let (rs, d'') := sell_many id rest d' in (r :: rs, d'')).
Proof. done. Qed.

(** While capacity remains, every call of a run of sales succeeds. *)
Lemma sell_many_within (id : Z) (times : list datetime) :
  ∀ (d : database) (ev : Event),
    events d !! id = Some ev →
    tickets_sold ev + Z.of_nat (length times) ≤ total_tickets ev →
    ∃ d',
      sell_many id times d = (replicate (length times) (sold_response id), d')
      ∧ events d' =
          <[id := set_tickets_sold (tickets_sold ev + Z.of_nat (length times)) ev]>
            (events d)
      ∧ grown_by id (length times) (tickets d) (tickets d').
Proof.
  induction times as [|now rest IH]; intros d ev Hev Hroom.
  - exists d. simpl. split; [done|]. split; [|apply grown_by_refl].
    rewrite Z.add_0_r, set_tickets_sold_same. by rewrite insert_id.
  - simpl length in *. rewrite sell_many_cons, sell_ticket_eq, Hev.
    destruct (total_tickets ev <=? tickets_sold ev) eqn:E; reflect_Z; [lia|].
    set (ev1 := set_tickets_sold (tickets_sold ev + 1) ev).
    set (d1 := mkDb (<[id := ev1]> (events d))
                    (<[next_id (tickets d) := mkTicket id false now]> (tickets d))).
    destruct (IH d1 ev1) as (d' & Hrun & Hevs & Hgrown).
    { simpl. apply lookup_insert_eq. }
    { simpl. lia. }
    exists d'. rewrite Hrun. split; [done|]. split.
    + rewrite Hevs. simpl. rewrite insert_insert_eq. f_equal.
      unfold ev1. rewrite set_tickets_sold_twice. simpl. f_equal. lia.
    + change (S (length rest)) with (1 + length rest)%nat.
      eapply grown_by_trans; [|exact Hgrown].
      apply grown_by_insert; [apply next_id_fresh|done|done].
Qed.

(** C3. A successful [SellTicket] answers with the identity of the event:
    the confirmation carries [event_id], while the one ticket it has
    created is stored under its own, fresh key. *)
Theorem sell_ticket_confirms_with_event_id (now : datetime) (id : Z)
    (d : database) (ev : Event) :
  events d !! id = Some ev → tickets_sold ev < total_tickets ev →
  (serve (sell_ticket id now) d).1
    = MessageId 201 "Ticket sold in a successfully way." "ticket_id" id
  ∧ tickets d !! next_id (tickets d) = None
  ∧ tickets (serve (sell_ticket id now) d).2 !! next_id (tickets d)
      = Some (mkTicket id false now)
  ∧ (∀ k, k ≠ next_id (tickets d) →
          tickets (serve (sell_ticket id now) d).2 !! k = tickets d !! k).
Proof.
  intros Hev Hroom. rewrite sell_ticket_eq, Hev.
  destruct (total_tickets ev <=? tickets_sold ev) eqn:E; reflect_Z; [lia|].
  simpl. split; [done|]. split; [apply next_id_fresh|]. split.
  - apply lookup_insert_eq.
  - intros k Hk. by apply lookup_insert_ne.
Qed.

Lemma sell_many_app (id : Z) (xs ys : list datetime) :
  ∀ d, sell_many id (xs ++ ys) d =
       (let (rs, d') := sell_many id xs d in
        let (rs', d'') := sell_many id ys d' in (rs ++ rs', d'')).
Proof.
  induction xs as [|x xs IH]; intros d.
  - simpl. by destruct (sell_many id ys d).
  - rewrite <- app_comm_cons, !sell_many_cons.
    destruct (serve (sell_ticket id x) d) as [r d1]. rewrite IH.
    destruct (sell_many id xs d1) as [rs d2].
    by destruct (sell_many id ys d2).
Qed.

(** What one call of [SellTicket] does to an existing event. *)
Lemma sell_ticket_once (now : datetime) (id : Z) (d : database) (ev : Event) :
  events d !! id = Some ev →
  ((serve (sell_ticket id now) d).1 = CapacityExceededError
   ↔ total_tickets ev ≤ tickets_sold ev)
  ∧ (total_tickets ev ≤ tickets_sold ev →
     serve (sell_ticket id now) d = (CapacityExceededError, d))
  ∧ (tickets_sold ev < total_tickets ev →
     (serve (sell_ticket id now) d).1 = sold_response id
     ∧ events (serve (sell_ticket id now) d).2
         = <[id := set_tickets_sold (tickets_sold ev + 1) ev]> (events d)
     ∧ grown_by id 1 (tickets d) (tickets (serve (sell_ticket id now) d).2)).
Proof.
  intros Hev. rewrite sell_ticket_eq, Hev.
  destruct (total_tickets ev <=? tickets_sold ev) eqn:E; reflect_Z; simpl.
  - split; [done|]. split; [done|]. lia.
  - split; [split; [done|lia]|]. split; [lia|]. intros _.
    split; [done|]. split; [done|].
    apply grown_by_insert; [apply next_id_fresh|done|done].
Qed.

(** C4. On an event created with capacity [N], [N] calls of [SellTicket]
    in a row all succeed, leaving [N] tickets sold and [N] new unredeemed
    tickets of the event, and the next call answers that no ticket is left
    and changes nothing.  On any existing event, the call is refused for
    capacity exactly when [tickets_sold >= total_tickets], and a call that
    succeeds adds one to [tickets_sold] and one unredeemed ticket of the
    event to the tickets. *)
Theorem sell_succeeds_exactly_capacity_times
    (strptime : string → option datetime) (now : datetime) (data : body)
    (d : database) (id N : Z) (times : list datetime) (extra : datetime) :
  (handle strptime now (CreateEvent data) d).1
    = MessageId 200 "Event created successfully." "event_id" id →
  b_total_tickets data = Val N →
  Z.of_nat (length times) = N →
  (∃ dN evN,
      sell_many id times (handle strptime now (CreateEvent data) d).2
        = (replicate (length times) (sold_response id), dN)
      ∧ events dN !! id = Some evN
      ∧ tickets_sold evN = N ∧ total_tickets evN = N
      ∧ grown_by id (length times)
          (tickets (handle strptime now (CreateEvent data) d).2) (tickets dN)
      ∧ serve (sell_ticket id extra) dN = (CapacityExceededError, dN)
      ∧ sell_many id (times ++ [extra]) (handle strptime now (CreateEvent data) d).2
        = (replicate (length times) (sold_response id) ++ [CapacityExceededError], dN))
  ∧ (∀ d' id' ev' now',
       events d' !! id' = Some ev' →
       ((serve (sell_ticket id' now') d').1 = CapacityExceededError
        ↔ total_tickets ev' ≤ tickets_sold ev')
       ∧ (total_tickets ev' ≤ tickets_sold ev' →
          serve (sell_ticket id' now') d' = (CapacityExceededError, d'))
       ∧ (tickets_sold ev' < total_tickets ev' →
          (serve (sell_ticket id' now') d').1 = sold_response id'
          ∧ events (serve (sell_ticket id' now') d').2
              = <[id' := set_tickets_sold (tickets_sold ev' + 1) ev']> (events d')
          ∧ grown_by id' 1 (tickets d') (tickets (serve (sell_ticket id' now') d').2))).
Proof.
  intros Hcreated Htotal Hlen. split; [|intros; by apply sell_ticket_once].
  unfold handle, route in *.
  destruct (create_event_inv strptime now data d)
    as [[Hf _]|(n & s & e & t & sd & ed & -> & _ & _ & _ & _ & _ & Ht & Heq)].
  { rewrite Hcreated in Hf. done. }
  rewrite Heq in *. simpl in Hcreated, Htotal.
  injection Hcreated as <-. injection Htotal as Htotal. subst t.
  set (d0 := mkDb _ _).
  destruct (sell_many_within (next_id (events d)) times d0 (mkEvent n sd ed N 0))
    as (dN & Hrun & Hevs & Hgrown).
  { apply lookup_insert_eq. }
  { simpl. lia. }
  assert (events dN !! next_id (events d)
          = Some (mkEvent n sd ed N N)) as HevN.
  { rewrite Hevs, lookup_insert_eq. unfold set_tickets_sold; simpl.
    do 2 f_equal. lia. }
  assert (serve (sell_ticket (next_id (events d)) extra) dN
          = (CapacityExceededError, dN)) as Hlast.
  { rewrite sell_ticket_eq, HevN. simpl. by rewrite Z.leb_refl. }
  exists dN, (mkEvent n sd ed N N). simpl.
  repeat (split; [done|]).
  by rewrite sell_many_app, Hrun, sell_many_cons, Hlast.
Qed.

(** ** Updating *)

Section Update.

Variable strptime : string → option datetime.

Ltac split_view :=
  repeat (simpl;
    match goal with
    | |- context [strptime ?s] => destruct (strptime s) eqn:?
    | |- context [if ?b then _ else _] => destruct b eqn:?
    end); simpl.

(** The event object in the session when [update_event] returns: the
    assignments made before the check that stopped the view are there, in
    the order name, start date, end date, capacity. *)
Lemma update_event_session (now : datetime) (id : Z) (ev : Event)
    (n s e : string) (t : Z) (sd ed : datetime) (d : database) :
  events d !! id = Some ev →
  complete n s e t → strptime s = Some sd → strptime e = Some ed →
  events (pending (outcome_session
    (update_event strptime id now (mkBody (Val n) (Val s) (Val e) (Val t))
       (open_session d)))) !! id =
  Some (if date sd <? date now then set_name n ev
        else if date ed <? date sd then set_start_date sd (set_name n ev)
        else if (t <? tickets_sold ev) || negb ((1 <=? t) && (t <=? 300))
        then set_end_date ed (set_start_date sd (set_name n ev))
        else set_total_tickets t
               (set_end_date ed (set_start_date sd (set_name n ev)))).
Proof.
  intros Hev Hc Hs He. pose proof (complete_gate _ _ _ _ Hc) as Hgate.
  destruct Hc as (Hn & Hs' & He' & Ht).
  apply String.eqb_neq in Hn, Hs', He'.
  unfold update_event, Event_get_or_404, dict_item, open_session.
  unfold mbind, view_bind, mret, view_ret.
  cbn [b_name b_start_date b_end_date b_total_tickets pending events].
  rewrite Hev, Hgate. cbn [negb]. unfold truthy_str.
  rewrite Hn, Hs', He', Hs, He. cbn [negb].
  unfold_view. split_view; rewrite ?lookup_insert_eq; try done.
Qed.

(** C5. [UpdateEvent] checks the new end date against the start date it
    has just stored: when both dates of the request can be read, the call
    succeeds only if the new end date is not before the new start date,
    whatever the start date of the event was before the call.  The fields
    are handled in the order name, start date, end date, capacity: the
    first failing check in that order decides the answer, and the session
    holds the assignments made up to it. *)
Theorem update_checks_end_against_new_start (now : datetime) (id : Z)
    (data : body) (d : database) (ev : Event) (s e : string)
    (sd ed : datetime) :
  events d !! id = Some ev →
  b_start_date data = Val s → b_end_date data = Val e →
  strptime s = Some sd → strptime e = Some ed →
  ((serve (update_event strptime id now data) d).1
     = Message 200 "Event updated successfully." →
   date sd ≤ date ed
   ∧ ∃ ev', events (serve (update_event strptime id now data) d).2 !! id = Some ev'
            ∧ start_date ev' = sd ∧ end_date ev' = ed)
  ∧ (∀ n t,
       data = mkBody (Val n) (Val s) (Val e) (Val t) → complete n s e t →
       serve (update_event strptime id now data) d =
         (if date sd <? date now
          then (Error 400 "The start date must not be in the past.", d)
          else if date ed <? date sd
          then (Error 400 "End date must not be before start date.", d)
          else if t <? tickets_sold ev
          then (Error 400 "You cannot reduce total tickets below tickets sold.", d)
          else if negb ((1 <=? t) && (t <=? 300))
          then (Error 400 "The total of tickets must be between 1 and 300.", d)
          else (Message 200 "Event updated successfully.",
                mkDb (<[id := mkEvent n sd ed t (tickets_sold ev)]> (events d))
                     (tickets d)))
       ∧ events (pending (outcome_session
           (update_event strptime id now data (open_session d)))) !! id =
         Some (if date sd <? date now then set_name n ev
               else if date ed <? date sd then set_start_date sd (set_name n ev)
               else if (t <? tickets_sold ev) || negb ((1 <=? t) && (t <=? 300))
               then set_end_date ed (set_start_date sd (set_name n ev))
               else set_total_tickets t
                      (set_end_date ed (set_start_date sd (set_name n ev))))).
Proof.
  intros Hev Hbs Hbe Hs He. split.
  - intros Hok.
    destruct (update_event_inv strptime now id data d)
      as [[Hf _]|(ev0 & n & s0 & e0 & t & sd0 & ed0 & Hev0 & -> & _ & Hs0 & He0
                  & _ & Hle & _ & _ & Heq)].
    { rewrite Hok in Hf. done. }
    simpl in Hbs, Hbe. injection Hbs as ->. injection Hbe as ->.
    assert (sd0 = sd) as -> by congruence.
    assert (ed0 = ed) as -> by congruence.
    split; [done|]. rewrite Heq. simpl. eexists.
    rewrite lookup_insert_eq. done.
  - intros n t -> Hc. split.
    + by apply update_event_eq.
    + by apply update_event_session.
Qed.

End Update.

(** ** Redeeming *)

(** [RedeemTicket] on an unredeemed ticket whose event is [ev]. *)
Lemma redeem_ticket_window (now : datetime) (tid : Z) (d : database)
    (t : Ticket) (ev : Event) :
  tickets d !! tid = Some t → redeemed t = false →
  events d !! event_id t = Some ev →
  ((serve (redeem_ticket tid now) d).1 = Message 200 "Ticket redeemed successfully."
   ↔ in_window now ev)
  ∧ (in_window now ev →
     (serve (redeem_ticket tid now) d).2
       = mkDb (events d) (<[tid := set_redeemed true t]> (tickets d)))
  ∧ (date now < date (start_date ev) ∨ date (end_date ev) < date now →
     serve (redeem_ticket tid now) d = (OutOfWindowError, d))
  ∧ (∀ now', date now' = date now →
     (serve (redeem_ticket tid now') d).1 = (serve (redeem_ticket tid now) d).1).
Proof.
  intros Ht Hr Hev. unfold in_window.
  assert (∀ clock, serve (redeem_ticket tid clock) d =
            if (date (start_date ev) <=? date clock) && (date clock <=? date (end_date ev))
            then (Message 200 "Ticket redeemed successfully.",
                  mkDb (events d) (<[tid := set_redeemed true t]> (tickets d)))
            else (OutOfWindowError, d)) as Heq.
  { intros clock. by rewrite redeem_ticket_eq, Ht, Hr, Hev. }
  rewrite Heq.
  destruct ((date (start_date ev) <=? date now) && (date now <=? date (end_date ev)))
    eqn:E; cbn [fst snd].
  - reflect_Z. split; [split; [lia|done]|]. split; [done|]. split; [lia|].
    intros now' Hsame. rewrite Heq, Hsame, andb_true_intro; [done|].
    split; [by apply Z.leb_le | by apply Z.leb_le].
  - assert (date now < date (start_date ev) ∨ date (end_date ev) < date now) as Hout.
    { apply andb_false_iff in E as [E|E]; reflect_Z; lia. }
    split; [split; [done|lia]|]. split; [lia|]. split; [done|].
    intros now' Hsame. rewrite Heq, Hsame, E. done.
Qed.

Section Window.

Variable strptime : string → option datetime.

(** C6. In a database the service can reach, an unredeemed ticket has an
    event, and it is redeemed exactly when the date of the clock lies
    between the start date and the end date of that event, both included;
    the time of day plays no part.  On the start date and on the end date
    the call succeeds; before the start date and after the end date it
    answers that the ticket is outside the window and changes nothing. *)
Theorem redeem_succeeds_exactly_in_window (now : datetime) (tid : Z)
    (d : database) (t : Ticket) :
  reachable strptime d →
  tickets d !! tid = Some t → redeemed t = false →
  ∃ ev,
    events d !! event_id t = Some ev
    ∧ ((serve (redeem_ticket tid now) d).1 = Message 200 "Ticket redeemed successfully."
       ↔ in_window now ev)
    ∧ (in_window now ev →
       (serve (redeem_ticket tid now) d).2
         = mkDb (events d) (<[tid := set_redeemed true t]> (tickets d)))
    ∧ (date now < date (start_date ev) ∨ date (end_date ev) < date now →
       serve (redeem_ticket tid now) d = (OutOfWindowError, d))
    ∧ (date now = date (start_date ev) ∨ date now = date (end_date ev) →
       (serve (redeem_ticket tid now) d).1 = Message 200 "Ticket redeemed successfully.")
    ∧ (∀ now', date now' = date now →
       (serve (redeem_ticket tid now') d).1 = (serve (redeem_ticket tid now) d).1).
Proof.
  intros Hreach Ht Hr.
  destruct (reachable_consistent strptime d Hreach) as [Hok Hfk].
  destruct (Hfk tid t Ht) as [ev Hev]. exists ev.
  destruct (Hok _ _ Hev) as (_ & _ & Horder).
  destruct (redeem_ticket_window now tid d t ev Ht Hr Hev)
    as (Hiff & Hdone & Hout & Hday).
  repeat (split; [done|]). split; [|done].
  intros Hedge. apply Hiff. unfold in_window. lia.
Qed.

End Window.

Section OneWay.

Variable strptime : string → option datetime.

(** A request leaves a redeemed ticket as it is, or deletes it. *)
Lemma handle_keeps_redeemed (now : datetime) (r : request) (d : database)
    (tid : Z) (t : Ticket) :
  tickets d !! tid = Some t → redeemed t = true →
  ∀ t', tickets (handle strptime now r d).2 !! tid = Some t' → t' = t.
Proof.
  intros Ht Hr t'. destruct r as [data|id data|id|id|id]; unfold handle, route.
  - destruct (create_event_inv strptime now data d)
      as [[_ ->]|(n & s & e & t0 & sd & ed & _ & _ & _ & _ & _ & _ & _ & ->)];
      simpl; congruence.
  - destruct (update_event_inv strptime now id data d)
      as [[_ ->]|(ev & n & s & e & t0 & sd & ed & _ & _ & _ & _ & _ & _ & _ & _ & _ & ->)];
      simpl; congruence.
  - rewrite delete_event_eq. repeat case_match; simpl; try congruence.
    rewrite tickets_without_lookup. intros [? _]. congruence.
  - rewrite sell_ticket_eq. repeat case_match; simpl; try congruence.
    rewrite lookup_insert_ne; [congruence|].
    intros Heq. pose proof (next_id_fresh (tickets d)) as Hfresh.
    rewrite Heq in Hfresh. congruence.
  - rewrite redeem_ticket_eq.
    destruct (tickets d !! id) as [u|] eqn:Hu; simpl; [|congruence].
    destruct (redeemed u) eqn:Hru; simpl; [congruence|].
    repeat case_match; simpl; try congruence.
    rewrite lookup_insert_ne; [congruence|]. intros ->. congruence.
Qed.

(** C7. Redemption goes one way and is not idempotent.  Once a ticket is
    redeemed, a request leaves it redeemed (or deletes it with its
    event), along any sequence of requests the ticket stays redeemed for as
    long as it exists, and redeeming it again answers that the ticket has
    already been redeemed and changes nothing. *)
Theorem redeemed_never_reverts (d : database) (tid : Z) (t : Ticket) :
  tickets d !! tid = Some t → redeemed t = true →
  (∀ now r t',
     tickets (handle strptime now r d).2 !! tid = Some t' → redeemed t' = true)
  ∧ (∀ trace,
       tickets (run strptime trace d) !! tid = Some t
       ∨ ∃ before after, trace = before ++ after
                         ∧ tickets (run strptime before d) !! tid = None)
  ∧ (∀ again,
       handle strptime again (RedeemTicket tid) d = (AlreadyRedeemedError, d)
       ∧ ∃ t', tickets (handle strptime again (RedeemTicket tid) d).2 !! tid = Some t'
               ∧ redeemed t' = true).
Proof.
  intros Ht Hr. split; [|split].
  - intros now r t' Ht'.
    by rewrite (handle_keeps_redeemed now r d tid t Ht Hr t' Ht').
  - intros trace. revert d Ht.
    induction trace as [|[now r] rest IH]; intros d Ht; simpl; [by left|].
    destruct (tickets (handle strptime now r d).2 !! tid) as [t'|] eqn:Hstep.
    + pose proof (handle_keeps_redeemed now r d tid t Ht Hr t' Hstep) as ->.
      destruct (IH _ Hstep) as [Hend|(before & after & -> & Hgone)]; [by left|].
      right. by exists ((now, r) :: before), after.
    + right. by exists [(now, r)], rest.
  - intros again. unfold handle, route.
    rewrite redeem_ticket_eq, Ht, Hr. simpl. split; [done|]. by exists t.
Qed.

End OneWay.

(** ** Deleting *)

(** C8. [DeleteEvent] on an existing event is refused exactly when the
    event has sold tickets and its end date is later than the clock; the
    refusal changes nothing.  Otherwise the event leaves the table together
    with its tickets: no remaining ticket refers to it, and the tickets of
    the other events stay. *)
Theorem delete_event_rule (now : datetime) (id : Z) (d : database) (ev : Event) :
  events d !! id = Some ev →
  (ValidationError (serve (delete_event id now) d).1
   ↔ 0 < tickets_sold ev ∧ dt_gtb (end_date ev) now = true)
  ∧ (0 < tickets_sold ev ∧ dt_gtb (end_date ev) now = true →
     serve (delete_event id now) d = (CannotDeleteError, d))
  ∧ (tickets_sold ev ≤ 0 ∨ dt_gtb (end_date ev) now = false →
     (serve (delete_event id now) d).1
       = Message 200 "The event was deleted successfully."
     ∧ events (serve (delete_event id now) d).2 = delete id (events d)
     ∧ events (serve (delete_event id now) d).2 !! id = None
     ∧ (∀ k t, tickets (serve (delete_event id now) d).2 !! k = Some t →
               event_id t ≠ id)
     ∧ (∀ k t, tickets (serve (delete_event id now) d).2 !! k = Some t
               ↔ tickets d !! k = Some t ∧ event_id t ≠ id)).
Proof.
  intros Hev. rewrite delete_event_eq, Hev. unfold dt_gtb.
  destruct (0 <? tickets_sold ev) eqn:Hsold;
    destruct (dt_ltb now (end_date ev)) eqn:Hend; simpl; reflect_Z.
  - split; [split; [done|by eexists]|]. split; [done|].
    intros [?|?]; [lia|done].
  - split; [split; [by intros [msg [=]]|by intros [_ [=]]]|].
    split; [by intros [_ [=]]|]. intros _.
    split; [done|]. split; [done|]. split; [apply lookup_delete_eq|].
    split; intros k t; rewrite tickets_without_lookup; tauto.
  - split; [split; [by intros [msg [=]]|intros [? _]; lia]|].
    split; [intros [? _]; lia|]. intros _.
    split; [done|]. split; [done|]. split; [apply lookup_delete_eq|].
    split; intros k t; rewrite tickets_without_lookup; tauto.
  - split; [split; [by intros [msg [=]]|intros [? _]; lia]|].
    split; [intros [? _]; lia|]. intros _.
    split; [done|]. split; [done|]. split; [apply lookup_delete_eq|].
    split; intros k t; rewrite tickets_without_lookup; tauto.
Qed.

(** ** Selling outside the window *)

(** What [RedeemTicket] answers for a stored ticket whose event is stored,
    in any database. *)
Lemma redeem_ticket_decided (later : datetime) (tid : Z) (d : database)
    (t : Ticket) (ev : Event) :
  tickets d !! tid = Some t → events d !! event_id t = Some ev →
  (date (end_date ev) < date later →
   succeeded (serve (redeem_ticket tid later) d).1 = false
   ∧ (serve (redeem_ticket tid later) d).2 = d
   ∧ (redeemed t = false →
      (serve (redeem_ticket tid later) d).1 = OutOfWindowError))
  ∧ (redeemed t = false →
     ((serve (redeem_ticket tid later) d).1 = Message 200 "Ticket redeemed successfully."
      ↔ in_window later ev)).
Proof.
  intros Ht Hev. rewrite redeem_ticket_eq, Ht. unfold in_window.
  destruct (redeemed t) eqn:Hr; simpl.
  - split; [done|]. done.
  - rewrite Hev.
    destruct ((date (start_date ev) <=? date later)
              && (date later <=? date (end_date ev))) eqn:W; simpl.
    + reflect_Z. split; [lia|]. intros _. split; [lia|done].
    + split; [done|]. intros _. split; [done|].
      intros Hin. apply andb_false_iff in W as [W|W]; reflect_Z; lia.
Qed.

(** C10, as amended. [SellTicket] never looks at the dates of the event:
    with capacity left the sale succeeds whatever the clock reads, also
    after the end date.  Whatever requests follow the sale, the ticket sold
    is refused at redemption whenever its event has an end date before the
    date of the clock, and while unredeemed it is redeemed exactly when the
    date of the clock lies in the window of its event; so an [UpdateEvent]
    that succeeds makes it redeemable exactly on the dates of the new
    window. *)
Theorem sell_ticket_ignores_window (strptime : string → option datetime)
    (now : datetime) (id : Z) (d : database) (ev : Event) :
  events d !! id = Some ev → tickets_sold ev < total_tickets ev →
  (serve (sell_ticket id now) d).1 = sold_response id
  ∧ tickets (serve (sell_ticket id now) d).2 !! next_id (tickets d)
      = Some (mkTicket id false now)
  ∧ (∀ later, date (end_date ev) < date later →
       serve (redeem_ticket (next_id (tickets d)) later)
             (serve (sell_ticket id now) d).2
       = (OutOfWindowError, (serve (sell_ticket id now) d).2))
  ∧ (date (end_date ev) < date now →
     ∀ later, date now ≤ date later →
       serve (redeem_ticket (next_id (tickets d)) later)
             (serve (sell_ticket id now) d).2
       = (OutOfWindowError, (serve (sell_ticket id now) d).2))
  ∧ (∀ trace later t' ev',
       tickets (run strptime trace (serve (sell_ticket id now) d).2)
         !! next_id (tickets d) = Some t' →
       events (run strptime trace (serve (sell_ticket id now) d).2)
         !! event_id t' = Some ev' →
       (date (end_date ev') < date later →
        succeeded (serve (redeem_ticket (next_id (tickets d)) later)
                     (run strptime trace (serve (sell_ticket id now) d).2)).1
        = false
        ∧ (serve (redeem_ticket (next_id (tickets d)) later)
             (run strptime trace (serve (sell_ticket id now) d).2)).2
          = run strptime trace (serve (sell_ticket id now) d).2
        ∧ (redeemed t' = false →
           (serve (redeem_ticket (next_id (tickets d)) later)
              (run strptime trace (serve (sell_ticket id now) d).2)).1
           = OutOfWindowError))
       ∧ (redeemed t' = false →
          ((serve (redeem_ticket (next_id (tickets d)) later)
              (run strptime trace (serve (sell_ticket id now) d).2)).1
           = Message 200 "Ticket redeemed successfully."
           ↔ in_window later ev')))
  ∧ (∀ data updated later s e sd ed,
       b_start_date data = Val s → b_end_date data = Val e →
       strptime s = Some sd → strptime e = Some ed →
       (serve (update_event strptime id updated data)
          (serve (sell_ticket id now) d).2).1
       = Message 200 "Event updated successfully." →
       ((serve (redeem_ticket (next_id (tickets d)) later)
           (serve (update_event strptime id updated data)
              (serve (sell_ticket id now) d).2).2).1
        = Message 200 "Ticket redeemed successfully."
        ↔ date sd ≤ date later ≤ date ed)).
Proof.
  intros Hev Hroom. rewrite sell_ticket_eq, Hev.
  destruct (total_tickets ev <=? tickets_sold ev) eqn:E; reflect_Z; [lia|].
  cbn [fst snd].
  set (d1 := mkDb (<[id := set_tickets_sold (tickets_sold ev + 1) ev]> (events d))
                  (<[next_id (tickets d) := mkTicket id false now]> (tickets d))).
  assert (tickets d1 !! next_id (tickets d) = Some (mkTicket id false now))
    as Hticket by apply lookup_insert_eq.
  assert (events d1 !! id = Some (set_tickets_sold (tickets_sold ev + 1) ev))
    as Hevent by apply lookup_insert_eq.
  assert (∀ later, date (end_date ev) < date later →
            serve (redeem_ticket (next_id (tickets d)) later) d1
            = (OutOfWindowError, d1)) as Hlate.
  { intros later Hlater.
    destruct (redeem_ticket_decided later _ d1 _ _ Hticket Hevent)
      as [Hpast _].
    destruct (Hpast Hlater) as (_ & Hsame & Hout).
    rewrite (surjective_pairing (serve _ d1)). by rewrite Hsame, Hout. }
  split; [done|]. split; [exact Hticket|]. split; [exact Hlate|].
  split; [intros Hpast later Hlater; apply Hlate; lia|]. split.
  - intros trace later t' ev' Ht' Hev'.
    by apply redeem_ticket_decided.
  - intros data updated later s e sd ed Hbs Hbe Hs He Hok.
    destruct (update_event_inv strptime updated id data d1)
      as [[Hf _]|(ev0 & n & s0 & e0 & t & sd0 & ed0 & Hev0 & -> & _ & Hs0 & He0
                  & _ & _ & _ & _ & Heq)].
    { rewrite Hok in Hf. done. }
    simpl in Hbs, Hbe. injection Hbs as ->. injection Hbe as ->.
    assert (sd0 = sd) as -> by congruence.
    assert (ed0 = ed) as -> by congruence.
    rewrite Heq. cbn [fst snd].
    set (d2 := mkDb _ _).
    assert (tickets d2 !! next_id (tickets d) = Some (mkTicket id false now))
      as Hticket2 by exact Hticket.
    assert (events d2 !! event_id (mkTicket id false now)
            = Some (mkEvent n sd ed t (tickets_sold ev0))) as Hevent2
      by apply lookup_insert_eq.
    destruct (redeem_ticket_decided later _ d2 _ _ Hticket2 Hevent2)
      as [_ Hiff].
    by apply Hiff.
Qed.

(** C10, as stated, fails on the last clause: a ticket sold after the end
    date is redeemed once [UpdateEvent] has moved the event to later
    dates. *)
Lemma sold_after_end_redeemed_after_update :
  events db_one_sold !! 1 = Some (concert_event 1)
  ∧ date (end_date (concert_event 1)) < date after_concert
  ∧ handle strptime_dmy after_concert (SellTicket 1) db_one_sold
    = (sold_response 1, db_sold_late)
  ∧ tickets db_sold_late !! 2 = Some (mkTicket 1 false after_concert)
  ∧ ¬ never_redeemable strptime_dmy db_sold_late 2.
Proof.
  split; [by vm_compute|]. split; [simpl; lia|]. split; [by vm_compute|].
  split; [by vm_compute|]. intros Hnever.
  apply (Hnever [(after_concert, UpdateEvent 1 concert_postponed)] after_concert).
  by vm_compute.
Qed.

(** ** Creating *)

Section Create.

Variable strptime : string → option datetime.

(** An event that [CreateEvent] stores is new, has sold nothing, has a
    capacity within 1..300, does not end before it starts and does not
    start before the day of the request. *)
Lemma create_event_accepted_bounds (now : datetime) (data : body)
    (d : database) (id : Z) :
  (serve (create_event strptime now data) d).1
    = MessageId 200 "Event created successfully." "event_id" id →
  events d !! id = None
  ∧ ∃ ev, events (serve (create_event strptime now data) d).2 !! id = Some ev
          ∧ tickets_sold ev = 0
          ∧ 1 ≤ total_tickets ev ≤ 300
          ∧ date (start_date ev) ≤ date (end_date ev)
          ∧ date now ≤ date (start_date ev).
Proof.
  intros Hok.
  destruct (create_event_inv strptime now data d)
    as [[Hf _]|(n & s & e & t & sd & ed & _ & _ & _ & _ & Hnow & Hle & Ht & Heq)].
  { rewrite Hok in Hf. done. }
  rewrite Heq in *. simpl in Hok. injection Hok as <-.
  split; [apply next_id_fresh|]. eexists. simpl.
  rewrite lookup_insert_eq. done.
Qed.

(** With both dates readable, a body outside the bounds is answered with a
    validation error and nothing is stored. *)
Lemma create_event_rejects_out_of_bounds (now : datetime) (n s e : string)
    (t : Z) (sd ed : datetime) (d : database) :
  strptime s = Some sd → strptime e = Some ed →
  date sd < date now ∨ date ed < date sd ∨ t < 1 ∨ 300 < t →
  ValidationError
    (serve (create_event strptime now (mkBody (Val n) (Val s) (Val e) (Val t))) d).1
  ∧ (serve (create_event strptime now (mkBody (Val n) (Val s) (Val e) (Val t))) d).2 = d.
Proof.
  intros Hs He Hbad.
  destruct (all [truthy_str (Some n); truthy_str (Some s); truthy_str (Some e);
                 truthy_int (Some t)]) eqn:Hgate.
  2:{ unfold serve, create_event, dict_item, dict_get.
      unfold mbind, view_bind, mret, view_ret.
      cbn [b_name b_start_date b_end_date b_total_tickets].
      rewrite Hgate. simpl. split; [by eexists|done]. }
  apply gate_complete in Hgate.
  rewrite (create_event_eq strptime now n s e t sd ed d Hgate Hs He).
  destruct (date sd <? date now) eqn:H1; [split; [by eexists|done]|].
  destruct (date ed <? date sd) eqn:H2; [split; [by eexists|done]|].
  destruct (negb ((1 <=? t) && (t <=? 300))) eqn:H3; [split; [by eexists|done]|].
  reflect_Z. lia.
Qed.

(** A capacity of 0 does not pass the required-field gate. *)
Lemma create_event_zero_total (now : datetime) (n : field string)
    (s e : string) (d : database) :
  serve (create_event strptime now (mkBody n (Val s) (Val e) (Val 0))) d
  = (Error 400 "Missing requeired fieds.", d).
Proof.
  unfold serve, create_event, dict_item, dict_get.
  unfold mbind, view_bind, mret, view_ret.
  cbn [b_name b_start_date b_end_date b_total_tickets].
  replace (all _) with false; [done|].
  unfold all; simpl. by rewrite !andb_false_r.
Qed.

(** A date that cannot be read takes the [except] branch, whose [jsonify]
    raises: the request ends in an unhandled exception, whatever the
    capacity. *)
Lemma create_event_unreadable (now : datetime) (n s e : string) (t : Z)
    (d : database) :
  complete n s e t → strptime s = None ∨ strptime e = None →
  serve (create_event strptime now (mkBody (Val n) (Val s) (Val e) (Val t))) d
  = (Unhandled (TypeError "Object of type set is not JSON serializable"), d).
Proof.
  intros Hc Hbad. apply complete_gate in Hc.
  unfold serve, create_event, dict_item, dict_get.
  unfold mbind, view_bind, mret, view_ret.
  cbn [b_name b_start_date b_end_date b_total_tickets].
  rewrite Hc. cbn [negb].
  destruct Hbad as [H|H]; rewrite H; [done|].
  by destruct (strptime s).
Qed.

End Create.

(** C9. On a body whose capacity, 500, is above the limit and whose start
    date cannot be read, [CreateEvent] stores nothing, but its answer is not
    a validation error: the [except] branch raises while it builds the
    response, and the request ends in an unhandled exception. *)
Theorem create_event_unreadable_date_is_unhandled :
  b_total_tickets unreadable_oversized = Val 500
  ∧ strptime_dmy "19-10-2030" = None
  ∧ handle strptime_dmy now_2026 (CreateEvent unreadable_oversized) empty_db
    = (Unhandled (TypeError "Object of type set is not JSON serializable"),
       empty_db)
  ∧ ¬ ValidationError
        (handle strptime_dmy now_2026 (CreateEvent unreadable_oversized) empty_db).1.
Proof.
  split; [done|]. split; [by vm_compute|]. split; [by vm_compute|].
  intros [msg H]. vm_compute in H. discriminate H.
Qed.

(** ** The sample requests *)

Example ordinals_of_sample_days :
  ymd2ord 2026 11 3 = 739923
  ∧ ymd2ord 2030 10 19 = 741369
  ∧ ymd2ord 2030 10 30 = 741380
  ∧ strptime_dmy "19/10/2030" = Some (midnight 741369)
  ∧ strptime_dmy "20/10/2030" = Some (midnight 741370).
Proof. by vm_compute. Qed.

(** The example of the documentation: the concert is created, two sales
    succeed, the third is refused. *)
Example concert_sells_out :
  handle strptime_dmy now_2026 (CreateEvent concert) empty_db
    = (MessageId 200 "Event created successfully." "event_id" 1, db_concert)
  ∧ events db_concert !! 1 = Some (concert_event 0)
  ∧ sell_many 1 [now_2026; now_2026; now_2026] db_concert
    = ([sold_response 1; sold_response 1; CapacityExceededError], db_sold_out)
  ∧ events db_sold_out !! 1 = Some (concert_event 2)
  ∧ tickets db_sold_out !! 1 = Some (mkTicket 1 false now_2026)
  ∧ tickets db_sold_out !! 2 = Some (mkTicket 1 false now_2026)
  ∧ size (tickets db_sold_out) = 2%nat.
Proof. by vm_compute. Qed.

(** The second ticket of the concert is stored under key 2; its sale was
    confirmed with 1, the key of the event. *)
Example second_sale_confirmed_with_event_key :
  (handle strptime_dmy now_2026 (SellTicket 1) db_one_sold).1
    = MessageId 201 "Ticket sold in a successfully way." "ticket_id" 1
  ∧ next_id (tickets db_one_sold) = 2
  ∧ tickets db_one_sold !! 2 = None
  ∧ tickets db_sold_out !! 2 = Some (mkTicket 1 false now_2026).
Proof. by vm_compute. Qed.

(** [update_event] assigns as it goes: when the start date is refused, the
    event object of the session already carries the new name.  The
    database does not, since the view returns without a commit. *)
Example update_event_assigns_before_it_validates :
  let o := update_event strptime_dmy 1 now_2026 concert_in_2020
             (open_session db_concert) in
  outcome_response o = Error 400 "The start date must not be in the past."
  ∧ name <$> events (pending (outcome_session o)) !! 1 = Some "Recital"
  ∧ name <$> events (committed (outcome_session o)) !! 1 = Some "Concert"
  ∧ committed (outcome_session o) = db_concert.
Proof. by vm_compute. Qed.

(** The end date is compared with the start date of the request, not with
    the one the event had: 20 October is refused for a start on 21 October
    although the event started on the 19th, and 13 October is accepted for a
    start on 12 October although it is before the 19th. *)
Example update_end_date_follows_new_start :
  (handle strptime_dmy now_2026 (UpdateEvent 1 concert_starting_late) db_concert).1
    = Error 400 "End date must not be before start date."
  ∧ (handle strptime_dmy now_2026 (UpdateEvent 1 concert_one_week_earlier) db_concert).1
    = Message 200 "Event updated successfully.".
Proof. by vm_compute. Qed.

(** [end_date] is stored as midnight of the end day and compared with the
    full clock reading: at noon of the last day the concert can be deleted
    with its two sold tickets, while a ticket is still redeemed at that
    time. *)
Example delete_allowed_on_last_day :
  dt_gtb (end_date (concert_event 2)) last_day = false
  ∧ (handle strptime_dmy last_day (DeleteEvent 1) db_sold_out).1
    = Message 200 "The event was deleted successfully."
  ∧ (handle strptime_dmy last_day (RedeemTicket 1) db_sold_out).1
    = Message 200 "Ticket redeemed successfully.".
Proof. by vm_compute. Qed.

(** Keys are given again: after the concert and its tickets are deleted,
    the first ticket of the next event is stored under key 1, unredeemed.
    It is a new ticket, not the redeemed one. *)
Example ticket_key_given_again :
  redeemed <$> tickets db_redeemed !! 1 = Some true
  ∧ tickets (run strptime_dmy [(after_concert, DeleteEvent 1)] db_redeemed) !! 1 = None
  ∧ tickets (run strptime_dmy reuse_trace db_redeemed) !! 1
    = Some (mkTicket 1 false after_concert).
Proof. by vm_compute. Qed.

(** ** The theorems on the sample requests *)

Lemma failed_request_changes_nothing_witness :
  ValidationError
    (handle strptime_dmy now_2026 (UpdateEvent 1 concert_shrunk) db_sold_out).1
  ∧ (handle strptime_dmy now_2026 (UpdateEvent 1 concert_shrunk) db_sold_out).2
    = db_sold_out
  ∧ events (handle strptime_dmy now_2026 (UpdateEvent 1 concert_shrunk) db_sold_out).2
      !! 1 = Some (concert_event 2).
Proof.
  destruct (failed_request_changes_nothing strptime_dmy now_2026
              (UpdateEvent 1 concert_shrunk) db_sold_out) as [Hany Hupdate].
  assert (ValidationError
            (handle strptime_dmy now_2026 (UpdateEvent 1 concert_shrunk)
               db_sold_out).1) as Hv.
  { exists "You cannot reduce total tickets below tickets sold.". by vm_compute. }
  split; [exact Hv|]. split.
  - apply Hany. left. exact Hv.
  - apply (Hupdate 1 (concert_event 2) "Concert" "19/10/2030" "20/10/2030" 1).
    + done.
    + by vm_compute.
    + unfold update_check_fails. do 4 right. left. simpl. lia.
Defined.

Lemma sell_ticket_confirms_with_event_id_witness :
  events db_one_sold !! 1 = Some (concert_event 1)
  ∧ tickets_sold (concert_event 1) < total_tickets (concert_event 1)
  ∧ (serve (sell_ticket 1 now_2026) db_one_sold).1
    = MessageId 201 "Ticket sold in a successfully way." "ticket_id" 1
  ∧ tickets (serve (sell_ticket 1 now_2026) db_one_sold).2
      !! next_id (tickets db_one_sold)
    = Some (mkTicket 1 false now_2026).
Proof.
  assert (events db_one_sold !! 1 = Some (concert_event 1)) as Hev
    by (by vm_compute).
  assert (tickets_sold (concert_event 1) < total_tickets (concert_event 1))
    as Hroom by (simpl; lia).
  destruct (sell_ticket_confirms_with_event_id now_2026 1 db_one_sold
              (concert_event 1) Hev Hroom) as (Hresp & _ & Hnew & _).
  done.
Defined.

Lemma sell_succeeds_exactly_capacity_times_witness :
  (handle strptime_dmy now_2026 (CreateEvent concert) empty_db).1
    = MessageId 200 "Event created successfully." "event_id" 1
  ∧ b_total_tickets concert = Val 2
  ∧ Z.of_nat (length [now_2026; concert_day]) = 2
  ∧ ∃ dN,
      sell_many 1 ([now_2026; concert_day] ++ [after_concert])
        (handle strptime_dmy now_2026 (CreateEvent concert) empty_db).2
      = (replicate 2 (sold_response 1) ++ [CapacityExceededError], dN)
      ∧ serve (sell_ticket 1 after_concert) dN = (CapacityExceededError, dN).
Proof.
  assert ((handle strptime_dmy now_2026 (CreateEvent concert) empty_db).1
          = MessageId 200 "Event created successfully." "event_id" 1) as Hcreated
    by (by vm_compute).
  assert (b_total_tickets concert = Val 2) as Htotal by done.
  assert (Z.of_nat (length [now_2026; concert_day]) = 2) as Hlen by done.
  destruct (sell_succeeds_exactly_capacity_times strptime_dmy now_2026 concert
              empty_db 1 2 [now_2026; concert_day] after_concert
              Hcreated Htotal Hlen)
    as [(dN & evN & _ & _ & _ & _ & _ & Hlast & Hall) _].
  repeat (split; [done|]). exists dN. split; [exact Hall | exact Hlast].
Defined.

Lemma update_checks_end_against_new_start_witness :
  events db_concert !! 1 = Some (concert_event 0)
  ∧ strptime_dmy "21/10/2030" = Some (midnight 741371)
  ∧ strptime_dmy "20/10/2030" = Some (midnight 741370)
  ∧ serve (update_event strptime_dmy 1 now_2026 concert_starting_late) db_concert
    = (Error 400 "End date must not be before start date.", db_concert).
Proof.
  assert (events db_concert !! 1 = Some (concert_event 0)) as Hev
    by (by vm_compute).
  assert (strptime_dmy "21/10/2030" = Some (midnight 741371)) as Hs
    by (by vm_compute).
  assert (strptime_dmy "20/10/2030" = Some (midnight 741370)) as He
    by (by vm_compute).
  destruct (update_checks_end_against_new_start strptime_dmy now_2026 1
              concert_starting_late db_concert (concert_event 0)
              "21/10/2030" "20/10/2030" (midnight 741371) (midnight 741370)
              Hev eq_refl eq_refl Hs He) as [_ Horder].
  destruct (Horder "Concert" 2 eq_refl) as [Heq _].
  { by repeat split. }
  repeat (split; [done|]). rewrite Heq. done.
Defined.

Lemma redeem_succeeds_exactly_in_window_witness :
  reachable strptime_dmy db_sold_out
  ∧ tickets db_sold_out !! 1 = Some (mkTicket 1 false now_2026)
  ∧ ∃ ev,
      events db_sold_out !! 1 = Some ev
      ∧ ((serve (redeem_ticket 1 concert_day) db_sold_out).1
           = Message 200 "Ticket redeemed successfully."
         ↔ in_window concert_day ev).
Proof.
  assert (reachable strptime_dmy db_sold_out) as Hreach.
  { unfold db_sold_out, db_one_sold, db_concert.
    repeat apply reachable_step. apply reachable_empty. }
  assert (tickets db_sold_out !! 1 = Some (mkTicket 1 false now_2026)) as Ht
    by (by vm_compute).
  split; [exact Hreach|]. split; [exact Ht|].
  destruct (redeem_succeeds_exactly_in_window strptime_dmy concert_day 1
              db_sold_out (mkTicket 1 false now_2026) Hreach Ht eq_refl)
    as (ev & Hev & Hiff & _).
  exists ev. split; [exact Hev | exact Hiff].
Defined.

Lemma redeemed_never_reverts_witness :
  tickets db_redeemed !! 1 = Some (mkTicket 1 true now_2026)
  ∧ handle strptime_dmy after_concert (RedeemTicket 1) db_redeemed
    = (AlreadyRedeemedError, db_redeemed)
  ∧ (∀ t', tickets (handle strptime_dmy after_concert (SellTicket 1) db_redeemed).2
             !! 1 = Some t' → redeemed t' = true).
Proof.
  assert (tickets db_redeemed !! 1 = Some (mkTicket 1 true now_2026)) as Ht
    by (by vm_compute).
  destruct (redeemed_never_reverts strptime_dmy db_redeemed 1
              (mkTicket 1 true now_2026) Ht eq_refl) as (Hstep & _ & Hagain).
  split; [exact Ht|]. split.
  - apply Hagain.
  - apply Hstep.
Defined.

Lemma delete_event_rule_witness :
  events db_sold_out !! 1 = Some (concert_event 2)
  ∧ serve (delete_event 1 now_2026) db_sold_out = (CannotDeleteError, db_sold_out)
  ∧ (serve (delete_event 1 after_concert) db_sold_out).1
    = Message 200 "The event was deleted successfully."
  ∧ (∀ k t, tickets (serve (delete_event 1 after_concert) db_sold_out).2 !! k = Some t →
            event_id t ≠ 1).
Proof.
  assert (events db_sold_out !! 1 = Some (concert_event 2)) as Hev
    by (by vm_compute).
  split; [exact Hev|]. split.
  - apply (delete_event_rule now_2026 1 db_sold_out (concert_event 2) Hev).
    split; [simpl; lia | by vm_compute].
  - destruct (delete_event_rule after_concert 1 db_sold_out (concert_event 2) Hev)
      as (_ & _ & Hgone).
    destruct Hgone as (Hresp & _ & _ & Hnone & _); [right; by vm_compute|].
    split; [exact Hresp | exact Hnone].
Defined.

Lemma sell_ticket_ignores_window_witness :
  events db_one_sold !! 1 = Some (concert_event 1)
  ∧ date (end_date (concert_event 1)) < date after_concert
  ∧ (serve (sell_ticket 1 after_concert) db_one_sold).1 = sold_response 1
  ∧ serve (redeem_ticket (next_id (tickets db_one_sold)) after_concert)
          (serve (sell_ticket 1 after_concert) db_one_sold).2
    = (OutOfWindowError, (serve (sell_ticket 1 after_concert) db_one_sold).2)
  ∧ ((serve (redeem_ticket (next_id (tickets db_one_sold)) after_concert)
        (serve (update_event strptime_dmy 1 after_concert concert_postponed)
           (serve (sell_ticket 1 after_concert) db_one_sold).2).2).1
     = Message 200 "Ticket redeemed successfully."
     ↔ date (midnight 741380) ≤ date after_concert ≤ date (midnight 741381)).
Proof.
  assert (events db_one_sold !! 1 = Some (concert_event 1)) as Hev
    by (by vm_compute).
  assert (date (end_date (concert_event 1)) < date after_concert) as Hpast
    by (simpl; lia).
  destruct (sell_ticket_ignores_window strptime_dmy after_concert 1 db_one_sold
              (concert_event 1) Hev) as (Hsold & _ & _ & Hredeem & _ & Hupdate).
  { simpl. lia. }
  split; [exact Hev|]. split; [exact Hpast|]. split; [exact Hsold|]. split.
  - apply (Hredeem Hpast). lia.
  - apply (Hupdate concert_postponed after_concert after_concert
             "30/10/2030" "31/10/2030"); [done|done|by vm_compute..].
Defined.

(** ** Tickets and their events *)

Lemma tickets_of_lookup (eid k : Z) (ts : gmap Z Ticket) (t : Ticket) :
  tickets_of eid ts !! k = Some t ↔ ts !! k = Some t ∧ event_id t = eid.
Proof. unfold tickets_of. by rewrite map_lookup_filter_Some. Qed.

Lemma tickets_of_lookup_None (eid k : Z) (ts : gmap Z Ticket) :
  ts !! k = None → tickets_of eid ts !! k = None.
Proof.
  intros Hk. destruct (tickets_of eid ts !! k) as [t|] eqn:E; [|done].
  apply tickets_of_lookup in E as [E _]. congruence.
Qed.

Lemma tickets_of_insert_same (eid k : Z) (t : Ticket) (ts : gmap Z Ticket) :
  event_id t = eid →
  tickets_of eid (<[k := t]> ts) = <[k := t]> (tickets_of eid ts).
Proof. intros He. unfold tickets_of. by rewrite map_filter_insert_True. Qed.

Lemma tickets_of_insert_other (eid k : Z) (t : Ticket) (ts : gmap Z Ticket) :
  event_id t ≠ eid → tickets_of eid ts !! k = None →
  tickets_of eid (<[k := t]> ts) = tickets_of eid ts.
Proof.
  intros He Hk. unfold tickets_of in *.
  rewrite map_filter_insert_False by done.
  rewrite map_filter_delete. by apply delete_id.
Qed.

Lemma tickets_of_without (eid id : Z) (ts : gmap Z Ticket) :
  eid ≠ id → tickets_of eid (tickets_without id ts) = tickets_of eid ts.
Proof.
  intros Hne. apply map_eq. intros k. apply option_eq. intros t.
  rewrite !tickets_of_lookup, tickets_without_lookup.
  split; [tauto|]. intros [Ht He]. repeat split; [done|congruence|done].
Qed.

Lemma tickets_of_fresh_event (eid : Z) (d : database) :
  consistent d → events d !! eid = None → tickets_of eid (tickets d) = ∅.
Proof.
  intros [_ Hfk] Hnone. apply map_empty. intros k.
  destruct (tickets_of eid (tickets d) !! k) as [t|] eqn:E; [|done].
  apply tickets_of_lookup in E as [Ht <-].
  destruct (Hfk k t Ht) as [ev Hev]. congruence.
Qed.

Section Counting.

Variable strptime : string → option datetime.

Lemma handle_preserves_counted (now : datetime) (r : request) (d : database) :
  consistent d → counted d → counted (handle strptime now r d).2.
Proof.
  intros Hcons Hcount. destruct r as [data|id data|id|id|id]; unfold handle, route.
  - destruct (create_event_inv strptime now data d)
      as [[_ ->]|(n & s & e & t & sd & ed & _ & _ & _ & _ & _ & _ & _ & ->)];
      [done|].
    intros k ev; simpl. rewrite lookup_insert. case_decide.
    + intros [= <-]; simpl. subst k.
      rewrite (tickets_of_fresh_event _ d Hcons (next_id_fresh _)).
      by rewrite map_size_empty.
    + apply Hcount.
  - destruct (update_event_inv strptime now id data d)
      as [[_ ->]|(ev0 & n & s & e & t & sd & ed & Hev0 & _ & _ & _ & _ & _ & _ & _ & _ & ->)];
      [done|].
    intros k ev; simpl. rewrite lookup_insert. case_decide.
    + intros [= <-]; simpl. subst k. by apply Hcount.
    + apply Hcount.
  - rewrite delete_event_eq. repeat case_match; try done.
    intros k ev; simpl. rewrite lookup_delete. case_decide; [done|].
    intros Hk. rewrite tickets_of_without by done. by apply Hcount.
  - rewrite sell_ticket_eq.
    destruct (events d !! id) as [ev0|] eqn:Hev0; [|done].
    destruct (total_tickets ev0 <=? tickets_sold ev0) eqn:E; [done|].
    intros k ev; simpl. rewrite lookup_insert. case_decide.
    + intros [= <-]; simpl. subst k.
      rewrite tickets_of_insert_same by done.
      rewrite (map_size_insert_None (next_id (tickets d)) _
                 (tickets_of id (tickets d)))
        by (apply tickets_of_lookup_None, next_id_fresh).
      rewrite (Hcount _ _ Hev0). lia.
    + intros Hk. rewrite tickets_of_insert_other; [by apply Hcount|simpl; congruence|].
      apply tickets_of_lookup_None, next_id_fresh.
  - rewrite redeem_ticket_eq.
    destruct (tickets d !! id) as [t0|] eqn:Ht0; [|done].
    repeat case_match; try done.
    intros k ev Hk; simpl in *. rewrite (Hcount _ _ Hk). f_equal.
    destruct (decide (event_id t0 = k)) as [Heq|Hne].
    + rewrite tickets_of_insert_same by done.
      rewrite (map_size_insert_Some id _ (tickets_of k (tickets d))); [done|].
      exists t0. by apply tickets_of_lookup.
    + rewrite tickets_of_insert_other; [done|done|].
      destruct (tickets_of k (tickets d) !! id) as [u|] eqn:Hu; [|done].
      apply tickets_of_lookup in Hu as [Hu1 Hu2]. congruence.
Qed.

Lemma reachable_counted (d : database) : reachable strptime d → counted d.
Proof.
  induction 1 as [|d now r Hd IH].
  - intros id ev; simpl. by rewrite lookup_empty.
  - apply handle_preserves_counted; [by apply (reachable_consistent strptime)|done].
Qed.

(** X1. In every database the service can reach, the counter
    [tickets_sold] of an event is the number of tickets stored for it. *)
Theorem reachable_tickets_sold_counts_tickets (d : database) (id : Z)
    (ev : Event) :
  reachable strptime d → events d !! id = Some ev →
  tickets_sold ev = Z.of_nat (size (tickets_of id (tickets d))).
Proof. intros Hreach Hev. by apply (reachable_counted d Hreach). Qed.

End Counting.

(** ** Missing rows, missing keys *)

Section Edges.

Variable strptime : string → option datetime.

Ltac split_view :=
  repeat (simpl;
    match goal with
    | |- context [strptime ?s] => destruct (strptime s) eqn:?
    | |- context [if ?b then _ else _] => destruct b eqn:?
    end); simpl.

(** X4. [create_event] reads [name] with [data.get] and the other three
    keys with [data[...]]: an absent [start_date], [end_date] or
    [total_tickets] raises [KeyError] for the first absent key in that
    order, whatever the name; with the three keys present, an absent name,
    a [null], an empty string or a capacity of 0 is answered with the 400
    of the required-field gate.  Nothing is stored on any of these paths. *)
Theorem create_event_required_fields (now : datetime) (data : body)
    (d : database) :
  (b_start_date data = Missing →
   serve (create_event strptime now data) d
   = (Unhandled (KeyError "start_date"), d))
  ∧ (b_start_date data ≠ Missing → b_end_date data = Missing →
     serve (create_event strptime now data) d
     = (Unhandled (KeyError "end_date"), d))
  ∧ (b_start_date data ≠ Missing → b_end_date data ≠ Missing →
     b_total_tickets data = Missing →
     serve (create_event strptime now data) d
     = (Unhandled (KeyError "total_tickets"), d))
  ∧ (b_start_date data ≠ Missing → b_end_date data ≠ Missing →
     b_total_tickets data ≠ Missing →
     b_name data = Missing ∨ blank_str (b_name data)
     ∨ blank_str (b_start_date data) ∨ blank_str (b_end_date data)
     ∨ blank_int (b_total_tickets data) →
     serve (create_event strptime now data) d
     = (Error 400 "Missing requeired fieds.", d)).
Proof.
  destruct data as [fn fs fe ft]; simpl.
  split; [by intros ->|]. split; [intros Hs ->; by destruct fs|].
  split; [intros Hs He ->; destruct fs; [done|..]; by destruct fe|].
  intros Hs He Ht Hblank.
  unfold blank_str, blank_int in Hblank.
  destruct fs as [| |s]; [done|..]; destruct fe as [| |e]; [done|..| |];
    destruct ft as [| |t]; try done;
    destruct fn as [| |n];
    unfold serve, create_event, dict_item, dict_get, all;
    unfold mbind, view_bind, mret, view_ret; simpl;
    rewrite ?andb_false_r; simpl; try done.
  all: destruct Hblank as [H|[[H|H]|[[H|H]|[[H|H]|[H|H]]]]];
    try discriminate H; try injection H as ->; simpl;
    rewrite ?andb_false_r; simpl; try done.
Qed.

(** X5. [update_event] reads all four keys with [data[...]], after it has
    found the event: an absent key raises [KeyError] for the first absent
    key in the order name, start date, end date, capacity; with the four
    keys present, a [null], an empty string or a capacity of 0 is answered
    with the 400 of the required-field gate, before any assignment.
    Nothing is stored on any of these paths. *)
Theorem update_event_required_fields (now : datetime) (id : Z) (data : body)
    (d : database) (ev : Event) :
  events d !! id = Some ev →
  (b_name data = Missing →
   serve (update_event strptime id now data) d = (Unhandled (KeyError "name"), d))
  ∧ (b_name data ≠ Missing → b_start_date data = Missing →
     serve (update_event strptime id now data) d
     = (Unhandled (KeyError "start_date"), d))
  ∧ (b_name data ≠ Missing → b_start_date data ≠ Missing →
     b_end_date data = Missing →
     serve (update_event strptime id now data) d
     = (Unhandled (KeyError "end_date"), d))
  ∧ (b_name data ≠ Missing → b_start_date data ≠ Missing →
     b_end_date data ≠ Missing → b_total_tickets data = Missing →
     serve (update_event strptime id now data) d
     = (Unhandled (KeyError "total_tickets"), d))
  ∧ (b_name data ≠ Missing → b_start_date data ≠ Missing →
     b_end_date data ≠ Missing → b_total_tickets data ≠ Missing →
     blank_str (b_name data) ∨ blank_str (b_start_date data)
     ∨ blank_str (b_end_date data) ∨ blank_int (b_total_tickets data) →
     serve (update_event strptime id now data) d
     = (Error 400 "Missing required fields.", d)
     ∧ pending (outcome_session
                  (update_event strptime id now data (open_session d))) = d).
Proof.
  intros Hev. destruct data as [fn fs fe ft]; simpl.
  split; [intros ->; unfold_view; by rewrite Hev|].
  split; [intros Hn ->; destruct fn; [done|..]; unfold_view; by rewrite Hev|].
  split; [intros Hn Hs ->; destruct fn; [done|..]; (destruct fs; [done|..]);
          unfold_view; by rewrite Hev|].
  split; [intros Hn Hs He ->; destruct fn; [done|..]; (destruct fs; [done|..]);
          (destruct fe; [done|..]); unfold_view; by rewrite Hev|].
  intros Hn Hs He Ht Hblank. unfold blank_str, blank_int in Hblank.
  destruct fn as [| |n]; [done|..]; (destruct fs as [| |s]; [done|..]);
    (destruct fe as [| |e]; [done|..]); (destruct ft as [| |t]; [done|..]);
    unfold serve, update_event, Event_get_or_404, dict_item, open_session, all;
    unfold mbind, view_bind, mret, view_ret; simpl; rewrite Hev; simpl;
    rewrite ?andb_false_r; simpl; try done.
  all: destruct Hblank as [[H|H]|[[H|H]|[[H|H]|[H|H]]]];
    try discriminate H; try injection H as ->; simpl;
    rewrite ?andb_false_r; simpl; try done.
Qed.

End Edges.

(** ** When the writing views succeed *)

Section Success.

Variable strptime : string → option datetime.

(** X6. [CreateEvent] succeeds exactly when the body holds a non-empty
    name, two non-empty dates that can be read and a capacity other than 0,
    the start date is not before the day of the request, the end date is
    not before the start date and the capacity lies within 1..300. *)
Theorem create_event_succeeds_iff (now : datetime) (data : body)
    (d : database) :
  succeeded (serve (create_event strptime now data) d).1 = true
  ↔ ∃ n s e t sd ed,
      data = mkBody (Val n) (Val s) (Val e) (Val t)
      ∧ complete n s e t
      ∧ strptime s = Some sd ∧ strptime e = Some ed
      ∧ date now ≤ date sd ∧ date sd ≤ date ed ∧ 1 ≤ t ≤ 300.
Proof.
  split.
  - intros Hok.
    destruct (create_event_inv strptime now data d)
      as [[Hf _]|(n & s & e & t & sd & ed & Hdata & Hc & Hs & He & H1 & H2 & H3 & _)].
    { congruence. }
    by exists n, s, e, t, sd, ed.
  - intros (n & s & e & t & sd & ed & -> & Hc & Hs & He & H1 & H2 & H3).
    rewrite (create_event_eq strptime now n s e t sd ed d Hc Hs He).
    destruct (date sd <? date now) eqn:E1; reflect_Z; [lia|].
    destruct (date ed <? date sd) eqn:E2; reflect_Z; [lia|].
    destruct (negb ((1 <=? t) && (t <=? 300))) eqn:E3; [|done].
    apply negb_true_iff, andb_false_iff in E3 as [E3|E3]; reflect_Z; lia.
Qed.

(** X7. A successful [CreateEvent] stores one event more and touches
    nothing else: the key it returns is at least 1 and above every key of
    the table, the new row is made of the request's name, dates and
    capacity with no ticket sold, every other event and every ticket is as
    before. *)
Theorem create_event_adds_one_event (now : datetime) (data : body)
    (d : database) (id : Z) :
  (serve (create_event strptime now data) d).1
    = MessageId 200 "Event created successfully." "event_id" id →
  1 ≤ id
  ∧ events d !! id = None
  ∧ (∀ k ev, events d !! k = Some ev →
             k < id ∧ events (serve (create_event strptime now data) d).2 !! k = Some ev)
  ∧ size (events (serve (create_event strptime now data) d).2)
    = S (size (events d))
  ∧ tickets (serve (create_event strptime now data) d).2 = tickets d
  ∧ ∃ n s e t sd ed,
      data = mkBody (Val n) (Val s) (Val e) (Val t)
      ∧ strptime s = Some sd ∧ strptime e = Some ed
      ∧ events (serve (create_event strptime now data) d).2 !! id
        = Some (mkEvent n sd ed t 0).
Proof.
  intros Hok.
  destruct (create_event_inv strptime now data d)
    as [[Hf _]|(n & s & e & t & sd & ed & Hdata & _ & Hs & He & _ & _ & _ & Heq)].
  { rewrite Hok in Hf. done. }
  rewrite Heq in *. simpl in Hok. injection Hok as <-. simpl.
  split; [apply next_id_positive|]. split; [apply next_id_fresh|]. split.
  { intros k ev Hk. split; [by eapply next_id_above|].
    rewrite lookup_insert_ne; [done|].
    intros Heq'. pose proof (next_id_fresh (events d)). congruence. }
  split; [by rewrite map_size_insert_None by apply next_id_fresh|].
  split; [done|]. exists n, s, e, t, sd, ed.
  by rewrite lookup_insert_eq.
Qed.

(** X8. [UpdateEvent] succeeds exactly when the event exists, the body
    holds a non-empty name, two non-empty dates that can be read and a
    capacity other than 0, the new start date is not before the day of the
    request, the new end date is not before the new start date, and the new
    capacity lies within 1..300 and is not below the tickets sold. *)
Theorem update_event_succeeds_iff (now : datetime) (id : Z) (data : body)
    (d : database) :
  succeeded (serve (update_event strptime id now data) d).1 = true
  ↔ ∃ ev n s e t sd ed,
      events d !! id = Some ev
      ∧ data = mkBody (Val n) (Val s) (Val e) (Val t)
      ∧ complete n s e t
      ∧ strptime s = Some sd ∧ strptime e = Some ed
      ∧ date now ≤ date sd ∧ date sd ≤ date ed
      ∧ tickets_sold ev ≤ t ∧ 1 ≤ t ≤ 300.
Proof.
  split.
  - intros Hok.
    destruct (update_event_inv strptime now id data d)
      as [[Hf _]|(ev & n & s & e & t & sd & ed & Hev & Hdata & Hc & Hs & He
                  & H1 & H2 & H3 & H4 & _)].
    { congruence. }
    by exists ev, n, s, e, t, sd, ed.
  - intros (ev & n & s & e & t & sd & ed & Hev & -> & Hc & Hs & He & H1 & H2 & H3 & H4).
    rewrite (update_event_eq strptime now id ev n s e t sd ed d Hev Hc Hs He).
    destruct (date sd <? date now) eqn:E1; reflect_Z; [lia|].
    destruct (date ed <? date sd) eqn:E2; reflect_Z; [lia|].
    destruct (t <? tickets_sold ev) eqn:E3; reflect_Z; [lia|].
    destruct (negb ((1 <=? t) && (t <=? 300))) eqn:E4; [|done].
    apply negb_true_iff, andb_false_iff in E4 as [E4|E4]; reflect_Z; lia.
Qed.

(** X9. A successful [UpdateEvent] rewrites the name, the two dates and
    the capacity of the one event it names and nothing else: the counter
    [tickets_sold] of that event, every other event and every ticket are as
    before, and no row is added or removed. *)
Theorem update_event_rewrites_one_event (now : datetime) (id : Z)
    (data : body) (d : database) :
  (serve (update_event strptime id now data) d).1
    = Message 200 "Event updated successfully." →
  (∃ ev ev',
     events d !! id = Some ev
     ∧ events (serve (update_event strptime id now data) d).2 !! id = Some ev'
     ∧ tickets_sold ev' = tickets_sold ev
     ∧ b_name data = Val (name ev')
     ∧ b_total_tickets data = Val (total_tickets ev'))
  ∧ (∀ k, k ≠ id →
          events (serve (update_event strptime id now data) d).2 !! k
          = events d !! k)
  ∧ size (events (serve (update_event strptime id now data) d).2)
    = size (events d)
  ∧ tickets (serve (update_event strptime id now data) d).2 = tickets d.
Proof.
  intros Hok.
  destruct (update_event_inv strptime now id data d)
    as [[Hf _]|(ev & n & s & e & t & sd & ed & Hev & -> & _ & _ & _ & _ & _ & _ & _ & Heq)].
  { rewrite Hok in Hf. done. }
  rewrite Heq. simpl. split.
  { exists ev, (mkEvent n sd ed t (tickets_sold ev)).
    by rewrite lookup_insert_eq. }
  split; [intros k Hk; by rewrite lookup_insert_ne|].
  split; [|done]. rewrite map_size_insert_Some; [done|by eexists].
Qed.

(** X10. In [update_event] a date that cannot be read ends the request in
    an unhandled exception, since the [except] branch hands [jsonify] a
    set.  The start date is read and checked first: an unreadable start
    date raises whatever the end date is, and an unreadable end date raises
    only if the start date is not in the past, which is answered first.
    The database stays as it was. *)
Theorem update_event_unreadable_date (now : datetime) (id : Z) (ev : Event)
    (n s e : string) (t : Z) (d : database) :
  events d !! id = Some ev → complete n s e t →
  (strptime s = None →
   serve (update_event strptime id now (mkBody (Val n) (Val s) (Val e) (Val t))) d
   = (Unhandled (TypeError "Object of type set is not JSON serializable"), d))
  ∧ (∀ sd, strptime s = Some sd → strptime e = None →
       serve (update_event strptime id now (mkBody (Val n) (Val s) (Val e) (Val t))) d
       = if date sd <? date now
         then (Error 400 "The start date must not be in the past.", d)
         else (Unhandled (TypeError "Object of type set is not JSON serializable"), d)).
Proof.
  intros Hev Hc. pose proof (complete_gate _ _ _ _ Hc) as Hgate.
  destruct Hc as (Hn & Hs' & He' & Ht).
  apply String.eqb_neq in Hn, Hs', He'.
  split.
  - intros Hs.
    unfold serve, update_event, Event_get_or_404, dict_item, open_session.
    unfold mbind, view_bind, mret, view_ret.
    cbn [b_name b_start_date b_end_date b_total_tickets pending events].
    rewrite Hev, Hgate. cbn [negb]. unfold truthy_str.
    rewrite Hn, Hs', Hs. cbn [negb]. by unfold_view.
  - intros sd Hs He.
    unfold serve, update_event, Event_get_or_404, dict_item, open_session.
    unfold mbind, view_bind, mret, view_ret.
    cbn [b_name b_start_date b_end_date b_total_tickets pending events].
    rewrite Hev, Hgate. cbn [negb]. unfold truthy_str.
    rewrite Hn, Hs', He', Hs, He. cbn [negb]. unfold_view.
    by destruct (date sd <? date now).
Qed.

End Success.

(** ** One request, row by row *)

Section Steps.

Variable strptime : string → option datetime.

Lemma handle_effect (now : datetime) (r : request) (d : database) :
  effect now d r (handle strptime now r d).2.
Proof.
  destruct r as [data|id data|id|id|id]; unfold handle, route.
  - destruct (create_event_inv strptime now data d)
      as [[_ ->]|(n & s & e & t & sd & ed & _ & _ & _ & _ & _ & _ & _ & ->)];
      [constructor|].
    by apply effect_create.
  - destruct (update_event_inv strptime now id data d)
      as [[_ ->]|(ev & n & s & e & t & sd & ed & Hev & _ & _ & _ & _ & _ & _ & _ & _ & ->)];
      [constructor|].
    by eapply effect_update.
  - rewrite delete_event_eq.
    destruct (events d !! id) as [ev|] eqn:Hev; [|constructor].
    case_match; [constructor|]. by eapply effect_delete.
  - rewrite sell_ticket_eq.
    destruct (events d !! id) as [ev|] eqn:Hev; [|constructor].
    case_match; [constructor|]. by eapply effect_sell.
  - rewrite redeem_ticket_eq.
    destruct (tickets d !! id) as [t|] eqn:Ht; [|constructor].
    destruct (redeemed t) eqn:Hr; [constructor|].
    repeat case_match; first [by apply effect_redeem | apply effect_none].
Qed.

(** X11. Whatever the request, a ticket that is in the table before and
    after it keeps its event and its time of sale; its flag [redeemed]
    changes only from false to true, and only by [RedeemTicket] on that
    ticket. *)
Theorem request_keeps_ticket_fields (now : datetime) (r : request)
    (d : database) (tid : Z) (t t' : Ticket) :
  tickets d !! tid = Some t →
  tickets (handle strptime now r d).2 !! tid = Some t' →
  event_id t' = event_id t
  ∧ sold_at t' = sold_at t
  ∧ (redeemed t' = redeemed t
     ∨ (r = RedeemTicket tid ∧ redeemed t = false ∧ redeemed t' = true)).
Proof.
  intros Ht. pose proof (handle_effect now r d) as Heff.
  remember (handle strptime now r d).2 as d' eqn:Hd'. clear Hd'.
  destruct Heff as [r|data ev _|id data ev ev' _ _|id ev _|id ev _|k u Hu Hr];
    simpl.
  - intros Ht'. assert (t' = t) as -> by congruence. auto.
  - intros Ht'. assert (t' = t) as -> by congruence. auto.
  - intros Ht'. assert (t' = t) as -> by congruence. auto.
  - rewrite tickets_without_lookup. intros [Ht' _].
    assert (t' = t) as -> by congruence. auto.
  - rewrite lookup_insert_ne.
    + intros Ht'. assert (t' = t) as -> by congruence. auto.
    + intros Heq. pose proof (next_id_fresh (tickets d)). congruence.
  - rewrite lookup_insert. case_decide as Hk.
    + subst k. intros [= <-]. assert (u = t) as -> by congruence. simpl.
      split; [done|]. split; [done|]. by right.
    + intros Ht'. assert (t' = t) as -> by congruence. auto.
Qed.

(** X12. Whatever the request, an event that is in the table before and
    after it has its counter [tickets_sold] unchanged or raised by one, and
    raised only by [SellTicket] on that event; its name, dates and capacity
    change only by [UpdateEvent] on that event. *)
Theorem request_moves_tickets_sold_by_one (now : datetime) (r : request)
    (d : database) (id : Z) (ev ev' : Event) :
  events d !! id = Some ev →
  events (handle strptime now r d).2 !! id = Some ev' →
  (tickets_sold ev' = tickets_sold ev
   ∨ (r = SellTicket id ∧ tickets_sold ev' = tickets_sold ev + 1))
  ∧ ((∀ data, r ≠ UpdateEvent id data) →
     name ev' = name ev ∧ start_date ev' = start_date ev
     ∧ end_date ev' = end_date ev ∧ total_tickets ev' = total_tickets ev).
Proof.
  intros Hev. pose proof (handle_effect now r d) as Heff.
  remember (handle strptime now r d).2 as d' eqn:Hd'. clear Hd'.
  destruct Heff as [r|data new Hnew|k data old new Hold Hsame|k old Hold
                    |k old Hold|k u Hu Hr];
    simpl.
  - intros Hev'. assert (ev' = ev) as -> by congruence. auto.
  - rewrite lookup_insert_ne.
    + intros Hev'. assert (ev' = ev) as -> by congruence. auto.
    + intros Heq. pose proof (next_id_fresh (events d)). congruence.
  - rewrite lookup_insert. case_decide as Hk.
    + subst k. intros [= <-]. assert (old = ev) as -> by congruence.
      split; [by left|]. intros Hno. by destruct (Hno data).
    + intros Hev'. assert (ev' = ev) as -> by congruence. auto.
  - rewrite lookup_delete. case_decide; [done|].
    intros Hev'. assert (ev' = ev) as -> by congruence. auto.
  - rewrite lookup_insert. case_decide as Hk.
    + subst k. intros [= <-]. assert (old = ev) as -> by congruence.
      simpl. split; [by right|]. done.
    + intros Hev'. assert (ev' = ev) as -> by congruence. auto.
  - intros Hev'. assert (ev' = ev) as -> by congruence. auto.
Qed.

(** X13. Rows leave the tables only through [DeleteEvent]: an event that
    is gone after a request was the one the request deleted, and a ticket
    that is gone belonged to the event the request deleted. *)
Theorem rows_leave_only_by_delete (now : datetime) (r : request)
    (d : database) :
  (∀ id ev, events d !! id = Some ev →
            events (handle strptime now r d).2 !! id = None →
            r = DeleteEvent id)
  ∧ (∀ tid t, tickets d !! tid = Some t →
              tickets (handle strptime now r d).2 !! tid = None →
              r = DeleteEvent (event_id t)).
Proof.
  pose proof (handle_effect now r d) as Heff.
  remember (handle strptime now r d).2 as d' eqn:Hd'. clear Hd'.
  destruct Heff as [r|data new Hnew|k data old new Hold Hsame|k old Hold
                    |k old Hold|k u Hu Hr];
    simpl; split.
  - congruence.
  - congruence.
  - intros id ev Hev. rewrite lookup_insert. case_decide; congruence.
  - congruence.
  - intros id ev Hev. rewrite lookup_insert. case_decide; congruence.
  - congruence.
  - intros id ev Hev. rewrite lookup_delete. case_decide; congruence.
  - intros tid t Ht Hgone.
    destruct (decide (event_id t = k)) as [->|Hne]; [done|].
    assert (tickets_without k (tickets d) !! tid = Some t) as Hkept
      by (by apply tickets_without_lookup).
    congruence.
  - intros id ev Hev. rewrite lookup_insert. case_decide; congruence.
  - intros tid t Ht. rewrite lookup_insert. case_decide; congruence.
  - congruence.
  - intros tid t Ht. rewrite lookup_insert. case_decide; congruence.
Qed.

(** X14. Rows enter the tables only through [CreateEvent] and
    [SellTicket]: a new event comes from a [CreateEvent], under the next
    key of the events, with no ticket sold; a new ticket comes from a
    [SellTicket] on its event, under the next key of the tickets,
    unredeemed and stamped with the time of the request. *)
Theorem rows_enter_only_by_create_and_sell (now : datetime) (r : request)
    (d : database) :
  (∀ id ev, events d !! id = None →
            events (handle strptime now r d).2 !! id = Some ev →
            (∃ data, r = CreateEvent data)
            ∧ id = next_id (events d) ∧ tickets_sold ev = 0)
  ∧ (∀ tid t, tickets d !! tid = None →
              tickets (handle strptime now r d).2 !! tid = Some t →
              r = SellTicket (event_id t)
              ∧ tid = next_id (tickets d)
              ∧ redeemed t = false ∧ sold_at t = now).
Proof.
  pose proof (handle_effect now r d) as Heff.
  remember (handle strptime now r d).2 as d' eqn:Hd'. clear Hd'.
  destruct Heff as [r|data new Hnew|k data old new Hold Hsame|k old Hold
                    |k old Hold|k u Hu Hr];
    simpl; split.
  - congruence.
  - congruence.
  - intros id ev Hnone. rewrite lookup_insert. case_decide; [|congruence].
    intros [= <-]. split; [by eexists|done].
  - congruence.
  - intros id ev Hnone. rewrite lookup_insert. case_decide; congruence.
  - congruence.
  - intros id ev Hnone. rewrite lookup_delete. case_decide; congruence.
  - intros tid t Hnone. rewrite tickets_without_lookup. intros [? _]. congruence.
  - intros id ev Hnone. rewrite lookup_insert. case_decide; congruence.
  - intros tid t Hnone. rewrite lookup_insert. case_decide; [|congruence].
    by intros [= <-].
  - congruence.
  - intros tid t Hnone. rewrite lookup_insert. case_decide; congruence.
Qed.

End Steps.

(** ** After a deletion, and the day of a deletion *)

Lemma strptime_dmy_midnight : reads_midnight strptime_dmy.
Proof.
  intros s dt. unfold strptime_dmy.
  destruct (split_slash s) as [|ds [|ms [|ys [|? ?]]]]; try done.
  destruct (parse_day ds) as [dd|]; [|done].
  destruct (parse_month ms) as [mm|]; [|done].
  destruct (parse_year ys) as [yy|]; [|done]. simpl.
  case_match; [|done]. by intros [= <-].
Qed.

Section Deleting.

Variable strptime : string → option datetime.

Lemma handle_preserves_midnight (now : datetime) (r : request) (d : database) :
  reads_midnight strptime →
  dates_at_midnight d → dates_at_midnight (handle strptime now r d).2.
Proof.
  intros Hparse Hd. destruct r as [data|id data|id|id|id]; unfold handle, route.
  - destruct (create_event_inv strptime now data d)
      as [[_ ->]|(n & s & e & t & sd & ed & _ & _ & Hs & He & _ & _ & _ & ->)];
      [done|].
    intros k ev; simpl. rewrite lookup_insert. case_decide; [|apply Hd].
    intros [= <-]; simpl. split; by eapply Hparse.
  - destruct (update_event_inv strptime now id data d)
      as [[_ ->]|(ev0 & n & s & e & t & sd & ed & _ & _ & _ & Hs & He & _ & _ & _ & _ & ->)];
      [done|].
    intros k ev; simpl. rewrite lookup_insert. case_decide; [|apply Hd].
    intros [= <-]; simpl. split; by eapply Hparse.
  - rewrite delete_event_eq. repeat case_match; try done.
    intros k ev; simpl. rewrite lookup_delete. case_decide; [done|]. apply Hd.
  - rewrite sell_ticket_eq.
    destruct (events d !! id) as [ev0|] eqn:Hev0; [|done].
    case_match; [done|].
    intros k ev; simpl. rewrite lookup_insert. case_decide; [|apply Hd].
    intros [= <-]; simpl. by eapply Hd.
  - rewrite redeem_ticket_eq. by repeat case_match.
Qed.

Lemma reachable_midnight (d : database) :
  reads_midnight strptime → reachable strptime d → dates_at_midnight d.
Proof.
  intros Hparse. induction 1 as [|d now r _ IH].
  - intros id ev; simpl. by rewrite lookup_empty.
  - by apply handle_preserves_midnight.
Qed.

(** X15. Once [DeleteEvent] has succeeded, the event is gone for every
    view: [UpdateEvent], [DeleteEvent] and [SellTicket] on its key and
    [RedeemTicket] on any of its former tickets are answered with 404 and
    change nothing, and [get_event_details] answers that the event is not
    found. *)
Theorem deleted_event_is_gone (now later : datetime) (id : Z) (d : database) :
  (serve (delete_event id now) d).1
    = Message 200 "The event was deleted successfully." →
  (∀ r, r = DeleteEvent id ∨ r = SellTicket id ∨ (∃ data, r = UpdateEvent id data) →
        handle strptime later r (serve (delete_event id now) d).2
        = (Abort404, (serve (delete_event id now) d).2))
  ∧ (∀ tid t, tickets d !! tid = Some t → event_id t = id →
              handle strptime later (RedeemTicket tid) (serve (delete_event id now) d).2
              = (Abort404, (serve (delete_event id now) d).2))
  ∧ get_event_details id (serve (delete_event id now) d).2
    = Plain 404 "Event not found".
Proof.
  rewrite delete_event_eq.
  destruct (events d !! id) as [ev|] eqn:Hev; [|done].
  case_match; [done|]. intros _. cbn [fst snd].
  set (d' := mkDb _ _).
  assert (events d' !! id = None) as Hgone by apply lookup_delete_eq.
  split; [|split].
  - intros r [->|[->|[data ->]]]; unfold handle, route.
    + by rewrite delete_event_eq, Hgone.
    + by rewrite sell_ticket_eq, Hgone.
    + unfold_view. by rewrite lookup_delete_eq.
  - intros tid t Ht He. unfold handle, route. rewrite redeem_ticket_eq.
    destruct (tickets d' !! tid) as [u|] eqn:Hu; [|done].
    apply tickets_without_lookup in Hu as [Hu Hne].
    assert (u = t) as -> by congruence. done.
  - unfold get_event_details. by rewrite Hgone.
Qed.

(** X16. With a parser that reads dates at midnight and a clock whose time
    of day is not negative, in every database the service can reach
    [DeleteEvent] on an event with tickets sold is refused exactly on the
    days before the end date: from the first moment of the end day the
    event can be deleted. *)
Theorem delete_refused_only_before_end_day (now : datetime) (id : Z)
    (d : database) (ev : Event) :
  reads_midnight strptime → reachable strptime d →
  events d !! id = Some ev → 0 ≤ micros now →
  ((serve (delete_event id now) d).1 = CannotDeleteError
   ↔ 0 < tickets_sold ev ∧ date now < date (end_date ev))
  ∧ (date (end_date ev) ≤ date now →
     (serve (delete_event id now) d).1
     = Message 200 "The event was deleted successfully.").
Proof.
  intros Hparse Hreach Hev Hclock.
  destruct (reachable_midnight d Hparse Hreach id ev Hev) as [_ Hend].
  rewrite delete_event_eq, Hev.
  assert (dt_ltb now (end_date ev) = (date now <? date (end_date ev))) as ->.
  { unfold dt_ltb, date. rewrite Hend.
    destruct (micros now <? 0) eqn:E; reflect_Z; [lia|].
    by rewrite andb_false_r, orb_false_r. }
  destruct (0 <? tickets_sold ev) eqn:E1;
    destruct (date now <? date (end_date ev)) eqn:E2; simpl; reflect_Z.
  - split; [done|]. lia.
  - split; [|done]. split; [done|]. lia.
  - split; [|done]. split; [done|]. lia.
  - split; [|done]. split; [done|]. lia.
Qed.

End Deleting.

(** ** The reading views *)

Lemma count_redeemed_le_tickets_of (eid : Z) (d : database) :
  0 ≤ count_redeemed eid d ≤ Z.of_nat (size (tickets_of eid (tickets d))).
Proof.
  unfold count_redeemed, tickets_of. split; [lia|].
  apply inj_le, map_subseteq_size, map_filter_subseteq_ext.
  intros k t _ [He _]. done.
Qed.

(** Storing an unredeemed ticket under a key that holds no redeemed ticket
    leaves every count of redeemed tickets as it was. *)
Lemma count_redeemed_insert_unredeemed (eid k : Z) (t : Ticket)
    (evs evs' : gmap Z Event) (ts : gmap Z Ticket) :
  redeemed t = false →
  (∀ u, ts !! k = Some u → redeemed u = false) →
  count_redeemed eid (mkDb evs' (<[k := t]> ts)) = count_redeemed eid (mkDb evs ts).
Proof.
  intros Hr Hold. unfold count_redeemed; simpl. do 2 f_equal.
  rewrite map_filter_insert_False by (simpl; intros [_ ?]; congruence).
  rewrite map_filter_delete. apply delete_id.
  apply map_lookup_filter_None. destruct (ts !! k) as [u|] eqn:Hu; [|by left].
  right. intros u' [= <-]. simpl. intros [_ ?]. specialize (Hold u eq_refl).
  congruence.
Qed.

(** Redeeming the unredeemed ticket [t] adds one to the count of its
    event and leaves the other counts as they were. *)
Lemma count_redeemed_redeem (eid k : Z) (t : Ticket) (d : database) :
  tickets d !! k = Some t → redeemed t = false →
  count_redeemed eid (mkDb (events d) (<[k := set_redeemed true t]> (tickets d)))
  = if decide (event_id t = eid) then count_redeemed eid d + 1
    else count_redeemed eid d.
Proof.
  intros Ht Hr. unfold count_redeemed; simpl.
  assert (filter (λ kt : Z * Ticket, event_id kt.2 = eid ∧ redeemed kt.2 = true)
            (tickets d) !! k = None) as Hnone.
  { apply map_lookup_filter_None. right. intros u Hu. simpl. intros [_ ?].
    congruence. }
  case_decide as He.
  - rewrite map_filter_insert_True by done.
    rewrite (map_size_insert_None k _ _ Hnone). lia.
  - rewrite map_filter_insert_False by (simpl; tauto).
    rewrite map_filter_delete. by rewrite delete_id.
Qed.

Section Reading.

Variable strptime : string → option datetime.

(** X18. [get_all_events] answers 404 exactly when the table of events is
    empty, not with an empty list; otherwise it lists every event once,
    each entry under the key of its event with the details that
    [get_event_details] shows for that key. *)
Theorem all_events_lists_every_event (d : database) :
  (get_all_events d = Plain 404 "No events found" ↔ events d = ∅)
  ∧ (events d ≠ ∅ →
     ∃ rows, get_all_events d = EventsPage 200 rows
             ∧ length rows = size (events d)
             ∧ NoDup rows.*1
             ∧ ∀ id v, (id, v) ∈ rows ↔ get_event_details id d = DetailsPage 200 v).
Proof.
  unfold get_all_events.
  pose proof (map_to_list_empty_iff (events d)) as Hempty.
  pose proof (length_map_to_list (events d)) as Hlen.
  pose proof (NoDup_fst_map_to_list (events d)) as Hnodup.
  assert (∀ id ev, (id, ev) ∈ map_to_list (events d) ↔ events d !! id = Some ev)
    as Hin by (intros; apply elem_of_map_to_list).
  destruct (map_to_list (events d)) as [|row rows] eqn:Hrows.
  - split; [split; [intros _; by apply Hempty|done]|].
    intros Hne. destruct Hne. by apply Hempty.
  - split.
    { split; [done|]. intros Hnil. apply Hempty in Hnil. done. }
    intros _. eexists. split; [done|]. split; [by rewrite length_map|].
    split.
    { replace ((map (λ r : Z * Event, (r.1, event_view r.1 r.2 d)) (row :: rows)).*1)
        with ((row :: rows).*1); [done|].
      rewrite <- list_fmap_compose. by apply list_fmap_ext. }
    intros id v. unfold get_event_details. rewrite list_elem_of_fmap. split.
    + intros ([k ev] & [= -> ->] & Hmem). simpl.
      apply Hin in Hmem. by rewrite Hmem.
    + destruct (events d !! id) as [ev|] eqn:Hev; [|done].
      intros [= <-]. exists (id, ev). split; [done|]. by apply Hin.
Qed.

(** X19. A successful [RedeemTicket] shows in the reading views as one
    more redeemed ticket for the event of the ticket, and as nothing else:
    the other fields of that event and the details of every other event
    are as before. *)
Theorem redeem_shows_in_details (now : datetime) (tid : Z) (d : database)
    (t : Ticket) :
  tickets d !! tid = Some t →
  (serve (redeem_ticket tid now) d).1 = Message 200 "Ticket redeemed successfully." →
  (∃ ev, events d !! event_id t = Some ev
         ∧ get_event_details (event_id t) (serve (redeem_ticket tid now) d).2
           = DetailsPage 200
               (View.mkDetails (name ev) (start_date ev) (end_date ev)
                  (total_tickets ev) (tickets_sold ev)
                  (count_redeemed (event_id t) d + 1)))
  ∧ (∀ k, k ≠ event_id t →
          get_event_details k (serve (redeem_ticket tid now) d).2
          = get_event_details k d).
Proof.
  intros Ht. rewrite redeem_ticket_eq, Ht.
  destruct (redeemed t) eqn:Hr; [done|].
  destruct (events d !! event_id t) as [ev|] eqn:Hev; [|done].
  case_match; [|done]. intros _. cbn [fst snd]. split.
  - exists ev. split; [done|]. unfold get_event_details, event_view; simpl.
    rewrite Hev, (count_redeemed_redeem _ _ _ _ Ht Hr).
    by rewrite decide_True.
  - intros k Hk. unfold get_event_details, event_view; simpl.
    rewrite (count_redeemed_redeem _ _ _ _ Ht Hr).
    by rewrite decide_False.
Qed.

(** X20. A successful [SellTicket] shows in the reading views as one more
    ticket sold for its event, with the count of redeemed tickets
    unchanged; the details of every other event are as before. *)
Theorem sale_shows_in_details (now : datetime) (id : Z) (d : database)
    (ev : Event) :
  events d !! id = Some ev → tickets_sold ev < total_tickets ev →
  get_event_details id (serve (sell_ticket id now) d).2
    = DetailsPage 200
        (View.mkDetails (name ev) (start_date ev) (end_date ev)
           (total_tickets ev) (tickets_sold ev + 1) (count_redeemed id d))
  ∧ (∀ k, k ≠ id →
          get_event_details k (serve (sell_ticket id now) d).2
          = get_event_details k d).
Proof.
  intros Hev Hroom. rewrite sell_ticket_eq, Hev.
  destruct (total_tickets ev <=? tickets_sold ev) eqn:E; reflect_Z; [lia|].
  cbn [fst snd].
  assert (∀ k, count_redeemed k
                 (mkDb (<[id := set_tickets_sold (tickets_sold ev + 1) ev]> (events d))
                       (<[next_id (tickets d) := mkTicket id false now]> (tickets d)))
               = count_redeemed k d) as Hcount.
  { intros k. destruct d as [evs ts]. simpl.
    apply count_redeemed_insert_unredeemed; [done|].
    intros u Hu. pose proof (next_id_fresh ts). congruence. }
  split.
  - unfold get_event_details, event_view; simpl.
    by rewrite lookup_insert_eq, Hcount.
  - intros k Hk. unfold get_event_details, event_view; simpl.
    by rewrite lookup_insert_ne, Hcount.
Qed.

(** X21. In every database the service can reach, an event that
    [CreateEvent] has just stored reads back through [get_event_details]
    as the request's name, its two dates as read, its capacity, no ticket
    sold and none redeemed; the details of the other events are as
    before. *)
Theorem created_event_reads_back (now : datetime) (data : body)
    (d : database) (id : Z) :
  reachable strptime d →
  (serve (create_event strptime now data) d).1
    = MessageId 200 "Event created successfully." "event_id" id →
  (∃ n s e t sd ed,
     data = mkBody (Val n) (Val s) (Val e) (Val t)
     ∧ strptime s = Some sd ∧ strptime e = Some ed
     ∧ get_event_details id (serve (create_event strptime now data) d).2
       = DetailsPage 200 (View.mkDetails n sd ed t 0 0))
  ∧ (∀ k, k ≠ id →
          get_event_details k (serve (create_event strptime now data) d).2
          = get_event_details k d).
Proof.
  intros Hreach Hok.
  destruct (create_event_inv strptime now data d)
    as [[Hf _]|(n & s & e & t & sd & ed & Hdata & _ & Hs & He & _ & _ & _ & Heq)].
  { rewrite Hok in Hf. done. }
  rewrite Heq in *. simpl in Hok. injection Hok as <-. cbn [fst snd].
  assert (∀ k evs, count_redeemed k (mkDb evs (tickets d)) = count_redeemed k d)
    as Hcount by done.
  split.
  - exists n, s, e, t, sd, ed. repeat (split; [done|]).
    unfold get_event_details, event_view; simpl.
    rewrite lookup_insert_eq, Hcount. simpl. do 2 f_equal.
    pose proof (count_redeemed_le_tickets_of (next_id (events d)) d) as Hle.
    rewrite (tickets_of_fresh_event _ d) in Hle;
      [|by apply (reachable_consistent strptime)|apply next_id_fresh].
    rewrite map_size_empty in Hle. lia.
  - intros k Hk. unfold get_event_details, event_view; simpl.
    by rewrite lookup_insert_ne, Hcount.
Qed.

(** X22. After a successful [UpdateEvent] with capacity [t], a sale for
    the event succeeds exactly when fewer than [t] tickets were sold: the
    capacity can be lowered down to the number sold, which closes the
    sales. *)
Theorem updated_capacity_governs_sales (now later : datetime) (id : Z)
    (data : body) (d : database) (ev : Event) (t : Z) :
  events d !! id = Some ev → b_total_tickets data = Val t →
  (serve (update_event strptime id now data) d).1
    = Message 200 "Event updated successfully." →
  tickets_sold ev ≤ t
  ∧ ((serve (sell_ticket id later) (serve (update_event strptime id now data) d).2).1
       = sold_response id ↔ tickets_sold ev < t)
  ∧ ((serve (sell_ticket id later) (serve (update_event strptime id now data) d).2).1
       = CapacityExceededError ↔ tickets_sold ev = t).
Proof.
  intros Hev Ht Hok.
  destruct (update_event_inv strptime now id data d)
    as [[Hf _]|(ev0 & n & s & e & t0 & sd & ed & Hev0 & -> & _ & _ & _ & _ & _
                & Hsold & _ & Heq)].
  { rewrite Hok in Hf. done. }
  simpl in Ht. injection Ht as ->. assert (ev0 = ev) as -> by congruence.
  rewrite Heq. cbn [fst snd]. rewrite sell_ticket_eq. simpl.
  rewrite lookup_insert_eq. simpl. split; [done|].
  destruct (t <=? tickets_sold ev) eqn:E; reflect_Z; simpl.
  - split; [split; [done|lia]|]. split; [lia|done].
  - split; [split; [lia|done]|]. split; [done|lia].
Qed.

End Reading.

(** ** The further theorems on the sample requests *)

Lemma reachable_db_sold_out : reachable strptime_dmy db_sold_out.
Proof.
  unfold db_sold_out, db_one_sold, db_concert.
  repeat apply reachable_step. apply reachable_empty.
Qed.

Lemma reachable_db_redeemed : reachable strptime_dmy db_redeemed.
Proof. unfold db_redeemed. apply reachable_step, reachable_db_sold_out. Qed.

Lemma concert_complete : complete "Concert" "19/10/2030" "20/10/2030" 2.
Proof. by repeat split. Qed.

Lemma reachable_tickets_sold_counts_tickets_witness :
  reachable strptime_dmy db_sold_out
  ∧ events db_sold_out !! 1 = Some (concert_event 2)
  ∧ tickets_sold (concert_event 2)
    = Z.of_nat (size (tickets_of 1 (tickets db_sold_out))).
Proof.
  assert (events db_sold_out !! 1 = Some (concert_event 2)) as Hev
    by (by vm_compute).
  split; [exact reachable_db_sold_out|]. split; [exact Hev|].
  exact (reachable_tickets_sold_counts_tickets strptime_dmy db_sold_out 1
           (concert_event 2) reachable_db_sold_out Hev).
Defined.

Lemma create_event_required_fields_witness :
  b_start_date concert_nameless ≠ Missing
  ∧ b_end_date concert_nameless ≠ Missing
  ∧ b_total_tickets concert_nameless ≠ Missing
  ∧ b_name concert_nameless = Missing
  ∧ serve (create_event strptime_dmy now_2026 concert_nameless) empty_db
    = (Error 400 "Missing requeired fieds.", empty_db)
  ∧ serve (create_event strptime_dmy now_2026 concert_without_total) empty_db
    = (Unhandled (KeyError "total_tickets"), empty_db).
Proof.
  destruct (create_event_required_fields strptime_dmy now_2026 concert_nameless
              empty_db) as (_ & _ & _ & Hgate).
  destruct (create_event_required_fields strptime_dmy now_2026
              concert_without_total empty_db) as (_ & _ & Hkey & _).
  do 4 (split; [done|]). split.
  - apply Hgate; [done|done|done|]. by left.
  - by apply Hkey.
Defined.

Lemma update_event_required_fields_witness :
  events db_concert !! 1 = Some (concert_event 0)
  ∧ b_total_tickets concert_without_total = Missing
  ∧ serve (update_event strptime_dmy 1 now_2026 concert_without_total) db_concert
    = (Unhandled (KeyError "total_tickets"), db_concert).
Proof.
  assert (events db_concert !! 1 = Some (concert_event 0)) as Hev
    by (by vm_compute).
  destruct (update_event_required_fields strptime_dmy now_2026 1
              concert_without_total db_concert (concert_event 0) Hev)
    as (_ & _ & _ & Hkey & _).
  split; [exact Hev|]. split; [done|]. by apply Hkey.
Defined.

Lemma create_event_succeeds_iff_witness :
  succeeded (serve (create_event strptime_dmy now_2026 concert) empty_db).1 = true.
Proof.
  apply (create_event_succeeds_iff strptime_dmy now_2026 concert empty_db).
  exists "Concert", "19/10/2030", "20/10/2030", 2, (midnight 741369), (midnight 741370).
  split; [done|]. split; [exact concert_complete|].
  split; [by vm_compute|]. split; [by vm_compute|].
  simpl. lia.
Defined.

Lemma create_event_adds_one_event_witness :
  (serve (create_event strptime_dmy now_2026 concert) empty_db).1
    = MessageId 200 "Event created successfully." "event_id" 1
  ∧ size (events (serve (create_event strptime_dmy now_2026 concert) empty_db).2)
    = S (size (events empty_db))
  ∧ tickets (serve (create_event strptime_dmy now_2026 concert) empty_db).2
    = tickets empty_db.
Proof.
  assert ((serve (create_event strptime_dmy now_2026 concert) empty_db).1
          = MessageId 200 "Event created successfully." "event_id" 1) as Hok
    by (by vm_compute).
  destruct (create_event_adds_one_event strptime_dmy now_2026 concert empty_db 1 Hok)
    as (_ & _ & _ & Hsize & Htickets & _).
  done.
Defined.

Lemma update_event_succeeds_iff_witness :
  succeeded (serve (update_event strptime_dmy 1 now_2026 concert_one_week_earlier)
               db_concert).1 = true
  ∧ ∃ ev t, events db_concert !! 1 = Some ev
            ∧ b_total_tickets concert_one_week_earlier = Val t
            ∧ tickets_sold ev ≤ t.
Proof.
  assert (succeeded (serve (update_event strptime_dmy 1 now_2026
                              concert_one_week_earlier) db_concert).1 = true)
    as Hok by (by vm_compute).
  split; [exact Hok|].
  destruct (proj1 (update_event_succeeds_iff strptime_dmy now_2026 1
                     concert_one_week_earlier db_concert) Hok)
    as (ev & n & s & e & t & sd & ed & Hev & Hdata & _ & _ & _ & _ & _ & Hsold & _).
  exists ev, t. rewrite Hdata. done.
Defined.

Lemma update_event_rewrites_one_event_witness :
  (serve (update_event strptime_dmy 1 now_2026 concert_one_week_earlier) db_one_sold).1
    = Message 200 "Event updated successfully."
  ∧ tickets (serve (update_event strptime_dmy 1 now_2026 concert_one_week_earlier)
               db_one_sold).2
    = tickets db_one_sold
  ∧ size (events (serve (update_event strptime_dmy 1 now_2026
                           concert_one_week_earlier) db_one_sold).2)
    = size (events db_one_sold).
Proof.
  assert ((serve (update_event strptime_dmy 1 now_2026 concert_one_week_earlier)
             db_one_sold).1 = Message 200 "Event updated successfully.") as Hok
    by (by vm_compute).
  destruct (update_event_rewrites_one_event strptime_dmy now_2026 1
              concert_one_week_earlier db_one_sold Hok)
    as (_ & _ & Hsize & Htickets).
  done.
Defined.

Lemma update_event_unreadable_date_witness :
  events db_concert !! 1 = Some (concert_event 0)
  ∧ strptime_dmy "19/10/2030" = Some (midnight 741369)
  ∧ strptime_dmy "20.10.2030" = None
  ∧ serve (update_event strptime_dmy 1 now_2026 concert_dotted_end) db_concert
    = (Unhandled (TypeError "Object of type set is not JSON serializable"),
       db_concert).
Proof.
  assert (events db_concert !! 1 = Some (concert_event 0)) as Hev
    by (by vm_compute).
  assert (strptime_dmy "19/10/2030" = Some (midnight 741369)) as Hs
    by (by vm_compute).
  assert (strptime_dmy "20.10.2030" = None) as He by (by vm_compute).
  assert (complete "Concert" "19/10/2030" "20.10.2030" 2) as Hc
    by (by repeat split).
  destruct (update_event_unreadable_date strptime_dmy now_2026 1 (concert_event 0)
              "Concert" "19/10/2030" "20.10.2030" 2 db_concert Hev Hc)
    as [_ Hend].
  do 3 (split; [done|]).
  exact (Hend (midnight 741369) Hs He).
Defined.

Lemma request_keeps_ticket_fields_witness :
  tickets db_sold_out !! 1 = Some (mkTicket 1 false now_2026)
  ∧ tickets (handle strptime_dmy concert_day (RedeemTicket 1) db_sold_out).2 !! 1
    = Some (mkTicket 1 true now_2026)
  ∧ sold_at (mkTicket 1 true now_2026) = sold_at (mkTicket 1 false now_2026).
Proof.
  assert (tickets db_sold_out !! 1 = Some (mkTicket 1 false now_2026)) as Ht
    by (by vm_compute).
  assert (tickets (handle strptime_dmy concert_day (RedeemTicket 1) db_sold_out).2
            !! 1 = Some (mkTicket 1 true now_2026)) as Ht'
    by (by vm_compute).
  destruct (request_keeps_ticket_fields strptime_dmy concert_day (RedeemTicket 1)
              db_sold_out 1 _ _ Ht Ht') as (_ & Hsold & _).
  done.
Defined.

Lemma request_moves_tickets_sold_by_one_witness :
  events db_one_sold !! 1 = Some (concert_event 1)
  ∧ events (handle strptime_dmy now_2026 (SellTicket 1) db_one_sold).2 !! 1
    = Some (concert_event 2)
  ∧ (tickets_sold (concert_event 2) = tickets_sold (concert_event 1)
     ∨ (SellTicket 1 = SellTicket 1
        ∧ tickets_sold (concert_event 2) = tickets_sold (concert_event 1) + 1)).
Proof.
  assert (events db_one_sold !! 1 = Some (concert_event 1)) as Hev
    by (by vm_compute).
  assert (events (handle strptime_dmy now_2026 (SellTicket 1) db_one_sold).2 !! 1
          = Some (concert_event 2)) as Hev'
    by (by vm_compute).
  destruct (request_moves_tickets_sold_by_one strptime_dmy now_2026 (SellTicket 1)
              db_one_sold 1 _ _ Hev Hev') as [Hsold _].
  done.
Defined.

Lemma rows_leave_only_by_delete_witness :
  tickets db_sold_out !! 2 = Some (mkTicket 1 false now_2026)
  ∧ tickets (handle strptime_dmy after_concert (DeleteEvent 1) db_sold_out).2 !! 2
    = None
  ∧ DeleteEvent 1 = DeleteEvent (event_id (mkTicket 1 false now_2026)).
Proof.
  assert (tickets db_sold_out !! 2 = Some (mkTicket 1 false now_2026)) as Ht
    by (by vm_compute).
  assert (tickets (handle strptime_dmy after_concert (DeleteEvent 1) db_sold_out).2
            !! 2 = None) as Hgone
    by (by vm_compute).
  split; [exact Ht|]. split; [exact Hgone|].
  exact (proj2 (rows_leave_only_by_delete strptime_dmy after_concert
                  (DeleteEvent 1) db_sold_out) 2 _ Ht Hgone).
Defined.

Lemma rows_enter_only_by_create_and_sell_witness :
  tickets db_one_sold !! 2 = None
  ∧ tickets (handle strptime_dmy concert_day (SellTicket 1) db_one_sold).2 !! 2
    = Some (mkTicket 1 false concert_day)
  ∧ 2 = next_id (tickets db_one_sold).
Proof.
  assert (tickets db_one_sold !! 2 = None) as Hnone by (by vm_compute).
  assert (tickets (handle strptime_dmy concert_day (SellTicket 1) db_one_sold).2
            !! 2 = Some (mkTicket 1 false concert_day)) as Hnew
    by (by vm_compute).
  destruct (proj2 (rows_enter_only_by_create_and_sell strptime_dmy concert_day
                     (SellTicket 1) db_one_sold) 2 _ Hnone Hnew)
    as (_ & Hkey & _).
  done.
Defined.

Lemma deleted_event_is_gone_witness :
  (serve (delete_event 1 after_concert) db_sold_out).1
    = Message 200 "The event was deleted successfully."
  ∧ handle strptime_dmy after_concert (SellTicket 1) db_deleted
    = (Abort404, db_deleted)
  ∧ get_event_details 1 db_deleted = Plain 404 "Event not found".
Proof.
  assert ((serve (delete_event 1 after_concert) db_sold_out).1
          = Message 200 "The event was deleted successfully.") as Hok
    by (by vm_compute).
  destruct (deleted_event_is_gone strptime_dmy after_concert after_concert 1
              db_sold_out Hok) as (Hviews & _ & Hdetails).
  split; [exact Hok|]. split; [|exact Hdetails].
  apply Hviews. right. by left.
Defined.

Lemma delete_refused_only_before_end_day_witness :
  reads_midnight strptime_dmy
  ∧ reachable strptime_dmy db_sold_out
  ∧ events db_sold_out !! 1 = Some (concert_event 2)
  ∧ 0 ≤ micros last_day
  ∧ (serve (delete_event 1 last_day) db_sold_out).1
    = Message 200 "The event was deleted successfully."
  ∧ (serve (delete_event 1 concert_day) db_sold_out).1 = CannotDeleteError.
Proof.
  assert (events db_sold_out !! 1 = Some (concert_event 2)) as Hev
    by (by vm_compute).
  assert (0 ≤ micros last_day) as Hclock by (simpl; lia).
  assert (0 ≤ micros concert_day) as Hclock' by (simpl; lia).
  split; [exact strptime_dmy_midnight|]. split; [exact reachable_db_sold_out|].
  split; [exact Hev|]. split; [exact Hclock|]. split.
  - apply (delete_refused_only_before_end_day strptime_dmy last_day 1 db_sold_out
             (concert_event 2) strptime_dmy_midnight reachable_db_sold_out
             Hev Hclock).
    simpl. lia.
  - apply (delete_refused_only_before_end_day strptime_dmy concert_day 1
             db_sold_out (concert_event 2) strptime_dmy_midnight
             reachable_db_sold_out Hev Hclock').
    simpl. lia.
Defined.

Lemma all_events_lists_every_event_witness :
  events db_sold_out ≠ ∅
  ∧ ∃ rows, get_all_events db_sold_out = EventsPage 200 rows
            ∧ length rows = size (events db_sold_out).
Proof.
  assert (events db_sold_out ≠ ∅) as Hne.
  { intros Hempty. apply (f_equal (λ m, m !! 1)) in Hempty.
    vm_compute in Hempty. discriminate Hempty. }
  split; [exact Hne|].
  destruct (proj2 (all_events_lists_every_event db_sold_out) Hne)
    as (rows & Hpage & Hlen & _).
  by exists rows.
Defined.

Lemma redeem_shows_in_details_witness :
  tickets db_sold_out !! 1 = Some (mkTicket 1 false now_2026)
  ∧ (serve (redeem_ticket 1 concert_day) db_sold_out).1
    = Message 200 "Ticket redeemed successfully."
  ∧ ∀ k, k ≠ 1 →
         get_event_details k (serve (redeem_ticket 1 concert_day) db_sold_out).2
         = get_event_details k db_sold_out.
Proof.
  assert (tickets db_sold_out !! 1 = Some (mkTicket 1 false now_2026)) as Ht
    by (by vm_compute).
  assert ((serve (redeem_ticket 1 concert_day) db_sold_out).1
          = Message 200 "Ticket redeemed successfully.") as Hok
    by (by vm_compute).
  split; [exact Ht|]. split; [exact Hok|].
  exact (proj2 (redeem_shows_in_details concert_day 1 db_sold_out _ Ht Hok)).
Defined.

Lemma sale_shows_in_details_witness :
  events db_one_sold !! 1 = Some (concert_event 1)
  ∧ tickets_sold (concert_event 1) < total_tickets (concert_event 1)
  ∧ get_event_details 1 (serve (sell_ticket 1 now_2026) db_one_sold).2
    = DetailsPage 200
        (View.mkDetails (name (concert_event 1)) (start_date (concert_event 1))
           (end_date (concert_event 1)) (total_tickets (concert_event 1))
           (tickets_sold (concert_event 1) + 1) (count_redeemed 1 db_one_sold)).
Proof.
  assert (events db_one_sold !! 1 = Some (concert_event 1)) as Hev
    by (by vm_compute).
  assert (tickets_sold (concert_event 1) < total_tickets (concert_event 1))
    as Hroom by (simpl; lia).
  split; [exact Hev|]. split; [exact Hroom|].
  exact (proj1 (sale_shows_in_details now_2026 1 db_one_sold _ Hev Hroom)).
Defined.

Lemma created_event_reads_back_witness :
  reachable strptime_dmy empty_db
  ∧ (serve (create_event strptime_dmy now_2026 concert) empty_db).1
    = MessageId 200 "Event created successfully." "event_id" 1
  ∧ ∃ n s e t sd ed,
      concert = mkBody (Val n) (Val s) (Val e) (Val t)
      ∧ strptime_dmy s = Some sd ∧ strptime_dmy e = Some ed
      ∧ get_event_details 1 (serve (create_event strptime_dmy now_2026 concert)
                               empty_db).2
        = DetailsPage 200 (View.mkDetails n sd ed t 0 0).
Proof.
  assert ((serve (create_event strptime_dmy now_2026 concert) empty_db).1
          = MessageId 200 "Event created successfully." "event_id" 1) as Hok
    by (by vm_compute).
  split; [apply reachable_empty|]. split; [exact Hok|].
  exact (proj1 (created_event_reads_back strptime_dmy now_2026 concert empty_db 1
                  (reachable_empty strptime_dmy) Hok)).
Defined.

Lemma updated_capacity_governs_sales_witness :
  events db_one_sold !! 1 = Some (concert_event 1)
  ∧ b_total_tickets concert_shrunk = Val 1
  ∧ (serve (update_event strptime_dmy 1 now_2026 concert_shrunk) db_one_sold).1
    = Message 200 "Event updated successfully."
  ∧ (serve (sell_ticket 1 concert_day)
       (serve (update_event strptime_dmy 1 now_2026 concert_shrunk) db_one_sold).2).1
    = CapacityExceededError.
Proof.
  assert (events db_one_sold !! 1 = Some (concert_event 1)) as Hev
    by (by vm_compute).
  assert ((serve (update_event strptime_dmy 1 now_2026 concert_shrunk) db_one_sold).1
          = Message 200 "Event updated successfully.") as Hok
    by (by vm_compute).
  destruct (updated_capacity_governs_sales strptime_dmy now_2026 concert_day 1
              concert_shrunk db_one_sold (concert_event 1) 1 Hev eq_refl Hok)
    as (_ & _ & Hclosed).
  split; [exact Hev|]. split; [done|]. split; [exact Hok|].
  by apply Hclosed.
Defined.

(** ** The views on any number and any key *)

Ltac wide_unfold :=
  unfold Wide.handle, Wide.create_event, Wide.update_event, Wide.delete_event,
    Wide.sell_ticket, Wide.redeem_ticket, Wide.finish, Wide.get_or_404,
    Wide.query_get, Wide.item, Wide.jsonify_set, Wide.stop, Wide.raise,
    Wide.overflow,
    mbind, Wide.step_bind, mret, Wide.step_ret; simpl.

Lemma wide_range_finite (v : Wide.number) :
  Wide.int_le 1 v && Wide.le_int v 300 = true →
  ∃ q, v = Wide.Finite q ∧ (1 <= q)%Q ∧ (q <= 300)%Q.
Proof.
  intros H. apply andb_prop in H as [H1 H2].
  destruct v as [q| | |]; try done. exists q.
  apply Qle_bool_iff in H1, H2. done.
Qed.

Lemma wide_not_lt_int (q : Q) (n : Z) :
  Wide.lt_int (Wide.Finite q) n = false → (inject_Z n <= q)%Q.
Proof.
  simpl. intros H. apply negb_false_iff in H. by apply Qle_bool_iff.
Qed.

Lemma wide_not_le_int (q : Q) (n : Z) :
  Wide.le_int (Wide.Finite q) n = false → (inject_Z n < q)%Q.
Proof.
  simpl. intros H. apply Qnot_le_lt. intros Hle.
  apply Qle_bool_iff in Hle. congruence.
Qed.

Lemma wide_sell_ticket_eq (now : datetime) (id : Z) (d : Wide.database) :
  Wide.sell_ticket id now d =
  if Wide.sqlite_int id then
    match Wide.events d !! id with
    | None => (Abort404, d)
    | Some ev =>
        if Wide.le_int (Wide.total_tickets ev) (Wide.tickets_sold ev)
        then (CapacityExceededError, d)
        else (sold_response id,
              Wide.mkDb (<[id := Wide.set_tickets_sold (Wide.tickets_sold ev + 1) ev]>
                           (Wide.events d))
                        (<[next_id (Wide.tickets d) := mkTicket id false now]>
                           (Wide.tickets d)))
    end
  else (Wide.overflow, d).
Proof.
  wide_unfold. destruct (Wide.sqlite_int id); simpl; [|done].
  destruct (Wide.events d !! id) as [ev|]; simpl; [|done].
  by destruct (Wide.le_int (Wide.total_tickets ev) (Wide.tickets_sold ev)).
Qed.

Lemma wide_delete_event_eq (now : datetime) (id : Z) (d : Wide.database) :
  Wide.delete_event id now d =
  if Wide.sqlite_int id then
    match Wide.events d !! id with
    | None => (Abort404, d)
    | Some ev =>
        if (0 <? Wide.tickets_sold ev) && dt_gtb (Wide.end_date ev) now
        then (CannotDeleteError, d)
        else (Message 200 "The event was deleted successfully.",
              Wide.mkDb (delete id (Wide.events d))
                        (tickets_without id (Wide.tickets d)))
    end
  else (Wide.overflow, d).
Proof.
  wide_unfold. destruct (Wide.sqlite_int id); simpl; [|done].
  destruct (Wide.events d !! id) as [ev|]; simpl; [|done].
  by destruct ((0 <? Wide.tickets_sold ev) && dt_gtb (Wide.end_date ev) now).
Qed.

Lemma wide_redeem_ticket_eq (now : datetime) (id : Z) (d : Wide.database) :
  Wide.redeem_ticket id now d =
  if Wide.sqlite_int id then
    match Wide.tickets d !! id with
    | None => (Abort404, d)
    | Some t =>
        if redeemed t then (AlreadyRedeemedError, d)
        else match Wide.events d !! event_id t with
             | None =>
                 (Unhandled (AttributeError "'NoneType' object has no attribute 'start_date'"), d)
             | Some ev =>
                 if (date (Wide.start_date ev) <=? date now)
                    && (date now <=? date (Wide.end_date ev))
                 then (Message 200 "Ticket redeemed successfully.",
                       Wide.mkDb (Wide.events d)
                                 (<[id := set_redeemed true t]> (Wide.tickets d)))
                 else (OutOfWindowError, d)
             end
    end
  else (Wide.overflow, d).
Proof.
  wide_unfold. destruct (Wide.sqlite_int id); simpl; [|done].
  destruct (Wide.tickets d !! id) as [t|]; simpl; [|done].
  destruct (redeemed t); simpl; [done|].
  destruct (Wide.events d !! event_id t) as [ev|]; simpl; [|done].
  by destruct ((date (Wide.start_date ev) <=? date now)
               && (date now <=? date (Wide.end_date ev))).
Qed.

Section WideEquations.

Variable strptime : string → option datetime.

Ltac split_view :=
  repeat (simpl;
    match goal with
    | |- context [strptime ?s] => destruct (strptime s) eqn:?
    | |- context [if ?b then _ else _] => destruct b eqn:?
    end); simpl.

Lemma wide_create_event_inv (now : datetime) (data : Wide.body)
    (d : Wide.database) :
  (succeeded (Wide.create_event strptime now data d).1 = false
   ∧ (Wide.create_event strptime now data d).2 = d)
  ∨ (∃ n s e q sd ed,
       data = Wide.mkBody (Val n) (Val s) (Val e) (Val (Wide.Finite q))
       ∧ strptime s = Some sd ∧ strptime e = Some ed
       ∧ date now ≤ date sd ∧ date sd ≤ date ed
       ∧ (1 <= q)%Q ∧ (q <= 300)%Q
       ∧ Wide.create_event strptime now data d =
         (MessageId 200 "Event created successfully." "event_id"
            (next_id (Wide.events d)),
          Wide.mkDb (<[next_id (Wide.events d) :=
                         Wide.mkEvent n sd ed (Wide.Finite q) 0]> (Wide.events d))
                    (Wide.tickets d))).
Proof.
  destruct data as [[| |n] [| |s] [| |e] [| |v]];
    try (left; wide_unfold; split_view; done).
  wide_unfold. split_view; try (by left).
  right.
  match goal with H : negb (Wide.int_le 1 v && Wide.le_int v 300) = false |- _ =>
    apply negb_false_iff, wide_range_finite in H as (q & -> & Hq1 & Hq2) end.
  reflect_Z. exists n, s, e, q. do 2 eexists. by repeat split.
Qed.

Lemma wide_update_event_inv (now : datetime) (id : Z) (data : Wide.body)
    (d : Wide.database) :
  (succeeded (Wide.update_event strptime id now data d).1 = false
   ∧ (Wide.update_event strptime id now data d).2 = d)
  ∨ (∃ ev n s e q sd ed,
       Wide.sqlite_int id = true
       ∧ Wide.events d !! id = Some ev
       ∧ data = Wide.mkBody (Val n) (Val s) (Val e) (Val (Wide.Finite q))
       ∧ strptime s = Some sd ∧ strptime e = Some ed
       ∧ date now ≤ date sd ∧ date sd ≤ date ed
       ∧ (1 <= q)%Q ∧ (q <= 300)%Q
       ∧ (inject_Z (Wide.tickets_sold ev) <= q)%Q
       ∧ Wide.update_event strptime id now data d =
         (Message 200 "Event updated successfully.",
          Wide.mkDb (<[id := Wide.mkEvent n sd ed (Wide.Finite q)
                               (Wide.tickets_sold ev)]> (Wide.events d))
                    (Wide.tickets d))).
Proof.
  wide_unfold.
  destruct (Wide.sqlite_int id) eqn:Hid; simpl; [|by left].
  destruct (Wide.events d !! id) as [ev|] eqn:Hev; simpl; [|by left].
  destruct data as [[| |n] [| |s] [| |e] [| |v]];
    try (left; split_view; done).
  split_view; try (by left).
  right.
  match goal with H : negb (Wide.int_le 1 v && Wide.le_int v 300) = false |- _ =>
    apply negb_false_iff, wide_range_finite in H as (q & -> & Hq1 & Hq2) end.
  match goal with H : Wide.lt_int _ _ = false |- _ =>
    apply wide_not_lt_int in H end.
  reflect_Z. exists ev, n, s, e, q. do 2 eexists. by repeat split.
Qed.

Lemma wide_handle_effect (now : datetime) (r : Wide.request)
    (d : Wide.database) :
  Wide.effect now d r (Wide.handle strptime now r d).2.
Proof.
  destruct r as [data|id data|id|id|id]; unfold Wide.handle.
  - destruct (wide_create_event_inv now data d)
      as [[_ ->]|(n & s & e & q & sd & ed & _ & _ & _ & _ & Hle & Hq1 & Hq2 & ->)];
      [constructor|].
    apply Wide.effect_create; [done|by exists q|done].
  - destruct (wide_update_event_inv now id data d)
      as [[_ ->]|(ev & n & s & e & q & sd & ed & Hid & Hev & _ & _ & _ & _ & Hle
                  & Hq1 & Hq2 & Hsold & ->)];
      [constructor|].
    eapply Wide.effect_update; [done|done|done|by exists q|done].
  - rewrite wide_delete_event_eq. destruct (Wide.sqlite_int id); [|constructor].
    destruct (Wide.events d !! id) as [ev|] eqn:Hev; [|constructor].
    case_match; [constructor|]. by eapply Wide.effect_delete.
  - rewrite wide_sell_ticket_eq. destruct (Wide.sqlite_int id); [|constructor].
    destruct (Wide.events d !! id) as [ev|] eqn:Hev; [|constructor].
    case_match; [constructor|]. by eapply Wide.effect_sell.
  - rewrite wide_redeem_ticket_eq. destruct (Wide.sqlite_int id); [|constructor].
    destruct (Wide.tickets d !! id) as [t|] eqn:Ht; [|constructor].
    destruct (redeemed t) eqn:Hr; [constructor|].
    repeat case_match; first [by apply Wide.effect_redeem | apply Wide.effect_none].
Qed.

End WideEquations.

(** *** What every reachable database keeps *)

Section WideInvariants.

Variable strptime : string → option datetime.

Lemma wide_handle_preserves_consistent (now : datetime) (r : Wide.request)
    (d : Wide.database) :
  Wide.consistent d → Wide.consistent (Wide.handle strptime now r d).2.
Proof.
  intros [Hev Hfk]. pose proof (wide_handle_effect strptime now r d) as Heff.
  remember (Wide.handle strptime now r d).2 as d' eqn:Hd'. clear Hd'.
  destruct Heff as [r|data new Hsold (q & Hq & Hq1 & Hq2) Hdates
                    |k data old new Hk Hold Hsame (q & Hq & Hq1 & Hq2 & Hle) Hdates
                    |k old Hold|k old Hold Hroom|k u Hu Hr];
    [done|..]; split; simpl.
  - intros id ev. rewrite lookup_insert. case_decide; [|apply Hev].
    intros [= <-]. subst id. split; [apply next_id_positive|].
    split; [lia|]. split; [|done]. exists q. rewrite Hsold.
    repeat (split; [done|]). change (inject_Z 0) with 0%Q. lra.
  - intros tid t Ht. destruct (Hfk tid t Ht) as [? Hsome]. split; [done|].
    rewrite lookup_insert. case_decide; [by eexists|done].
  - intros id ev. rewrite lookup_insert. case_decide; [|apply Hev].
    intros [= <-]. subst id. destruct (Hev _ _ Hold) as (? & ? & _ & _).
    split; [done|]. split; [lia|]. split; [|done]. exists q. rewrite Hsame.
    repeat (split; [done|]). lra.
  - intros tid t Ht. destruct (Hfk tid t Ht) as [? Hsome]. split; [done|].
    rewrite lookup_insert. case_decide; [by eexists|done].
  - intros id ev. rewrite lookup_delete. case_decide; [done|]. apply Hev.
  - intros tid t. rewrite tickets_without_lookup. intros [Ht Hne].
    destruct (Hfk tid t Ht) as [? Hsome]. split; [done|].
    by rewrite lookup_delete_ne.
  - intros id ev. rewrite lookup_insert. case_decide; [|apply Hev].
    intros [= <-]. subst id.
    destruct (Hev _ _ Hold) as (? & ? & (q & Hq & Hq1 & Hq2 & Hlt) & ?).
    split; [done|]. split; [simpl; lia|]. split; [|done]. exists q. simpl.
    repeat (split; [done|]). rewrite Hq in Hroom.
    apply wide_not_le_int in Hroom. rewrite inject_Z_plus.
    change (inject_Z 1) with 1%Q. lra.
  - intros tid t. rewrite lookup_insert. case_decide.
    + intros [= <-]. subst tid. split; [apply next_id_positive|]. simpl.
      rewrite lookup_insert_eq. by eexists.
    + intros Ht. destruct (Hfk tid t Ht) as [? Hsome]. split; [done|].
      rewrite lookup_insert. case_decide; [by eexists|done].
  - done.
  - intros tid t. rewrite lookup_insert. case_decide; [|apply Hfk].
    intros [= <-]. subst tid. simpl. by apply Hfk.
Qed.

Lemma wide_reachable_consistent (d : Wide.database) :
  Wide.reachable strptime d → Wide.consistent d.
Proof.
  induction 1 as [|d now r _ IH].
  - split; intros k x; simpl; by rewrite lookup_empty.
  - by apply wide_handle_preserves_consistent.
Qed.

Lemma wide_handle_preserves_counted (now : datetime) (r : Wide.request)
    (d : Wide.database) :
  Wide.consistent d → Wide.counted d →
  Wide.counted (Wide.handle strptime now r d).2.
Proof.
  intros [_ Hfk] Hcount. pose proof (wide_handle_effect strptime now r d) as Heff.
  remember (Wide.handle strptime now r d).2 as d' eqn:Hd'. clear Hd'.
  destruct Heff as [r|data new Hsold _ _|k data old new Hk Hold Hsame _ _
                    |k old Hold|k old Hold Hroom|k u Hu Hr];
    [done|..]; intros id ev; simpl.
  - rewrite lookup_insert. case_decide; [|apply Hcount].
    intros [= <-]. subst id. rewrite Hsold.
    replace (tickets_of (next_id (Wide.events d)) (Wide.tickets d)) with
      (∅ : gmap Z Ticket); [by rewrite map_size_empty|].
    symmetry. apply map_empty. intros tid.
    destruct (tickets_of _ _ !! tid) as [t|] eqn:E; [|done].
    apply tickets_of_lookup in E as [Ht He].
    destruct (Hfk tid t Ht) as [_ [ev' Hev']]. rewrite He in Hev'.
    pose proof (next_id_fresh (Wide.events d)). congruence.
  - rewrite lookup_insert. case_decide; [|apply Hcount].
    intros [= <-]. subst id. rewrite Hsame. by apply Hcount.
  - rewrite lookup_delete. case_decide; [done|].
    intros Hid. rewrite tickets_of_without by done. by apply Hcount.
  - rewrite lookup_insert. case_decide.
    + intros [= <-]. subst id. simpl.
      rewrite tickets_of_insert_same by done.
      rewrite (map_size_insert_None (next_id (Wide.tickets d)) _
                 (tickets_of k (Wide.tickets d)))
        by (apply tickets_of_lookup_None, next_id_fresh).
      rewrite (Hcount _ _ Hold). lia.
    + intros Hid. rewrite tickets_of_insert_other; [by apply Hcount|simpl; congruence|].
      apply tickets_of_lookup_None, next_id_fresh.
  - intros Hid. rewrite (Hcount _ _ Hid). f_equal.
    destruct (decide (event_id u = id)) as [Heq|Hne].
    + rewrite tickets_of_insert_same by done.
      rewrite (map_size_insert_Some k _ (tickets_of id (Wide.tickets d))); [done|].
      exists u. by apply tickets_of_lookup.
    + rewrite tickets_of_insert_other; [done|done|].
      destruct (tickets_of id (Wide.tickets d) !! k) as [w|] eqn:Hw; [|done].
      apply tickets_of_lookup in Hw as [Hw1 Hw2]. congruence.
Qed.

Lemma wide_reachable_counted (d : Wide.database) :
  Wide.reachable strptime d → Wide.counted d.
Proof.
  induction 1 as [|d now r Hd IH].
  - intros id ev; simpl. by rewrite lookup_empty.
  - apply wide_handle_preserves_counted; [by apply wide_reachable_consistent|done].
Qed.

End WideInvariants.

(** *** The inventory on any number *)

Section WideInventory.

Variable strptime : string → option datetime.

Ltac split_view :=
  repeat (simpl;
    match goal with
    | |- context [strptime ?s] => destruct (strptime s) eqn:?
    | |- context [if ?b then _ else _] => destruct b eqn:?
    end); simpl.

Lemma wide_reachable_run (trace : list (datetime * Wide.request))
    (d : Wide.database) :
  Wide.reachable strptime d → Wide.reachable strptime (Wide.run strptime trace d).
Proof.
  revert d. induction trace as [|[now r] rest IH]; intros d Hd; simpl; [done|].
  apply IH. by constructor.
Qed.



End WideInventory.


(** *** Reachable databases, keys and exceptions on any number *)

Section WideEdges.

Variable strptime : string → option datetime.

Ltac split_view :=
  repeat (simpl;
    match goal with
    | |- context [strptime ?s] => destruct (strptime s) eqn:?
    | |- context [if ?b then _ else _] => destruct b eqn:?
    end); simpl.

(** X2. In every database the service can reach, whatever numbers the
    bodies held and whatever keys the requests named: the keys are at
    least 1; every event has sold at least 0 tickets and less than one
    above its capacity, which is a finite number within 1..300, and starts
    no later than it ends; every ticket belongs to an event of the
    database. *)
Theorem reachable_database_sound (d : Wide.database) :
  Wide.reachable strptime d →
  (∀ id ev, Wide.events d !! id = Some ev →
     1 ≤ id
     ∧ 0 ≤ Wide.tickets_sold ev
     ∧ (∃ q, Wide.total_tickets ev = Wide.Finite q
             ∧ (1 <= q)%Q ∧ (q <= 300)%Q
             ∧ (inject_Z (Wide.tickets_sold ev) < q + 1)%Q)
     ∧ date (Wide.start_date ev) ≤ date (Wide.end_date ev))
  ∧ (∀ tid t, Wide.tickets d !! tid = Some t →
       1 ≤ tid ∧ ∃ ev, Wide.events d !! event_id t = Some ev).
Proof.
  intros Hreach.
  destruct (wide_reachable_consistent strptime d Hreach) as [Hok Hfk].
  split.
  - intros id ev Hev. destruct (Hok id ev Hev) as (? & ? & ? & ?). done.
  - intros tid t Ht. destruct (Hfk tid t Ht) as [? [ev Hev]]. eauto.
Qed.

(** X3. A request is answered 404 exactly when SQLite can hold the key it
    names and the row it looks up first is missing; then the database is
    unchanged. A request whose key SQLite cannot hold leaves the view with
    an [OverflowError], and the database unchanged, whether the row exists
    or not. *)
Theorem not_found_iff_key_bound_and_row_missing (now : datetime)
    (r : Wide.request) (d : Wide.database) :
  ((Wide.handle strptime now r d).1 = Abort404
   ↔ Wide.key_bound r ∧ Wide.row_missing r d)
  ∧ (Wide.key_bound r → Wide.row_missing r d →
     Wide.handle strptime now r d = (Abort404, d))
  ∧ (¬ Wide.key_bound r →
     Wide.handle strptime now r d = (Wide.overflow, d)).
Proof.
  split; [|split].
  - destruct r as [data|id data|id|id|id]; unfold Wide.handle; simpl.
    + split; [|tauto]. intros H. exfalso. revert H.
      destruct (wide_create_event_inv strptime now data d)
        as [[Hf _]|(n & s & e & q & sd & ed & _ & _ & _ & _ & _ & _ & _ & ->)];
        [|done].
      unfold Wide.create_event, Wide.finish, Wide.item, Wide.jsonify_set,
        Wide.stop, Wide.raise, mbind, Wide.step_bind, mret, Wide.step_ret.
      destruct data as [[| |n] [| |s] [| |e] [| |t]]; simpl; try done;
        split_view; try done; repeat case_match; done.
    + split.
      * intros H.
        destruct (Wide.sqlite_int id) eqn:Hid;
          [|by revert H; unfold Wide.update_event, Wide.finish,
              Wide.get_or_404, Wide.query_get, mbind, Wide.step_bind;
              rewrite Hid].
        split; [done|].
        destruct (Wide.events d !! id) as [ev|] eqn:Hev; [|done].
        exfalso. revert H.
        unfold Wide.update_event, Wide.finish, Wide.get_or_404,
          Wide.query_get, Wide.item, Wide.jsonify_set, Wide.stop, Wide.raise,
          mbind, Wide.step_bind, mret, Wide.step_ret.
        rewrite Hid. simpl. rewrite Hev.
        destruct data as [[| |n] [| |s] [| |e] [| |t]]; simpl; try done;
          split_view; done.
      * intros [Hid Hev].
        unfold Wide.update_event, Wide.finish, Wide.get_or_404,
          Wide.query_get, mbind, Wide.step_bind, mret, Wide.step_ret.
        rewrite Hid. simpl. by rewrite Hev.
    + rewrite wide_delete_event_eq. split.
      * intros H. destruct (Wide.sqlite_int id); [|done]. split; [done|].
        destruct (Wide.events d !! id); [|done].
        by repeat case_match.
      * intros [-> ->]. done.
    + rewrite wide_sell_ticket_eq. split.
      * intros H. destruct (Wide.sqlite_int id); [|done]. split; [done|].
        destruct (Wide.events d !! id); [|done].
        by repeat case_match.
      * intros [-> ->]. done.
    + rewrite wide_redeem_ticket_eq. split.
      * intros H. destruct (Wide.sqlite_int id); [|done]. split; [done|].
        destruct (Wide.tickets d !! id); [|done].
        by repeat case_match.
      * intros [-> ->]. done.
  - destruct r as [data|id data|id|id|id]; unfold Wide.handle; simpl;
      intros Hid Hev; try done.
    + unfold Wide.update_event, Wide.finish, Wide.get_or_404,
        Wide.query_get, mbind, Wide.step_bind, mret, Wide.step_ret.
      rewrite Hid. simpl. by rewrite Hev.
    + by rewrite wide_delete_event_eq, Hid, Hev.
    + by rewrite wide_sell_ticket_eq, Hid, Hev.
    + by rewrite wide_redeem_ticket_eq, Hid, Hev.
  - destruct r as [data|id data|id|id|id]; unfold Wide.handle; simpl;
      intros Hid; try done; apply not_true_is_false in Hid.
    + unfold Wide.update_event, Wide.finish, Wide.get_or_404,
        Wide.query_get, mbind, Wide.step_bind, mret, Wide.step_ret.
      by rewrite Hid.
    + by rewrite wide_delete_event_eq, Hid.
    + by rewrite wide_sell_ticket_eq, Hid.
    + by rewrite wide_redeem_ticket_eq, Hid.
Qed.

Lemma wide_count_redeemed_le_tickets_of (eid : Z) (d : Wide.database) :
  0 ≤ Wide.count_redeemed eid d
    ≤ Z.of_nat (size (tickets_of eid (Wide.tickets d))).
Proof.
  unfold Wide.count_redeemed, tickets_of. split; [lia|].
  apply inj_le, map_subseteq_size, map_filter_subseteq_ext.
  intros k t _ [He _]. done.
Qed.

(** X17. [get_event_details] answers 404 exactly when SQLite can hold the
    key and no event has it, and leaves with an [OverflowError] for a key
    SQLite cannot hold. For an event of a database the service can reach
    it answers 200 with the fields of the event, where the tickets
    redeemed are at least 0 and at most the tickets sold, and the tickets
    sold are less than one above the capacity. *)
Theorem event_details_counts_bounded (d : Wide.database) (id : Z) :
  Wide.reachable strptime d →
  (Wide.get_event_details id d = Wide.Plain 404 "Event not found"
   ↔ Wide.sqlite_int id = true ∧ Wide.events d !! id = None)
  ∧ (Wide.sqlite_int id = false →
     Wide.get_event_details id d = Wide.Left Wide.overflow)
  ∧ (∀ ev, Wide.sqlite_int id = true → Wide.events d !! id = Some ev →
       ∃ v q,
         Wide.get_event_details id d = Wide.DetailsPage 200 v
         ∧ Wide.v_name v = Wide.name ev
         ∧ Wide.v_start_date v = Wide.start_date ev
         ∧ Wide.v_end_date v = Wide.end_date ev
         ∧ Wide.v_total_tickets v = Wide.total_tickets ev
         ∧ Wide.v_tickets_sold v = Wide.tickets_sold ev
         ∧ Wide.v_tickets_redeemed v = Wide.count_redeemed id d
         ∧ 0 ≤ Wide.v_tickets_redeemed v ≤ Wide.v_tickets_sold v
         ∧ Wide.v_total_tickets v = Wide.Finite q
         ∧ (inject_Z (Wide.v_tickets_sold v) < q + 1)%Q).
Proof.
  intros Hreach. unfold Wide.get_event_details, Wide.query_get.
  split; [|split].
  - destruct (Wide.sqlite_int id); simpl; [|by split; [|intros [? _]]].
    destruct (Wide.events d !! id); simpl; split; try done.
    by intros [_ ?].
  - intros ->. done.
  - intros ev -> Hev. simpl. rewrite Hev.
    destruct (wide_reachable_consistent strptime d Hreach) as [Hok _].
    destruct (Hok id ev Hev) as (_ & _ & (q & Hq & _ & _ & Hlt) & _).
    pose proof (wide_count_redeemed_le_tickets_of id d) as Hle.
    rewrite <- (wide_reachable_counted strptime d Hreach id ev Hev) in Hle.
    eexists. exists q. split; [done|]. simpl.
    do 6 (split; [done|]). split; [lia|]. done.
Qed.

(** X23. In a database the service can reach, a request without a body
    ([DeleteEvent], [SellTicket], [RedeemTicket]) leaves its view with an
    exception exactly when SQLite cannot hold the key it names, and the
    exception is then an [OverflowError]. *)
Theorem bodiless_request_raises_only_overflow (now : datetime)
    (r : Wide.request) (d : Wide.database) (exc : exception) :
  Wide.reachable strptime d → Wide.bodiless r →
  ((Wide.handle strptime now r d).1 = Unhandled exc
   ↔ ¬ Wide.key_bound r ∧ Unhandled exc = Wide.overflow).
Proof.
  intros Hreach Hr.
  destruct (wide_reachable_consistent strptime d Hreach) as [_ Hfk].
  destruct r as [data|id data|id|id|id]; try done; unfold Wide.handle; simpl.
  - rewrite wide_delete_event_eq.
    destruct (Wide.sqlite_int id); simpl.
    + split; [|by intros [? _]]. by repeat case_match.
    + split; [by intros ->|by intros [_ ->]].
  - rewrite wide_sell_ticket_eq.
    destruct (Wide.sqlite_int id); simpl.
    + split; [|by intros [? _]]. by repeat case_match.
    + split; [by intros ->|by intros [_ ->]].
  - rewrite wide_redeem_ticket_eq.
    destruct (Wide.sqlite_int id); simpl.
    + split; [|by intros [? _]].
      destruct (Wide.tickets d !! id) as [t|] eqn:Ht; [|done].
      destruct (Hfk id t Ht) as [_ [ev Hev]]. rewrite Hev.
      by repeat case_match.
    + split; [by intros ->|by intros [_ ->]].
Qed.

End WideEdges.

(** ** The theorems on the oversold concert *)

Lemma reachable_db_oversold : Wide.reachable strptime_dmy Wide.db_oversold.
Proof. apply wide_reachable_run, Wide.reachable_empty. Qed.


Lemma reachable_database_sound_witness :
  Wide.reachable strptime_dmy Wide.db_oversold
  ∧ (∀ tid t, Wide.tickets Wide.db_oversold !! tid = Some t →
       1 ≤ tid ∧ ∃ ev, Wide.events Wide.db_oversold !! event_id t = Some ev).
Proof.
  split; [exact reachable_db_oversold|].
  exact (proj2 (reachable_database_sound strptime_dmy Wide.db_oversold
                  reachable_db_oversold)).
Defined.

Lemma not_found_iff_key_bound_and_row_missing_witness :
  Wide.handle strptime_dmy now_2026 (Wide.SellTicket 9) Wide.db_oversold
    = (Abort404, Wide.db_oversold)
  ∧ Wide.handle strptime_dmy now_2026 (Wide.SellTicket (2 ^ 63)) Wide.db_oversold
    = (Wide.overflow, Wide.db_oversold)
  ∧ Wide.handle strptime_dmy now_2026 (Wide.SellTicket (2 ^ 63 - 1))
      Wide.db_oversold
    = (Abort404, Wide.db_oversold).
Proof.
  split; [|split].
  - apply (not_found_iff_key_bound_and_row_missing strptime_dmy now_2026
             (Wide.SellTicket 9) Wide.db_oversold); by vm_compute.
  - apply (not_found_iff_key_bound_and_row_missing strptime_dmy now_2026
             (Wide.SellTicket (2 ^ 63)) Wide.db_oversold). by vm_compute.
  - apply (not_found_iff_key_bound_and_row_missing strptime_dmy now_2026
             (Wide.SellTicket (2 ^ 63 - 1)) Wide.db_oversold); by vm_compute.
Defined.

Lemma event_details_counts_bounded_witness :
  Wide.reachable strptime_dmy Wide.db_oversold
  ∧ Wide.events Wide.db_oversold !! 1 = Some Wide.oversold_event
  ∧ Wide.get_event_details (2 ^ 63) Wide.db_oversold = Wide.Left Wide.overflow
  ∧ ∃ v, Wide.get_event_details 1 Wide.db_oversold = Wide.DetailsPage 200 v
         ∧ 0 ≤ Wide.v_tickets_redeemed v ≤ Wide.v_tickets_sold v.
Proof.
  assert (Wide.events Wide.db_oversold !! 1 = Some Wide.oversold_event) as Hev
    by (by vm_compute).
  destruct (event_details_counts_bounded strptime_dmy Wide.db_oversold 1
              reachable_db_oversold) as (_ & _ & Hshow).
  destruct (event_details_counts_bounded strptime_dmy Wide.db_oversold (2 ^ 63)
              reachable_db_oversold) as (_ & Hover & _).
  split; [exact reachable_db_oversold|]. split; [exact Hev|].
  split; [by apply Hover|].
  destruct (Hshow _ eq_refl Hev)
    as (v & q & Hpage & _ & _ & _ & _ & _ & _ & Hcounts & _).
  by exists v.
Defined.

Lemma bodiless_request_raises_only_overflow_witness :
  Wide.reachable strptime_dmy Wide.db_oversold
  ∧ Wide.bodiless (Wide.RedeemTicket (2 ^ 63))
  ∧ ¬ Wide.key_bound (Wide.RedeemTicket (2 ^ 63))
  ∧ (Wide.handle strptime_dmy now_2026 (Wide.RedeemTicket (2 ^ 63))
       Wide.db_oversold).1
    = Unhandled
        (OverflowError "Python int too large to convert to SQLite INTEGER").
Proof.
  assert (¬ Wide.key_bound (Wide.RedeemTicket (2 ^ 63))) as Hkey
    by (by vm_compute).
  split; [exact reachable_db_oversold|]. split; [exact I|].
  split; [exact Hkey|].
  apply (bodiless_request_raises_only_overflow strptime_dmy now_2026
           (Wide.RedeemTicket (2 ^ 63)) Wide.db_oversold _
           reachable_db_oversold I).
  split; [exact Hkey|done].
Defined.

(** ** The integer views within the views on a number *)

Lemma Qle_bool_inject_Z (a b : Z) :
  Qle_bool (inject_Z a) (inject_Z b) = (a <=? b).
Proof. unfold Qle_bool. simpl. by rewrite !Z.mul_1_r. Qed.

Lemma Qeq_bool_inject_Z_0 (a : Z) : Qeq_bool (inject_Z a) 0 = (a =? 0).
Proof. unfold Qeq_bool. simpl. by rewrite Z.mul_1_r. Qed.

Lemma next_id_fmap {A B} (f : A → B) (m : gmap Z A) :
  next_id (f <$> m) = next_id m.
Proof.
  unfold next_id. by rewrite map_to_list_fmap, <- list_fmap_compose.
Qed.

Section Widening.

Variable strptime : string → option datetime.

Ltac split_view :=
  repeat (simpl;
    match goal with
    | |- context [strptime ?s] => destruct (strptime s) eqn:?
    | |- context [if ?b then _ else _] => destruct b eqn:?
    end); simpl.

Ltac widen_simpl :=
  simpl; rewrite ?Qle_bool_inject_Z, ?Qeq_bool_inject_Z_0, ?lookup_fmap,
    ?next_id_fmap.

(** X24. On a body whose capacity is an integer and with a key SQLite can
    hold, a view on a number answers as the view on an integer does and
    leaves the same database: for such requests [total_tickets] behaves as
    the integer the annotations of [app.py] promise. *)
Theorem typed_views_are_wide_views (now : datetime) (r : request)
    (d : database) :
  Wide.key_bound (widen_request r) →
  Wide.handle strptime now (widen_request r) (widen_database d)
  = ((handle strptime now r d).1, widen_database (handle strptime now r d).2).
Proof.
  destruct r as [data|id data|id|id|id];
    cbn [widen_request Wide.key_bound Wide.handle]; intros Hid.
  - unfold_view. wide_unfold.
    destruct data as [[| |n] [| |s] [| |e] [| |t]]; widen_simpl; try done.
    all: split_view; try done.
    all: try (unfold widen_database; simpl; by rewrite fmap_insert).
  - unfold_view. wide_unfold. rewrite Hid. widen_simpl.
    destruct (events d !! id) as [ev|] eqn:Hev; simpl; [|done].
    destruct data as [[| |n] [| |s] [| |e] [| |t]]; widen_simpl; try done.
    all: split_view; try done.
    all: rewrite ?Qle_bool_inject_Z in *; reflect_Z; try lia.
    all: unfold widen_database; simpl; rewrite ?insert_insert_eq, ?fmap_insert.
    all: try done.
  - unfold handle, route. rewrite delete_event_eq, wide_delete_event_eq, Hid.
    widen_simpl. destruct (events d !! id) as [ev|]; simpl; [|done].
    unfold dt_gtb.
    destruct ((0 <? tickets_sold ev) && dt_ltb now (end_date ev)); [done|].
    unfold widen_database. simpl. by rewrite fmap_delete.
  - unfold handle, route. rewrite sell_ticket_eq, wide_sell_ticket_eq, Hid.
    widen_simpl. destruct (events d !! id) as [ev|]; simpl; [|done].
    rewrite Qle_bool_inject_Z.
    destruct (total_tickets ev <=? tickets_sold ev); [done|].
    unfold widen_database. simpl. by rewrite fmap_insert.
  - unfold handle, route. rewrite redeem_ticket_eq, wide_redeem_ticket_eq, Hid.
    widen_simpl. destruct (tickets d !! id) as [t|]; simpl; [|done].
    destruct (redeemed t); [done|]. rewrite lookup_fmap.
    destruct (events d !! event_id t) as [ev|]; simpl; [|done].
    by destruct ((date (start_date ev) <=? date now)
                 && (date now <=? date (end_date ev))).
Qed.

End Widening.

Lemma typed_views_are_wide_views_witness :
  Wide.key_bound (widen_request (SellTicket 1))
  ∧ Wide.handle strptime_dmy now_2026 (Wide.SellTicket 1)
      (widen_database db_concert)
    = (sold_response 1, widen_database db_one_sold).
Proof.
  assert (Wide.key_bound (widen_request (SellTicket 1))) as Hkey
    by (by vm_compute).
  split; [exact Hkey|].
  exact (typed_views_are_wide_views strptime_dmy now_2026 (SellTicket 1)
           db_concert Hkey).
Defined.

